(** * utils/utils.py: the download orchestrator of OrpheusDL-Aria2c

    A shallow embedding of [create_requests_session], [is_aria2c_installed],
    [silentremove] and [download_file], then of [sanitise_name],
    [fix_byte_limit], the temporary files and the temporary settings.  The Python code runs against a
    file system, a module-level cache ([_aria2c_installed]), an external
    [aria2c] process, a [requests] session and PIL.  The file system and the
    cache are explicit state; every answer of the outside world (process
    results, HTTP response, decoded image, injected exceptions) is read from
    a [world] record, so that [download_file] is an executable function. *)

From stdpp Require Import gmap strings list.
From Stdlib Require Import Ascii String ZArith QArith Qminmax Lia.

Local Open Scope string_scope.
Local Open Scope Z_scope.
Local Open Scope list_scope.

(** ** Python exceptions *)

Module Py.

(** The exception classes the code can meet.  [KeyboardInterrupt] and
    [SystemExit] derive from [BaseException] only; all others derive from
    [Exception]. *)
Inductive exn_class :=
| KeyboardInterrupt
| SystemExit
| FileNotFoundError
| FileExistsError
| IsADirectoryError
| NotADirectoryError
| PermissionError
| OSError
| CalledProcessError
| HTTPError
| ConnectionError
| RetryError
| ValueError
| OtherException.

Record exn := Exn { exn_cls : exn_class; exn_str : string }.

(** [isinstance(e, Exception)] *)
Definition is_Exception (e : exn) : bool :=
  match exn_cls e with
  | KeyboardInterrupt | SystemExit => false
  | _ => true
  end.

(** [isinstance(e, FileNotFoundError)] *)
Definition is_FileNotFoundError (e : exn) : bool :=
  match exn_cls e with FileNotFoundError => true | _ => false end.

(** [isinstance(e, subprocess.CalledProcessError)] *)
Definition is_CalledProcessError (e : exn) : bool :=
  match exn_cls e with CalledProcessError => true | _ => false end.

(** [isinstance(e, OSError)]; the exceptions of [requests] derive from
    [IOError], which is [OSError]. *)
Definition is_OSError (e : exn) : bool :=
  match exn_cls e with
  | FileNotFoundError | FileExistsError | IsADirectoryError
  | NotADirectoryError | PermissionError | OSError
  | HTTPError | ConnectionError | RetryError => true
  | _ => false
  end.

(** [e.errno == errno.ENOENT] for an [OSError] raised by the system. *)
Definition errno_is_ENOENT (e : exn) : bool := is_FileNotFoundError e.

Inductive outcome (A : Type) :=
| Ret (a : A)
| Raise (e : exn).
Arguments Ret {A} a.
Arguments Raise {A} e.

End Py.
Export Py.

(** ** Strings *)

Definition lower_ascii (c : ascii) : ascii :=
  let n := nat_of_ascii c in
  if ((65 <=? n) && (n <=? 90))%nat then ascii_of_nat (n + 32) else c.

(** [str.lower()] on ASCII text *)
Fixpoint lower (s : string) : string :=
  match s with
  | EmptyString => EmptyString
  | String c r => String (lower_ascii c) (lower r)
  end.

(** [needle in s] *)
Fixpoint str_contains (needle s : string) : bool :=
  String.prefix needle s ||
  match s with
  | EmptyString => false
  | String _ r => str_contains needle r
  end.

(** [c.isspace()] for a character of ASCII: tab to carriage return, the
    four separators and the space. *)
Definition isspace (c : ascii) : bool :=
  let n := nat_of_ascii c in
  ((9 <=? n) && (n <=? 13) || (28 <=? n) && (n <=? 32))%nat.

(** A text is held as the bytes of its UTF-8 encoding.  The whitespace
    outside ASCII, by the bytes of its encoding: U+0085 and U+00A0 take
    two bytes, U+1680, U+2000 to U+200A, U+2028, U+2029, U+202F, U+205F and
    U+3000 take three. *)
Definition isspace2 (b1 b2 : ascii) : bool :=
  let n1 := nat_of_ascii b1 in
  let n2 := nat_of_ascii b2 in
  ((n1 =? 194) && ((n2 =? 133) || (n2 =? 160)))%nat.

Definition isspace3 (b1 b2 b3 : ascii) : bool :=
  let n1 := nat_of_ascii b1 in
  let n2 := nat_of_ascii b2 in
  let n3 := nat_of_ascii b3 in
  ((n1 =? 225) && (n2 =? 154) && (n3 =? 128)
   || (n1 =? 226) && (n2 =? 128)
      && ((128 <=? n3) && (n3 <=? 138) || (n3 =? 168) || (n3 =? 169)
          || (n3 =? 175))
   || (n1 =? 226) && (n2 =? 129) && (n3 =? 159)
   || (n1 =? 227) && (n2 =? 128) && (n3 =? 128))%nat.

(** Drops the whitespace a list of bytes starts with. *)
Fixpoint lstrip_bytes (l : list ascii) : list ascii :=
  match l with
  | [] => []
  | b1 :: rest =>
      if isspace b1 then lstrip_bytes rest
      else
        match rest with
        | [] => l
        | b2 :: rest2 =>
            if isspace2 b1 b2 then lstrip_bytes rest2
            else
              match rest2 with
              | [] => l
              | b3 :: rest3 =>
                  if isspace3 b1 b2 b3 then lstrip_bytes rest3 else l
              end
        end
  end.

(** The same on a text read backwards: [r] starts with the last byte. *)
Fixpoint rstrip_bytes_rev (r : list ascii) : list ascii :=
  match r with
  | [] => []
  | b3 :: rest =>
      if isspace b3 then rstrip_bytes_rev rest
      else
        match rest with
        | [] => r
        | b2 :: rest2 =>
            if isspace2 b2 b3 then rstrip_bytes_rev rest2
            else
              match rest2 with
              | [] => r
              | b1 :: rest3 =>
                  if isspace3 b1 b2 b3 then rstrip_bytes_rev rest3 else r
              end
        end
  end.

(** [str.lstrip()] *)
Definition lstrip (s : string) : string :=
  string_of_list_ascii (lstrip_bytes (list_ascii_of_string s)).

(** [str.rstrip()] *)
Definition rstrip (s : string) : string :=
  string_of_list_ascii
    (rev (rstrip_bytes_rev (rev (list_ascii_of_string s)))).

(** Drops trailing characters satisfying [p]. *)
Fixpoint rstrip_with (p : ascii -> bool) (s : string) : string :=
  match s with
  | EmptyString => EmptyString
  | String c r =>
      match rstrip_with p r with
      | EmptyString => if p c then EmptyString else String c EmptyString
      | r' => String c r'
      end
  end.

(** [str.strip()] *)
Definition strip (s : string) : string := rstrip (lstrip s).

(** [' ' * n] *)
Definition spaces (n : Z) : string :=
  Z.iter n (String " "%char) EmptyString.

Definition string_eqb (a b : string) : bool := bool_decide (a = b).

(** ** Paths (posixpath) *)

Definition is_sep (c : ascii) : bool := bool_decide (c = "/"%char).

(** [(p[:i], p[i:])] for [i = p.rfind('/') + 1] *)
Fixpoint rsplit_sep (p : string) : string * string :=
  match p with
  | EmptyString => (EmptyString, EmptyString)
  | String c r =>
      let '(h, t) := rsplit_sep r in
      if is_sep c then (String c h, t)
      else
        match h with
        | EmptyString => (EmptyString, String c t)
        | _ => (String c h, t)
        end
  end.

Fixpoint all_sep (s : string) : bool :=
  match s with
  | EmptyString => true
  | String c r => is_sep c && all_sep r
  end.

(** [os.path.dirname]: the head up to the last slash, trailing slashes
    stripped unless the head is the root. *)
Definition dirname (p : string) : string :=
  let h := fst (rsplit_sep p) in
  if all_sep h then h else rstrip_with is_sep h.

(** [os.path.basename] *)
Definition basename (p : string) : string := snd (rsplit_sep p).

(** ** The file system, the module globals and the log of external calls *)

(** Bytes of a file, of a chunk of a response body. *)
Abbreviation bytes := (list Byte.byte).

Inductive node :=
| File (data : bytes)
| Dir.

(** [st_size] of a directory entry. *)
Definition dir_size : Z := 4096.

Inductive save_opts :=
| Quality (q : Z)            (* quality=q *)
| CompressLevel (n : Z)      (* compress_level=n *)
| NoOpts.

Inductive resampling := BICUBIC.

(** What PIL knows of an opened image: [im.mode] and [im.size]. *)
Record image := Image { mode : string; size : Z * Z }.

(** The calls that leave the process, in the order they are made. *)
Inductive event :=
| EvSubprocess (cmd : list string)
| EvMakedirs (directory : string)
| EvPrint (line : string)
| EvGet (url : string) (headers : list (string * string)) (stream verify : bool)
| EvSleep (seconds : Q)
| EvOpenWb (path : string)
| EvRemove (path : string)
| EvBar (total : Z) (ncols : option Z) (bar_format : string)
| EvBarUpdate (n : Z)
| EvBarClose
| EvImageOpen (path : string)
| EvImageConvert (to_mode : string)
| EvImageResize (new_size : Z * Z) (filter : resampling)
| EvImageSave (path : string) (format : string) (opts : save_opts) (im : image).

(** Module-level and process-level state.  [_aria2c_installed] is the module
    global of line 43: [None], [Some true] or [Some false]. *)
Record state := State {
  _aria2c_installed : option bool;
  fs : gmap string node;
  log : list event
}.

Record completed_process := Process {
  returncode : Z;
  stdout : string;
  stderr : string
}.

(** The ['content-length'] header of a response and what [int()] makes of it. *)
Inductive content_length :=
| NoLength
| Length (n : Z)
| BadLength.

(** A streamed response: its body arrives as the chunks of [iter_content],
    after which the iteration ends or raises [body_error]. *)
Record response := Response {
  status_code : Z;
  length_header : content_length;
  body : list bytes;
  body_error : option exn
}.

(** What one attempt of a request meets: a failure of the connection, or
    a response, with the seconds of its [Retry-After] header if it has
    one. *)
Inductive attempt :=
| Unreachable (reason : string)
| Answered (r : response) (retry_after : option Z).

(** The answers of the outside world to one call of [download_file]. *)
Record world := World {
  w_version : outcome completed_process;   (* aria2c --version *)
  w_makedirs : option exn;                 (* a failure of os.makedirs *)
  w_aria2c : outcome completed_process;    (* the download run of aria2c *)
  w_aria2c_file : option bytes;            (* what that run leaves at the destination *)
  w_aria2c_control : option bytes;         (* the control file of a run that did not finish *)
  w_attempts : list attempt;               (* what the first attempts of the GET meet *)
  w_answer : outcome response;             (* what every later attempt meets *)
  w_open : option exn;                     (* a failure of open(.., 'wb') *)
  w_columns : option Z;                    (* os.get_terminal_size().columns *)
  w_decode : bytes -> outcome image;       (* Image.open *)
  w_convert : option exn;                  (* a failure of im.convert *)
  w_resize : option exn;                   (* a failure of im.resize *)
  w_encode : string -> save_opts -> image -> outcome bytes;  (* im.save *)
  w_save_written : option bytes            (* what a save that raises has written *)
}.

(** ** A state and exception monad *)

Definition M (A : Type) : Type := state -> outcome A * state.

Definition ret {A} (a : A) : M A := fun s => (Ret a, s).
Definition raise {A} (e : exn) : M A := fun s => (Raise e, s).
Definition bind {A B} (m : M A) (k : A -> M B) : M B :=
  fun s => match m s with
           | (Ret a, s') => k a s'
           | (Raise e, s') => (Raise e, s')
           end.

(** [try: m  except ...: h]: [h e] is the body of the first clause that
    matches [e], [None] when no clause does. *)
Definition try_except {A} (m : M A) (h : exn -> option (M A)) : M A :=
  fun s => match m s with
           | (Ret a, s') => (Ret a, s')
           | (Raise e, s') =>
               match h e with
               | Some handler => handler s'
               | None => (Raise e, s')
               end
           end.

Notation "'do' x <- m ; k" := (bind m (fun x => k))
  (at level 10, x name, m at level 100, k at level 200).
Notation "'run' m ; k" := (bind m (fun _ => k))
  (at level 10, m at level 100, k at level 200).

Definition get_state : M state := fun s => (Ret s, s).
Definition emit (ev : event) : M unit :=
  fun s => (Ret tt, State (_aria2c_installed s) (fs s) (log s ++ [ev])).
Definition set_fs (f : gmap string node) : M unit :=
  fun s => (Ret tt, State (_aria2c_installed s) f (log s)).
Definition set_aria2c_installed (v : option bool) : M unit :=
  fun s => (Ret tt, State v (fs s) (log s)).
(** An exception injected by the world, if any. *)
Definition fail_with (o : option exn) : M unit :=
  match o with Some e => raise e | None => ret tt end.
Definition lift {A} (o : outcome A) : M A :=
  match o with Ret a => ret a | Raise e => raise e end.
Definition when (b : bool) (m : M unit) : M unit := if b then m else ret tt.

Definition print (line : string) : M unit := emit (EvPrint line).

(** ** The operating system: [os], [os.path], [open] *)

Definition has {A} (o : option A) : bool :=
  match o with Some _ => true | None => false end.

(** The entry at a path; a path made of slashes only is the root. *)
Definition fs_entry (f : gmap string node) (p : string) : option node :=
  if negb (string_eqb p "") && all_sep p then Some Dir else f !! p.

Definition is_file (f : gmap string node) (p : string) : bool :=
  match fs_entry f p with Some (File _) => true | _ => false end.

Definition is_dir (f : gmap string node) (p : string) : bool :=
  match fs_entry f p with Some Dir => true | _ => false end.

Definition os_path_isfile (p : string) : M bool :=
  do s <- get_state; ret (is_file (fs s) p).

Definition os_path_exists (p : string) : M bool :=
  do s <- get_state; ret (has (fs_entry (fs s) p)).

Definition ENOENT (p : string) : exn :=
  Exn FileNotFoundError ("[Errno 2] No such file or directory: '" +:+ p +:+ "'").

Definition EISDIR (p : string) : exn :=
  Exn IsADirectoryError ("[Errno 21] Is a directory: '" +:+ p +:+ "'").

Definition EEXIST (p : string) : exn :=
  Exn FileExistsError ("[Errno 17] File exists: '" +:+ p +:+ "'").

Definition ENOTDIR (p : string) : exn :=
  Exn NotADirectoryError ("[Errno 20] Not a directory: '" +:+ p +:+ "'").

Definition os_path_getsize (p : string) : M Z :=
  do s <- get_state;
  match fs_entry (fs s) p with
  | Some (File d) => ret (Z.of_nat (List.length d))
  | Some Dir => ret dir_size
  | None => raise (ENOENT p)
  end.

(** The prefixes of [p] that end before a run of slashes, then [p]:
    the directories [os.makedirs] walks through, outermost first. *)
Fixpoint path_prefixes_from (acc : string) (in_name : bool) (p : string)
  : list string :=
  match p with
  | EmptyString => if string_eqb acc "" then [] else [acc]
  | String c r =>
      if is_sep c
      then (if in_name then [acc] else [])
             ++ path_prefixes_from (acc +:+ String c EmptyString) false r
      else path_prefixes_from (acc +:+ String c EmptyString) true r
  end.

Definition path_prefixes (p : string) : list string :=
  path_prefixes_from "" false p.

(** The system looks up the directories [ps] on the way to [p], outermost
    first: the first that is missing ends the lookup with [ENOENT], the
    first that is a regular file with [ENOTDIR]. *)
Fixpoint lookup_dirs (f : gmap string node) (ps : list string) (p : string)
  : option exn :=
  match ps with
  | [] => None
  | q :: rest =>
      match fs_entry f q with
      | Some Dir => lookup_dirs f rest p
      | Some (File _) => Some (ENOTDIR p)
      | None => Some (ENOENT p)
      end
  end.

(** What the lookup of the directories above [p] fails with, if it does. *)
Definition parent_error (f : gmap string node) (p : string) : option exn :=
  lookup_dirs f (path_prefixes (dirname p)) p.

(** The error for a path that has no entry: [ENOTDIR] when a regular
    file is on the way to it, [ENOENT] otherwise. *)
Definition missing (f : gmap string node) (p : string) : exn :=
  default (ENOENT p) (parent_error f p).

(** [os.remove(p)] *)
Definition os_remove (p : string) : M unit :=
  run emit (EvRemove p);
  do s <- get_state;
  match fs_entry (fs s) p with
  | Some (File _) => set_fs (delete p (fs s))
  | Some Dir => raise (EISDIR p)
  | None => raise (missing (fs s) p)
  end.

(** A regular file on the way is no directory: [mkdir] of the next
    component fails with [ENOTDIR]; as the last component it is there
    already and is no directory, which [exist_ok] does not excuse. *)
Fixpoint mkdir_each (ps : list string) : M unit :=
  match ps with
  | [] => ret tt
  | p :: rest =>
      do s <- get_state;
      match fs_entry (fs s) p with
      | Some Dir => mkdir_each rest
      | Some (File _) =>
          match rest with
          | [] => raise (EEXIST p)
          | next :: _ => raise (ENOTDIR next)
          end
      | None => run set_fs (<[p := Dir]> (fs s)); mkdir_each rest
      end
  end.

(** [os.makedirs(name, exist_ok=True)]: creates [name] and its missing
    ancestors; the empty name is refused with [FileNotFoundError]. *)
Definition os_makedirs (w : world) (name : string) : M unit :=
  run emit (EvMakedirs name);
  if string_eqb name "" then raise (ENOENT name)
  else run fail_with (w_makedirs w); mkdir_each (path_prefixes name).

(** [open(p, 'wb')]: creates or truncates [p].  The empty path names no
    file, and every directory on the way to [p] has to be there. *)
Definition open_wb (w : world) (p : string) : M unit :=
  run emit (EvOpenWb p);
  run fail_with (w_open w);
  do s <- get_state;
  match fs_entry (fs s) p with
  | Some Dir => raise (EISDIR p)
  | _ =>
      if string_eqb p "" then raise (ENOENT p)
      else
        match parent_error (fs s) p with
        | Some e => raise e
        | None => set_fs (<[p := File []]> (fs s))
        end
  end.

(** [f.write(chunk)] on the handle opened at [p]. *)
Definition file_write (p : string) (chunk : bytes) : M unit :=
  do s <- get_state;
  match fs s !! p with
  | Some (File d) => set_fs (<[p := File (d ++ chunk)]> (fs s))
  | _ => set_fs (<[p := File chunk]> (fs s))
  end.

(** [subprocess.run(cmd, capture_output=True, text=True, check=check)] *)
Definition subprocess_run (cmd : list string) (answer : outcome completed_process)
    (check : bool) : M completed_process :=
  run emit (EvSubprocess cmd);
  do process <- lift answer;
  if check && negb (returncode process =? 0)
  then raise (Exn CalledProcessError "Command returned non-zero exit status")
  else ret process.

(** ** [requests] *)

Record Retry := {
  total : Z;
  backoff_factor : Q;
  status_forcelist : list Z
}.

Record HTTPAdapter := { max_retries : Retry }.

(** A session is its table of transport adapters, keyed by URL prefix. *)
Record Session := { adapters : gmap string HTTPAdapter }.

(** [HTTPAdapter()] retries nothing. *)
Definition default_adapter : HTTPAdapter :=
  {| max_retries := {| total := 0; backoff_factor := 0%Q; status_forcelist := [] |} |}.

(** [requests.Session()] *)
Definition new_session : Session :=
  {| adapters := <["https://" := default_adapter]>
                   (<["http://" := default_adapter]> ∅) |}.

Definition mount (prefix : string) (adapter : HTTPAdapter) (s : Session) : Session :=
  {| adapters := <[prefix := adapter]> (adapters s) |}.

(** Lines 15-20. *)
Definition create_requests_session : Session :=
  let session_ := new_session in
  let retries := {| total := 10; backoff_factor := 0.4%Q;
                    status_forcelist := [429; 500; 502; 503; 504] |} in
  let session_ := mount "http://" {| max_retries := retries |} session_ in
  let session_ := mount "https://" {| max_retries := retries |} session_ in
  session_.

(** Line 41. *)
Definition r_session : Session := create_requests_session.

(** [Session.get_adapter(url)]: the adapter mounted at the longest prefix
    that the URL starts with, the case of letters apart. *)
Definition serves (url prefix : string) : bool :=
  String.prefix (lower prefix) (lower url).

Definition get_adapter (s : Session) (url : string) : option HTTPAdapter :=
  foldr (fun pa best =>
           if serves url (fst pa) then
             match best with
             | Some b =>
                 if (String.length (fst b) <? String.length (fst pa))%nat
                 then Some pa else Some b
             | None => Some pa
             end
           else best)
        None (map_to_list (adapters s))
  ≫= fun pa => Some (snd pa).

(** ** The retries of urllib3 *)

(** [Retry.RETRY_AFTER_STATUS_CODES] *)
Definition RETRY_AFTER_STATUS_CODES : list Z := [413; 429; 503].

(** [retries.is_retry('GET', status, has_retry_after)] when [left] is what
    is left of [total]: a forced status, or a status of
    [RETRY_AFTER_STATUS_CODES] that comes with a [Retry-After] header
    while [total] is not zero. *)
Definition is_retry (retries : Retry) (left : nat) (status : Z)
    (has_retry_after : bool) : bool :=
  existsb (Z.eqb status) (status_forcelist retries)
  || negb (Nat.eqb left 0) && has_retry_after
     && existsb (Z.eqb status) RETRY_AFTER_STATUS_CODES.

(** [Retry.DEFAULT_BACKOFF_MAX] *)
Definition BACKOFF_MAX : Q := 120.

(** [retries.get_backoff_time()] after [failures] failed attempts in a
    row: nothing after the first, then [backoff_factor * 2 ** (failures - 1)],
    at most [BACKOFF_MAX]. *)
Definition get_backoff_time (retries : Retry) (failures : nat) : Q :=
  if (failures <=? 1)%nat then 0%Q
  else
    let backoff_value :=
      Qred (backoff_factor retries * inject_Z (2 ^ Z.of_nat (failures - 1))) in
    if Qle_bool backoff_value BACKOFF_MAX then backoff_value else BACKOFF_MAX.

(** [retries.sleep(response)]: the seconds slept before the next attempt.
    A [Retry-After] header of more than zero seconds is obeyed; without
    one the backoff time is slept. *)
Definition sleep_time (retries : Retry) (failures : nat)
    (retry_after : option Z) : Q :=
  match retry_after with
  | Some seconds =>
      if 0 <? seconds then inject_Z seconds
      else get_backoff_time retries failures
  | None => get_backoff_time retries failures
  end.

(** What the next attempt meets. *)
Definition meets (before : list attempt) (answer : outcome response)
  : outcome attempt :=
  match before with
  | a :: _ => Ret a
  | [] => match answer with
          | Ret r => Ret (Answered r None)
          | Raise e => Raise e
          end
  end.

(** [HTTPConnectionPool.urlopen] under a policy with [left] retries left,
    after [failures] failed attempts: the sleep before each new attempt
    and the result.  A failed connection and a response that [is_retry]
    accepts are tried again while retries are left; when none is left the
    first ends in [ConnectionError] and the second in [RetryError].  An
    exception that is no failure of the connection is raised as it is. *)
Fixpoint urlopen (retries : Retry) (left failures : nat)
    (before : list attempt) (answer : outcome response)
  : list Q * outcome response :=
  match meets before answer with
  | Raise e => ([], Raise e)
  | Ret (Unreachable reason) =>
      match left with
      | O => ([], Raise (Exn ConnectionError
                           ("Max retries exceeded (" +:+ reason +:+ ")")))
      | S left' =>
          let '(sleeps, result) :=
            urlopen retries left' (S failures) (tl before) answer in
          (sleep_time retries (S failures) None :: sleeps, result)
      end
  | Ret (Answered r retry_after) =>
      if is_retry retries left (status_code r) (has retry_after) then
        match left with
        | O => ([], Raise (Exn RetryError "too many error responses"))
        | S left' =>
            let '(sleeps, result) :=
              urlopen retries left' (S failures) (tl before) answer in
            (sleep_time retries (S failures) retry_after :: sleeps, result)
        end
      else ([], Ret r)
  end.

(** The policy of line 17, which both adapters of [r_session] carry. *)
Definition retries_of_session : Retry :=
  {| total := 10; backoff_factor := 0.4%Q;
     status_forcelist := [429; 500; 502; 503; 504] |}.

(** What [r_session.get] returns or raises in the world [w]. *)
Definition w_get (w : world) : outcome response :=
  snd (urlopen retries_of_session (Z.to_nat (total retries_of_session)) 0
         (w_attempts w) (w_answer w)).

(** The sleeps between the attempts of [r_session.get] in the world
    [w]. *)
Definition w_sleeps (w : world) : list Q :=
  fst (urlopen retries_of_session (Z.to_nat (total retries_of_session)) 0
         (w_attempts w) (w_answer w)).

(** The requests of one call: the first attempt, then each new attempt
    after its sleep. *)
Definition request_events (url : string) (headers : list (string * string))
    (sleeps : list Q) : list event :=
  EvGet url headers true false
  :: List.concat
       (map (fun seconds =>
               (if Qle_bool seconds 0 then [] else [EvSleep seconds])
               ++ [EvGet url headers true false])
            sleeps).

(** The number of requests among the events of a log. *)
Definition requests_sent (evs : list event) : nat :=
  List.length
    (List.filter (fun ev => match ev with EvGet _ _ _ _ => true | _ => false end)
       evs).

Fixpoint emit_each (evs : list event) : M unit :=
  match evs with
  | [] => ret tt
  | ev :: rest => run emit ev; emit_each rest
  end.

(** [r_session.get(url, stream=True, headers=headers, verify=False)]: the
    adapter that serves the URL sends the request under its policy.  A URL
    that no adapter serves is refused before any attempt; the URLs of this
    model are served, and such a URL is taken to the adapter of
    [http://]. *)
Definition session_get (w : world) (url : string)
    (headers : list (string * string)) : M response :=
  let adapter :=
    default (default default_adapter (adapters r_session !! "http://"))
            (get_adapter r_session url) in
  let retries := max_retries adapter in
  let '(sleeps, result) :=
    urlopen retries (Z.to_nat (total retries)) 0 (w_attempts w) (w_answer w) in
  run emit_each (request_events url headers sleeps);
  lift result.

(** [r.raise_for_status()] *)
Definition raise_for_status (r : response) : M unit :=
  if (400 <=? status_code r) && (status_code r <? 600)
  then raise (Exn HTTPError "HTTP error status")
  else ret tt.

(** ** PIL *)

(** [Image.open(p)]: decodes the bytes found at [p]. *)
Definition image_open (w : world) (p : string) : M image :=
  run emit (EvImageOpen p);
  do s <- get_state;
  match fs_entry (fs s) p with
  | Some (File d) => lift (w_decode w d)
  | Some Dir => raise (EISDIR p)
  | None => raise (ENOENT p)
  end.

(** [im.convert(m)] *)
Definition image_convert (w : world) (im : image) (m : string) : M image :=
  run emit (EvImageConvert m);
  run fail_with (w_convert w);
  ret (Image m (size im)).

(** [im.resize(sz, filter)] *)
Definition image_resize (w : world) (im : image) (sz : Z * Z)
    (filter : resampling) : M image :=
  run emit (EvImageResize sz filter);
  run fail_with (w_resize w);
  ret (Image (mode im) sz).

(** [im.save(p, format, **opts)].  PIL looks the format up, opens [p]
    with mode ['w+b'], which empties a file that is there, and runs the
    encoder on the open file.  A save that raises before the file is
    opened ([w_save_written] is [None]) writes nothing; one that raises
    later leaves what it had written in a file that was there, and removes
    a file that it created. *)
Definition image_save (w : world) (im : image) (p format : string)
    (opts : save_opts) : M unit :=
  run emit (EvImageSave p format opts im);
  do s <- get_state;
  match w_encode w format opts im with
  | Ret d =>
      match fs_entry (fs s) p with
      | Some Dir => raise (EISDIR p)
      | _ => set_fs (<[p := File d]> (fs s))
      end
  | Raise e =>
      match w_save_written w with
      | None => raise e
      | Some written =>
          match fs_entry (fs s) p with
          | Some Dir => raise (EISDIR p)
          | Some (File _) => run set_fs (<[p := File written]> (fs s)); raise e
          | None => raise e
          end
      end
  end.

(** ** utils.py *)

(** Lines 205-210. *)
Definition silentremove (filename : string) : M unit :=
  try_except (os_remove filename)
    (fun e => if is_OSError e
              then Some (if negb (errno_is_ENOENT e) then raise e else ret tt)
              else None).

(** Lines 45-53.  The result is the cached global, tested for truth by the
    caller. *)
Definition is_aria2c_installed (w : world) : M (option bool) :=
  do s <- get_state;
  run match _aria2c_installed s with
      | None =>
          try_except
            (do process <- subprocess_run ["aria2c"; "--version"] (w_version w) true;
             set_aria2c_installed
               (Some (str_contains "aria2 version" (lower (stdout process)))))
            (fun e => if is_CalledProcessError e || is_FileNotFoundError e
                      then Some (set_aria2c_installed (Some false))
                      else None)
      | Some _ => ret tt
      end;
  do s' <- get_state;
  ret (_aria2c_installed s').

(** The [artwork_settings] dictionary: a key that is absent is [None]. *)
Record artwork_settings := Artwork {
  should_resize : option bool;
  resolution : option Z;
  format : option string;
  compression : option string
}.

(** The names bound in the body of [download_file].  The function has no
    [global] declaration, so the assignment of line 107 binds the local
    name [_aria2c_installed], held here in [local_aria2c_installed]. *)
Record frame := Frame {
  aria2c_used : bool;
  local_aria2c_installed : option bool
}.

(** The header argument of line 81: [f'--header={key}: {value}']. *)
Definition header_arg (kv : string * string) : string :=
  "--header=" +:+ fst kv +:+ ": " +:+ snd kv.

(** Lines 65-83. *)
Definition aria2c_command (url directory filename : string)
    (headers : list (string * string)) : list string :=
  [ "aria2c";
    "--dir"; directory;
    "--out"; filename;
    "--max-connection-per-server=8";
    "--min-split-size=1M";
    "--split=8";
    "--continue=true";
    "--auto-file-renaming=false";
    "--console-log-level=warn";
    "--show-console-readout=false";
    "--summary-interval=0";
    "--allow-overwrite=true" ]
  ++ map header_arg headers
  ++ [url].

(** A run of the accelerator that ends with status 0. *)
Definition finished (answer : outcome completed_process) : bool :=
  match answer with
  | Ret process => returncode process =? 0
  | Raise _ => false
  end.

(** The control file that aria2c keeps beside a download. *)
Definition control_file (file_location : string) : string :=
  file_location +:+ ".aria2".

(** The run of line 91: the accelerator writes what it writes at the
    destination ([--dir] and [--out] name [file_location]), then answers.
    A run that does not finish may leave its control file (lines 101-103);
    a run that finishes removes it. *)
Definition run_aria2c (w : world) (cmd : list string) (file_location : string)
  : M completed_process :=
  run emit (EvSubprocess cmd);
  do s <- get_state;
  run match w_aria2c_file w with
      | Some d => set_fs (<[file_location := File d]> (fs s))
      | None => ret tt
      end;
  do s <- get_state;
  run match w_aria2c_control w with
      | Some c =>
          if finished (w_aria2c w) then ret tt
          else set_fs (<[control_file file_location := File c]> (fs s))
      | None => ret tt
      end;
  lift (w_aria2c w).

(** What the accelerator leaves at the destination, and beside it. *)
Definition aria2c_wrote (w : world) (p : string) (f : gmap string node)
  : gmap string node :=
  match w_aria2c_file w with
  | Some d => <[p := File d]> f
  | None => f
  end.

Definition aria2c_left (w : world) (p : string) (f : gmap string node)
  : gmap string node :=
  match w_aria2c_control w with
  | Some c =>
      if finished (w_aria2c w) then aria2c_wrote w p f
      else <[control_file p := File c]> (aria2c_wrote w p f)
  | None => aria2c_wrote w p f
  end.

(** Lines 61-111: the accelerator attempt. *)
Definition try_aria2c (w : world) (url file_location : string)
    (headers : list (string * string)) (enable_progress_bar : bool)
    (indent_level : Z) : M frame :=
  let directory := dirname file_location in
  let filename := basename file_location in
  run os_makedirs w directory;
  let cmd := aria2c_command url directory filename headers in
  try_except
    (run when enable_progress_bar
           (print (spaces indent_level +:+ "Downloading with aria2c: " +:+ filename));
     do process <- run_aria2c w cmd file_location;
     if (returncode process =? 0) then ret (Frame true None)
     else
       run print (spaces indent_level +:+ "aria2c download failed for " +:+ filename
                  +:+ ". Error: " +:+ strip (stderr process)
                  +:+ ". Falling back to requests.");
       do found <- os_path_exists file_location;
       run when found
             (do actual_size <- os_path_getsize file_location;
              when (actual_size =? 0) (silentremove file_location));
       ret (Frame false None))
    (fun e =>
       if is_FileNotFoundError e then
         Some (run print (spaces indent_level
                          +:+ "aria2c not found. Falling back to requests for "
                          +:+ filename +:+ ".");
               ret (Frame false (Some false)))
       else if is_Exception e then
         Some (run print (spaces indent_level
                          +:+ "An unexpected error occurred with aria2c for "
                          +:+ filename +:+ ": " +:+ exn_str e
                          +:+ ". Falling back to requests.");
               do found <- os_path_exists file_location;
               run when found (silentremove file_location);
               ret (Frame false None))
       else None).

(** The loop over [r.iter_content(chunk_size=8192)], lines 141-149. *)
Fixpoint write_chunks (file_location : string) (with_bar : bool)
    (chunks : list bytes) : M unit :=
  match chunks with
  | [] => ret tt
  | chunk :: rest =>
      run match chunk with
          | [] => ret tt
          | _ => run file_write file_location chunk;
                 when with_bar (emit (EvBarUpdate (Z.of_nat (List.length chunk))))
          end;
      write_chunks file_location with_bar rest
  end.

Definition iter_content (file_location : string) (with_bar : bool)
    (r : response) : M unit :=
  run write_chunks file_location with_bar (body r);
  fail_with (body_error r).

Definition bar_format_wide : string :=
  "{l_bar}{bar}| {n_fmt}/{total_fmt} [{elapsed}<{remaining}, {rate_fmt}{postfix}]".

Definition bar_format_plain : string := "{l_bar}{bar}{r_bar}".

(** Lines 126-139: the bar takes the terminal width when there is one. *)
Definition open_bar (w : world) (total : Z) (indent_level : Z) : M unit :=
  match w_columns w with
  | Some columns =>
      let progress_bar_width := columns - indent_level - 25 in
      let progress_bar_width :=
        if (progress_bar_width <? 10) then 10 else progress_bar_width in
      emit (EvBar total (Some progress_bar_width)
              (spaces indent_level +:+ bar_format_wide))
  | None =>
      emit (EvBar total None (spaces indent_level +:+ bar_format_plain))
  end.

(** Lines 124-149: the [with open(...)] block inside the [try]. *)
Definition write_response (w : world) (file_location : string)
    (enable_progress_bar : bool) (indent_level : Z) (r : response)
    (total : option Z) : M unit :=
  run open_wb w file_location;
  match total with
  | Some n =>
      if enable_progress_bar && negb (n =? 0) then
        run open_bar w n indent_level;
        run iter_content file_location true r;
        emit EvBarClose
      else iter_content file_location false r
  | None => iter_content file_location false r
  end.

(** Lines 123-153: the [try] around that block and its
    [except Exception] clause. *)
Definition stream_to_file (w : world) (file_location : string)
    (enable_progress_bar : bool) (indent_level : Z) (r : response)
    (total : option Z) : M unit :=
  try_except
    (write_response w file_location enable_progress_bar indent_level r total)
    (fun e =>
       if is_Exception e then
         Some (do found <- os_path_isfile file_location;
               run when found (silentremove file_location);
               raise e)
       else None).

(** Lines 116-153: the fallback to [requests]. *)
Definition fallback (w : world) (url file_location : string)
    (headers : list (string * string)) (enable_progress_bar : bool)
    (indent_level : Z) : M unit :=
  do r <- session_get w url headers;
  run raise_for_status r;
  do total <- match length_header r with
              | NoLength => ret None
              | Length n => ret (Some n)
              | BadLength => raise (Exn ValueError "invalid literal for int()")
              end;
  stream_to_file w file_location enable_progress_bar indent_level r total.

(** Truth value of the dictionary: it has at least one key. *)
Definition settings_nonempty (st : artwork_settings) : bool :=
  has (should_resize st) || has (resolution st)
  || has (format st) || has (compression st).

(** The format and the encoder options of lines 160-166 and 175-184. *)
Definition new_format (st : artwork_settings) : string :=
  let new_format := lower (default "jpeg" (format st)) in
  if string_eqb new_format "jpg" then "jpeg" else new_format.

Definition new_compression_quality (st : artwork_settings) : Z :=
  let new_compression_quality := 90 in
  let compression_setting := lower (default "low" (compression st)) in
  if string_eqb compression_setting "high" then 70 else new_compression_quality.

Definition save_options (st : artwork_settings) : save_opts :=
  if string_eqb (new_format st) "jpeg" then Quality (new_compression_quality st)
  else if string_eqb (new_format st) "png" then CompressLevel 6
  else NoOpts.

(** Lines 159-184: the body of the [try] of the artwork step. *)
Definition process_artwork (w : world) (file_location : string)
    (st : artwork_settings) : M unit :=
  let new_resolution := default 1400 (resolution st) in
  do im <- image_open w file_location;
  do im <- (if string_eqb (mode im) "P" then image_convert w im "RGB" else ret im);
  do im <- image_resize w im (new_resolution, new_resolution) BICUBIC;
  image_save w im file_location (new_format st) (save_options st).

(** Lines 157-188: the artwork step. *)
Definition postprocess (w : world) (file_location : string) (indent_level : Z)
    (artwork : option artwork_settings) : M unit :=
  do found <- os_path_isfile file_location;
  match artwork with
  | Some st =>
      if found && settings_nonempty st && default false (should_resize st) then
        try_except (process_artwork w file_location st)
          (fun e =>
             if is_Exception e then
               Some (print (spaces indent_level +:+ "Error processing artwork "
                            +:+ file_location +:+ ": " +:+ exn_str e))
             else None)
      else ret tt
  | None => ret tt
  end.

(** Lines 59-153: accelerator first when the probe says so, then the
    fallback unless the accelerator succeeded. *)
Definition transfer (w : world) (url file_location : string)
    (headers : list (string * string)) (enable_progress_bar : bool)
    (indent_level : Z) : M unit :=
  let locals := Frame false None in
  do installed <- is_aria2c_installed w;
  do locals <- (if default false installed
                then try_aria2c w url file_location headers
                       enable_progress_bar indent_level
                else ret locals);
  if negb (aria2c_used locals)
  then fallback w url file_location headers enable_progress_bar indent_level
  else ret tt.

(** Lines 55-188. *)
Definition download_file (w : world) (url file_location : string)
    (headers : list (string * string)) (enable_progress_bar : bool)
    (indent_level : Z) (artwork : option artwork_settings) : M unit :=
  do found <- os_path_isfile file_location;
  if found then ret tt
  else
    run transfer w url file_location headers enable_progress_bar indent_level;
    postprocess w file_location indent_level artwork.

(** ** Properties of the log *)

(** Every run of [m] only appends to the log, and appends events that
    satisfy [P]. *)
Definition emits (P : event -> Prop) {A} (m : M A) : Prop :=
  forall s, exists l, log (snd (m s)) = log s ++ l /\ Forall P l.

(** A computation that only appends to the log. *)
Definition grows {A} (m : M A) : Prop := emits (fun _ => True) m.

(** A computation whose every run leaves [ev] in the log. *)
Definition logs (ev : event) {A} (m : M A) : Prop :=
  forall s, ev ∈ log (snd (m s)).

(** The run of [m] from [s] appends [ev] to the log. *)
Definition adds_at (ev : event) {A} (m : M A) (s : state) : Prop :=
  exists l, log (snd (m s)) = log s ++ l /\ ev ∈ l.

(** A computation that leaves the module global as it found it. *)
Definition keeps_cache {A} (m : M A) : Prop :=
  forall s, _aria2c_installed (snd (m s)) = _aria2c_installed s.

(** A computation that leaves a cache that holds an answer as it is. *)
Definition keeps_probed {A} (m : M A) : Prop :=
  forall s b, _aria2c_installed s = Some b ->
              _aria2c_installed (snd (m s)) = Some b.

(** An event that leaves the process carries the request: a subprocess is
    the version probe or the accelerator command of lines 65-83, a GET has
    the URL and the header map of the call. *)
Definition carries_headers (url file_location : string)
    (headers : list (string * string)) (ev : event) : Prop :=
  match ev with
  | EvSubprocess cmd =>
      cmd = ["aria2c"; "--version"] \/
      cmd = aria2c_command url (dirname file_location) (basename file_location)
              headers
  | EvGet u h _ _ => u = url /\ h = headers
  | _ => True
  end.

(** The image the artwork step hands to [im.save]. *)
Definition resized (st : artwork_settings) (im0 : image) : image :=
  let r := default 1400 (resolution st) in
  Image (if string_eqb (mode im0) "P" then "RGB" else mode im0) (r, r).

(** The PIL calls of an artwork step in which nothing raises. *)
Definition artwork_events (p : string) (st : artwork_settings) (im0 : image)
  : list event :=
  let r := default 1400 (resolution st) in
  [EvImageOpen p]
  ++ (if string_eqb (mode im0) "P" then [EvImageConvert "RGB"] else [])
  ++ [EvImageResize (r, r) BICUBIC;
      EvImageSave p (new_format st) (save_options st) (resized st im0)].

(** ** Scenarios *)

Definition chunk1 : bytes := [Byte.xff; Byte.xd8; Byte.xff].
Definition chunk2 : bytes := [Byte.xe0; Byte.x00].

Definition version_ok : outcome completed_process :=
  Ret (Process 0 "aria2 version 1.36.0" "").

Definition version_missing : outcome completed_process :=
  Raise (Exn FileNotFoundError "[Errno 2] No such file or directory: 'aria2c'").

Definition served (status : Z) (interrupt : option exn) : outcome response :=
  Ret (Response status (Length 5) [chunk1; chunk2] interrupt).

Definition decode_ok (im : image) : bytes -> outcome image := fun _ => Ret im.

(** A world given by the answers that differ between the scenarios; the
    operating system and the encoder never fail in it. *)
Definition world_of (version aria2c : outcome completed_process)
    (aria2c_file : option bytes) (get : outcome response)
    (decode : bytes -> outcome image) : world :=
  {| w_version := version;
     w_makedirs := None;
     w_aria2c := aria2c;
     w_aria2c_file := aria2c_file;
     w_aria2c_control := None;
     w_attempts := [];
     w_answer := get;
     w_open := None;
     w_columns := Some 80;
     w_decode := decode;
     w_convert := None;
     w_resize := None;
     w_encode := fun _ _ _ => Ret [Byte.x4a];
     w_save_written := None |}.

(** The world [w], in which a run of the accelerator that does not finish
    leaves the control file [c]. *)
Definition leaving_control (c : bytes) (w : world) : world :=
  {| w_version := w_version w;
     w_makedirs := w_makedirs w;
     w_aria2c := w_aria2c w;
     w_aria2c_file := w_aria2c_file w;
     w_aria2c_control := Some c;
     w_attempts := w_attempts w;
     w_answer := w_answer w;
     w_open := w_open w;
     w_columns := w_columns w;
     w_decode := w_decode w;
     w_convert := w_convert w;
     w_resize := w_resize w;
     w_encode := w_encode w;
     w_save_written := w_save_written w |}.

(** The world [w], in which the encoder of [im.save] raises [e] after the
    destination was opened and [written] was written to it. *)
Definition failing_save (e : exn) (written : bytes) (w : world) : world :=
  {| w_version := w_version w;
     w_makedirs := w_makedirs w;
     w_aria2c := w_aria2c w;
     w_aria2c_file := w_aria2c_file w;
     w_aria2c_control := w_aria2c_control w;
     w_attempts := w_attempts w;
     w_answer := w_answer w;
     w_open := w_open w;
     w_columns := w_columns w;
     w_decode := w_decode w;
     w_convert := w_convert w;
     w_resize := w_resize w;
     w_encode := fun _ _ _ => Raise e;
     w_save_written := Some written |}.

(** The world [w], in which the first attempts of the request meet
    [attempts]. *)
Definition meeting (attempts : list attempt) (w : world) : world :=
  {| w_version := w_version w;
     w_makedirs := w_makedirs w;
     w_aria2c := w_aria2c w;
     w_aria2c_file := w_aria2c_file w;
     w_aria2c_control := w_aria2c_control w;
     w_attempts := attempts;
     w_answer := w_answer w;
     w_open := w_open w;
     w_columns := w_columns w;
     w_decode := w_decode w;
     w_convert := w_convert w;
     w_resize := w_resize w;
     w_encode := w_encode w;
     w_save_written := w_save_written w |}.

Definition init_state : state := State None ∅ [].

(** The accelerator exits with status 1 and leaves three bytes; the server
    answers 404. *)
Definition world_partial_then_404 : world :=
  world_of version_ok (Ret (Process 1 "" "connection reset"))
    (Some chunk1) (served 404 None) (decode_ok (Image "RGB" (1, 1))).

(** The binary is gone when the download run starts. *)
Definition world_binary_vanished : world :=
  world_of version_ok version_missing None (served 200 None)
    (decode_ok (Image "RGB" (1, 1))).

(** No accelerator; the body iteration raises [interrupt] after two chunks. *)
Definition world_stream_raises (interrupt : exn) : world :=
  world_of version_missing version_missing None (served 200 (Some interrupt))
    (decode_ok (Image "RGB" (1, 1))).

(** No accelerator; the server answers. *)
Definition world_no_accelerator : world :=
  world_of version_missing version_missing None (served 200 None)
    (decode_ok (Image "P" (640, 480))).

(** The accelerator is installed and fails without leaving a file; the
    server answers. *)
Definition world_accelerator_fails : world :=
  world_of version_ok (Ret (Process 1 "" "connection reset")) None
    (served 200 None) (decode_ok (Image "P" (640, 480))).


(** No accelerator; the server answers 503 to every attempt. *)
Definition world_steady_503 : world :=
  world_of version_missing version_missing None (served 503 None)
    (decode_ok (Image "RGB" (1, 1))).

(** No accelerator; the server answers 413 with [Retry-After: 1], then
    serves the file. *)
Definition world_413_then_200 : world :=
  meeting [Answered (Response 413 (Length 5) [chunk1; chunk2] None) (Some 1)]
    world_no_accelerator.

(** No accelerator; the connection is reset, the next answer is 502, then
    the server serves the file. *)
Definition world_flaky : world :=
  meeting [Unreachable "reset";
           Answered (Response 502 (Length 5) [chunk1; chunk2] None) None]
    world_no_accelerator.

(** No accelerator; no attempt reaches the server. *)
Definition world_unreachable : world :=
  meeting (repeat (Unreachable "refused") 11) world_no_accelerator.

Definition resize_500_jpeg_high : artwork_settings :=
  Artwork (Some true) (Some 500) (Some "jpeg") (Some "high").

(** A state in which [cover.jpg] was downloaded before. *)
Definition state_with_cover : state :=
  State (Some false) (<["cover.jpg" := File (chunk1 ++ chunk2)]> ∅) [].

(** The calls the scenarios make. *)

Definition call_partial_then_404 : outcome unit * state :=
  download_file world_partial_then_404 "http://h/cover.jpg" "music/cover.jpg"
    [] false 0 None init_state.

Definition state_probed : state := State (Some true) ∅ [].

Definition call_binary_vanished (name : string) (s : state)
  : outcome unit * state :=
  download_file world_binary_vanished ("http://h/" +:+ name)
    ("music/" +:+ name) [] false 0 None s.

Definition call_stream_raises (interrupt : exn) : outcome unit * state :=
  download_file (world_stream_raises interrupt) "http://h/cover.jpg"
    "cover.jpg" [] false 0 None init_state.

Definition call_into_missing_directory (w : world) : outcome unit * state :=
  download_file w "http://h/cover.jpg" "music/cover.jpg" [] false 0 None
    init_state.


(** ** More of utils.py: names *)

Definition newline : ascii := ascii_of_nat 10.

(** [' '] or ['\t'], the class of the pattern [[ \t]]. *)
Definition is_blank (c : ascii) : bool :=
  let n := nat_of_ascii c in ((n =? 32) || (n =? 9))%nat.

(** [s[:-1]] when [s] ends with a newline. *)
Fixpoint drop_final_newline (s : string) : option string :=
  match s with
  | EmptyString => None
  | String c EmptyString =>
      if Ascii.eqb c newline then Some EmptyString else None
  | String c r => option_map (String c) (drop_final_newline r)
  end.

(** [re.sub(r'[ \t]+$', '', s)]: [$] holds at the end of the string and
    before a newline that ends it. *)
Definition sub_trailing_blanks (s : string) : string :=
  match drop_final_newline s with
  | Some t => rstrip_with is_blank t +:+ String newline EmptyString
  | None => rstrip_with is_blank s
  end.

(** The class of the second pattern of line 22: backslash, slash, star,
    question mark, double quote, angle brackets, bar and dollar. *)
Definition forbidden (c : ascii) : bool :=
  existsb (Nat.eqb (nat_of_ascii c)) [92; 47; 42; 63; 34; 60; 62; 124; 36]%nat.

Definition is_colon (c : ascii) : bool := (nat_of_ascii c =? 58)%nat.

(** [re.sub(cls, '', s)] for a character class. *)
Fixpoint delete_chars (cls : ascii -> bool) (s : string) : string :=
  match s with
  | EmptyString => EmptyString
  | String c r =>
      if cls c then delete_chars cls r else String c (delete_chars cls r)
  end.

(** [re.sub(r'[:]', ' - ', s)] *)
Fixpoint replace_colons (s : string) : string :=
  match s with
  | EmptyString => EmptyString
  | String c r =>
      if is_colon c then " - " +:+ replace_colons r
      else String c (replace_colons r)
  end.

(** Line 22, for a name that is a string; the empty name is the false one. *)
Definition sanitise_name (name : string) : string :=
  if string_eqb name "" then ""
  else replace_colons
         (delete_chars forbidden (sub_trailing_blanks (rstrip name))).

(** A character that line 22 lets through. *)
Definition allowed (c : ascii) : Prop := forbidden c = false /\ is_colon c = false.

(** ** More of utils.py: temporary files *)

Definition hex_digit (n : nat) : ascii :=
  match String.get n "0123456789abcdef" with
  | Some c => c
  | None => "0"%char
  end.

(** Two lowercase hexadecimal digits. *)
Definition hex_of_byte (b : Byte.byte) : string :=
  let n := Byte.to_nat b in
  String (hex_digit (n / 16)) (String (hex_digit (n mod 16)) EmptyString).

(** [bs.hex()] *)
Fixpoint hex (bs : bytes) : string :=
  match bs with
  | [] => EmptyString
  | b :: rest => hex_of_byte b +:+ hex rest
  end.

(** Line 254; [random16] is the answer of [os.urandom(16)]. *)
Definition create_temp_filename (random16 : bytes) : string :=
  "temp/" +:+ hex random16.

(** Lines 256-259. *)
Definition save_to_temp (w : world) (random16 : bytes) (input : bytes)
  : M string :=
  let location := create_temp_filename random16 in
  run open_wb w location;
  run file_write location input;
  ret location.

(** Line 262: [('.' + extension) if extension else ''] *)
Definition extension_suffix (extension : string) : string :=
  if string_eqb extension "" then "" else "." +:+ extension.

(** Lines 261-264. *)
Definition download_to_temp (w : world) (random16 : bytes) (url : string)
    (headers : list (string * string)) (extension : string)
    (enable_progress_bar : bool) (indent_level : Z) : M string :=
  let location := create_temp_filename random16 +:+ extension_suffix extension in
  run download_file w url location headers enable_progress_bar indent_level None;
  ret location.

(** The value of a hexadecimal digit. *)
Definition hex_value (c : ascii) : nat :=
  let n := nat_of_ascii c in
  if ((48 <=? n) && (n <=? 57))%nat then (n - 48)%nat
  else if ((97 <=? n) && (n <=? 102))%nat then (n - 87)%nat
  else 0%nat.

(** A character of [0-9a-f]. *)
Definition is_hex_digit (c : ascii) : bool :=
  let n := nat_of_ascii c in
  ((48 <=? n) && (n <=? 57) || (97 <=? n) && (n <=? 102))%nat.

(** The event of the probe of line 49. *)
Definition is_version_probe (ev : event) : Prop :=
  ev = EvSubprocess ["aria2c"; "--version"].

(** More scenarios: a state in which [temp] exists, and sixteen bytes. *)
Definition state_with_temp : state := State (Some false) (<["temp" := Dir]> ∅) [].
Definition random_a7 : bytes := repeat Byte.xa7 16.

(** A state in which the probe has answered that there is no accelerator. *)
Definition state_unavailable : state := State (Some false) ∅ [].

(** A state in which [temp] is a regular file. *)
Definition state_temp_is_file : state :=
  State (Some false) (<["temp" := File chunk1]> ∅) [].

(** ** Invariants of the file system *)

(** Every run of [m] from a file system in [F] ends in a file system in
    [F], and raises only exceptions in [Q]. *)
Definition keeps (F : gmap string node -> Prop) (Q : exn -> Prop) {A}
    (m : M A) : Prop :=
  forall s, F (fs s) ->
    F (fs (snd (m s))) /\ forall e, fst (m s) = Raise e -> Q e.

(** The paths a call for the destination [p] may touch: the destination,
    the control file of the accelerator beside it and the directories
    above it. *)
Definition footprint (p q : string) : Prop :=
  q = p \/ q = control_file p \/ q ∈ path_prefixes (dirname p).

(** The components of a path, between its slashes. *)
Fixpoint components (p : string) : list string :=
  match p with
  | EmptyString => [EmptyString]
  | String c r =>
      if is_sep c then EmptyString :: components r
      else match components r with
           | h :: t => String c h :: t
           | [] => [String c EmptyString]
           end
  end.

(** A name with one spelling: relative to the working directory, with no
    empty component (no doubled or trailing slash), no [.] and no [..].
    On a file system without links two such names of one entry are
    equal. *)
Definition plain_name (p : string) : bool :=
  forallb (fun c => negb (string_eqb c "" || string_eqb c "." || string_eqb c ".."))
    (components p).


(** ** States that differ in the log only *)

Definition agree (s1 s2 : state) : Prop :=
  _aria2c_installed s1 = _aria2c_installed s2 /\ fs s1 = fs s2.

(** From states that agree, [m1] and [m2] end the same way in states that
    agree. *)
Definition sim {A} (m1 m2 : M A) : Prop :=
  forall s1 s2, agree s1 s2 ->
    fst (m1 s1) = fst (m2 s2) /\ agree (snd (m1 s1)) (snd (m2 s2)).

(** A computation that returns and changes the log only. *)
Definition quiet (m : M unit) : Prop :=
  forall s, fst (m s) = Ret tt /\ agree (snd (m s)) s.

(** ** The temporary settings (lines 212-252)

    [read_temporary_setting] and [set_temporary_setting] work on the object
    that [pickle.load] returns and hand the same object to [pickle.dump];
    they are embedded as functions of that object.  The object is a tree
    of [None], booleans, integers, strings and dictionaries with string
    keys, in which no object sits at two places: the name [session] is then
    the subtree at its path, and an assignment through it is seen at that
    path when the object is dumped. *)

Module Settings.

Inductive pyval :=
| VNone
| VBool (b : bool)
| VInt (n : Z)
| VStr (s : string)
| VDict (d : gmap string pyval).

Inductive error :=
| KeyError (key : pyval)
| TypeError
| IndexError
| Exception (msg : string).

Inductive result (A : Type) :=
| Ok (a : A)
| Err (e : error).
Arguments Ok {A} a.
Arguments Err {A} e.

#[export] Instance result_ret : MRet result := fun A a => Ok a.
#[export] Instance result_bind : MBind result := fun A B k m =>
  match m with Ok a => k a | Err e => Err e end.

(** [bool(v)] *)
Definition truthy (v : pyval) : bool :=
  match v with
  | VNone => false
  | VBool b => b
  | VInt n => negb (n =? 0)
  | VStr s => negb (string_eqb s "")
  | VDict d => negb (Nat.eqb (base.size d) 0)
  end.

(** Truth of an optional string argument: [None] and [''] are false. *)
Definition given (o : option string) : bool :=
  match o with Some s => negb (string_eqb s "") | None => false end.

(** [s[i]] for an integer [i]: negative indices count from the end. *)
Definition str_index (s : string) (i : Z) : result pyval :=
  let n := Z.of_nat (String.length s) in
  if (- n <=? i) && (i <? n)
  then match String.get (Z.to_nat (i mod n)) s with
       | Some c => Ok (VStr (String c EmptyString))
       | None => Err IndexError
       end
  else Err IndexError.

(** [o[k]] *)
Definition getitem (o k : pyval) : result pyval :=
  match o with
  | VDict d =>
      match k with
      | VStr key => match d !! key with Some v => Ok v | None => Err (KeyError k) end
      | VDict _ => Err TypeError
      | _ => Err (KeyError k)
      end
  | VStr s =>
      match k with
      | VInt i => str_index s i
      | VBool b => str_index s (if b then 1 else 0)
      | _ => Err TypeError
      end
  | _ => Err TypeError
  end.

(** [key in o] for a string [key] *)
Definition contains (o : pyval) (key : string) : result bool :=
  match o with
  | VDict d => Ok (has (d !! key))
  | VStr s => Ok (str_contains key s)
  | _ => Err TypeError
  end.

(** [o[key] = v]: the object [o] after the assignment. *)
Definition setitem (o : pyval) (key : string) (v : pyval) : result pyval :=
  match o with
  | VDict d => Ok (VDict (<[key := v]> d))
  | _ => Err TypeError
  end.

(** Lines 214 and 236. *)
Definition module_settings_of (temporary_settings : pyval) (module : string)
  : result pyval :=
  modules ← getitem temporary_settings (VStr "modules");
  present ← contains modules module;
  if present : bool then
    modules ← getitem temporary_settings (VStr "modules");
    getitem modules (VStr module)
  else Ok VNone.

(** Lines 216-222 and 238-244. *)
Definition session_of (module_settings : pyval) (global_mode : bool)
  : result pyval :=
  if truthy module_settings then
    if global_mode then Ok module_settings
    else
      sessions ← getitem module_settings (VStr "sessions");
      selected ← getitem module_settings (VStr "selected");
      getitem sessions selected
  else Ok VNone.

(** Lines 212-232, after the load. *)
Definition read_temporary_setting (temporary_settings : pyval)
    (module : string) (root_setting setting : option string)
    (global_mode : bool) : result pyval :=
  module_settings ← module_settings_of temporary_settings module;
  session ← session_of module_settings global_mode;
  let root := default "" root_setting in
  if truthy session && given root_setting then
    if given setting then
      let key := default "" setting in
      has_root ← contains session root;
      found ← (if has_root : bool
               then sub ← getitem session (VStr root); contains sub key
               else Ok false);
      if found : bool
      then sub ← getitem session (VStr root); getitem sub (VStr key)
      else Ok VNone
    else
      has_root ← contains session root;
      if has_root : bool then getitem session (VStr root) else Ok VNone
  else if given root_setting && negb (truthy session) then
    Err (Exception "Module does not use temporary settings")
  else Ok session.

(** The tree with the subtree at [path] replaced by [new]. *)
Fixpoint store (path : list string) (new : pyval) (v : pyval) : pyval :=
  match path with
  | [] => new
  | key :: rest =>
      match v with
      | VDict d =>
          match d !! key with
          | Some child => VDict (<[key := store rest new child]> d)
          | None => v
          end
      | _ => v
      end
  end.

(** [temporary_settings] once the object [session] has become [session']:
    the subtree at the path of lines 236-242 is replaced.  A [selected]
    that is not a string selects no dictionary, and nothing is assigned
    through it. *)
Definition with_session (temporary_settings module_settings : pyval)
    (module : string) (global_mode : bool) (session' : pyval) : pyval :=
  if global_mode then store ["modules"; module] session' temporary_settings
  else match getitem module_settings (VStr "selected") with
       | Ok (VStr selected) =>
           store ["modules"; module; "sessions"; selected] session'
             temporary_settings
       | _ => temporary_settings
       end.

(** Lines 234-252, between the load and the dump: the object that is
    dumped.  An exception leaves line 252 unreached. *)
Definition set_temporary_setting (temporary_settings : pyval)
    (module root_setting : string) (setting : option string) (value : pyval)
    (global_mode : bool) : result pyval :=
  module_settings ← module_settings_of temporary_settings module;
  session ← session_of module_settings global_mode;
  if negb (truthy session) then
    Err (Exception "Module does not use temporary settings")
  else
    session' ← (if given setting then
                  (* the assignment changes [session[root_setting]], which
                     stays where it is in [session] *)
                  sub ← getitem session (VStr root_setting);
                  sub' ← setitem sub (default "" setting) value;
                  setitem session root_setting sub'
                else setitem session root_setting value);
    Ok (with_session temporary_settings module_settings module global_mode
          session').

End Settings.

(** A settings object with one module, one session selected. *)
Definition settings_example : Settings.pyval :=
  Settings.VDict {[ "modules" := Settings.VDict {[ "tidal" :=
    Settings.VDict (<[ "selected" := Settings.VStr "default" ]>
      {[ "sessions" := Settings.VDict {[ "default" :=
           Settings.VDict {[ "bearer" := Settings.VStr "abc" ]} ]} ]}) ]} ]}.

(** The same object with another bearer. *)
Definition settings_example_renewed : Settings.pyval :=
  Settings.VDict {[ "modules" := Settings.VDict {[ "tidal" :=
    Settings.VDict (<[ "selected" := Settings.VStr "default" ]>
      {[ "sessions" := Settings.VDict {[ "default" :=
           Settings.VDict {[ "bearer" := Settings.VStr "xyz" ]} ]} ]}) ]} ]}.

(** ** [fix_byte_limit] (lines 25-38)

    A text is held as the bytes of its UTF-8 encoding, so that
    [encode('utf-8')] gives the characters of the string as they are, and
    the length of a string is a number of bytes. *)

(** [l[:stop]]: a negative [stop] counts from the end. *)
Definition slice_to {A} (l : list A) (stop : Z) : list A :=
  if 0 <=? stop then take (Z.to_nat stop) l
  else take (List.length l - Z.to_nat (- stop)) l.

(** The length that a first byte announces for its sequence; [0] for a
    byte that starts none. *)
Definition utf8_len (b : ascii) : nat :=
  let n := nat_of_ascii b in
  if (n <? 128)%nat then 1%nat
  else if (n <? 192)%nat then 0%nat
  else if (n <? 224)%nat then 2%nat
  else if (n <? 240)%nat then 3%nat
  else if (n <? 248)%nat then 4%nat
  else 0%nat.

Definition is_continuation (b : ascii) : bool :=
  let n := nat_of_ascii b in ((128 <=? n) && (n <? 192))%nat.

(** [bs.decode('utf-8', 'ignore')] on the first bytes of an encoded text,
    which is what line 35 decodes: whole sequences are kept; a sequence
    that is cut short, by the end or by another byte, is ignored.
    [pending] is the sequence being read and [need] the number of bytes it
    still lacks. *)
Fixpoint decode_ignore_from (pending : list ascii) (need : nat)
    (bs : list ascii) : list ascii :=
  match bs with
  | [] => []
  | b :: rest =>
      if (0 <? need)%nat && is_continuation b then
        if (need =? 1)%nat
        then pending ++ b :: decode_ignore_from [] 0 rest
        else decode_ignore_from (pending ++ [b]) (need - 1) rest
      else
        match utf8_len b with
        | O => decode_ignore_from [] 0 rest
        | S O => b :: decode_ignore_from [] 0 rest
        | S (S k) => decode_ignore_from [b] (S k) rest
        end
  end.

Definition decode_ignore (bs : list ascii) : list ascii :=
  decode_ignore_from [] 0 bs.

(** Lines 30-35: the file name cut to [byte_limit] bytes. *)
Definition fixed_filename (filename : string) (byte_limit : Z) : string :=
  let filename_bytes := list_ascii_of_string filename in
  let fixed_bytes := slice_to filename_bytes byte_limit in
  string_of_list_ascii (decode_ignore fixed_bytes).

(** Lines 25-38; [rel_path] is the answer of
    [os.path.relpath(path).replace('\\', '/')]. *)
Definition fix_byte_limit (rel_path : string) (byte_limit : Z) : string :=
  let directory := dirname rel_path in
  let filename := basename rel_path in
  directory +:+ "/" +:+ fixed_filename filename byte_limit.

(** A byte below 128: a character of ASCII. *)
Definition is_ascii (b : ascii) : bool := (nat_of_ascii b <? 128)%nat.

(** * Theorems *)

Lemma bind_run {A B} (m : M A) (k : A -> M B) s :
  bind m k s
  = match m s with
    | (Ret a, s') => k a s'
    | (Raise e, s') => (Raise e, s')
    end.
Proof. reflexivity. Qed.

(** ** Sanity checks of the string and path helpers *)

Example dirname_nested : dirname "music/album/cover.jpg" = "music/album".
Proof. reflexivity. Qed.

Example dirname_bare : dirname "cover.jpg" = "".
Proof. reflexivity. Qed.

Example dirname_root : dirname "/cover.jpg" = "/".
Proof. reflexivity. Qed.

Example basename_nested : basename "music/album/cover.jpg" = "cover.jpg".
Proof. reflexivity. Qed.

Example lower_version : lower "aria2 Version 1.36" = "aria2 version 1.36".
Proof. reflexivity. Qed.

Example strip_stderr : strip "  no route  " = "no route".
Proof. vm_compute. reflexivity. Qed.

Example path_prefixes_nested : path_prefixes "a/b" = ["a"; "a/b"].
Proof. vm_compute. reflexivity. Qed.

(** ** What a computation appends to the log *)

Section Emits.

Variable P : event -> Prop.

Lemma emits_ret {A} (a : A) : emits P (ret a).
Proof. intros s. exists []. rewrite app_nil_r. auto. Qed.

Lemma emits_raise {A} e : emits P (@raise A e).
Proof. intros s. exists []. rewrite app_nil_r. auto. Qed.

Lemma emits_bind {A B} (m : M A) (k : A -> M B) :
  emits P m -> (forall a, emits P (k a)) -> emits P (bind m k).
Proof.
  intros Hm Hk s. unfold bind. destruct (Hm s) as [l [El Fl]].
  destruct (m s) as [[a|e] s1]; simpl in *.
  - destruct (Hk a s1) as [l2 [El2 Fl2]]. exists (l ++ l2).
    rewrite El2, El, app_assoc. split; [reflexivity | apply Forall_app; auto].
  - exists l. auto.
Qed.

Lemma emits_try_except {A} (m : M A) h :
  emits P m -> (forall e k, h e = Some k -> emits P k) -> emits P (try_except m h).
Proof.
  intros Hm Hh s. unfold try_except. destruct (Hm s) as [l [El Fl]].
  destruct (m s) as [[a|e] s1]; simpl in *.
  - exists l; auto.
  - destruct (h e) as [k|] eqn:E; simpl.
    + destruct (Hh e k E s1) as [l2 [El2 Fl2]]. exists (l ++ l2).
      rewrite El2, El, app_assoc. split; [reflexivity | apply Forall_app; auto].
    + exists l; auto.
Qed.

Lemma emits_get_state : emits P get_state.
Proof. intros s. exists []. rewrite app_nil_r. auto. Qed.

Lemma emits_set_fs f : emits P (set_fs f).
Proof. intros s. exists []. simpl. rewrite app_nil_r. auto. Qed.

Lemma emits_set_aria2c_installed v : emits P (set_aria2c_installed v).
Proof. intros s. exists []. simpl. rewrite app_nil_r. auto. Qed.

Lemma emits_emit ev : P ev -> emits P (emit ev).
Proof. intros H s. exists [ev]. simpl. auto. Qed.

Lemma emits_lift {A} (o : outcome A) : emits P (lift o).
Proof. destruct o; [apply emits_ret | apply emits_raise]. Qed.

Lemma emits_fail_with o : emits P (fail_with o).
Proof. destruct o; [apply emits_raise | apply emits_ret]. Qed.

Lemma emits_when b m : emits P m -> emits P (when b m).
Proof. destruct b; [auto | intros; apply emits_ret]. Qed.

End Emits.

Ltac handler_cases H :=
  repeat match type of H with
         | (if ?c then _ else _) = Some _ => destruct c
         end;
  first [discriminate H | injection H as <-].

Ltac emits_step :=
  match goal with
  | |- emits _ (ret _) => apply emits_ret
  | |- emits _ (raise _) => apply emits_raise
  | |- emits _ get_state => apply emits_get_state
  | |- emits _ (set_fs _) => apply emits_set_fs
  | |- emits _ (set_aria2c_installed _) => apply emits_set_aria2c_installed
  | |- emits _ (lift _) => apply emits_lift
  | |- emits _ (fail_with _) => apply emits_fail_with
  | |- emits _ (when _ _) => apply emits_when
  | |- emits _ (print _) => apply emits_emit
  | |- emits _ (emit _) => apply emits_emit
  | |- emits _ (bind _ _) => apply emits_bind; [| intros ?]
  | |- emits _ (try_except _ _) =>
      let H := fresh "Hh" in
      apply emits_try_except; [| intros ? ? H; handler_cases H]
  | |- emits _ (match ?x with _ => _ end) => destruct x
  end.

Lemma emits_silentremove P p : (forall q, P (EvRemove q)) -> emits P (silentremove p).
Proof.
  intros HP. unfold silentremove, os_remove. repeat emits_step; auto.
Qed.

Lemma emits_write_chunks P p b chunks :
  (forall n, P (EvBarUpdate n)) -> emits P (write_chunks p b chunks).
Proof.
  intros HP. induction chunks as [|c rest IH]; simpl.
  - apply emits_ret.
  - apply emits_bind; [| intros; exact IH].
    unfold file_write. repeat emits_step; auto.
Qed.

Lemma emits_mkdir_each P ps : emits P (mkdir_each ps).
Proof.
  induction ps as [|p rest IH]; simpl.
  - apply emits_ret.
  - apply emits_bind; [apply emits_get_state|]. intros s.
    destruct (fs_entry (fs s) p) as [[]|]; auto.
    + destruct rest; apply emits_raise.
    + apply emits_bind; [apply emits_set_fs | auto].
Qed.

Lemma emits_emit_each P evs : Forall P evs -> emits P (emit_each evs).
Proof.
  induction evs as [|ev rest IH]; intros H; cbn [emit_each].
  - apply emits_ret.
  - apply Forall_cons in H as [Hev Hrest].
    apply emits_bind; [apply emits_emit, Hev | intros _; apply IH, Hrest].
Qed.

Lemma request_events_Forall (P : event -> Prop) url headers sleeps :
  P (EvGet url headers true false) -> (forall q, P (EvSleep q)) ->
  Forall P (request_events url headers sleeps).
Proof.
  intros Hg Hs. unfold request_events. constructor; [exact Hg|].
  induction sleeps as [|q rest IH]; [constructor|].
  cbn [map List.concat]. repeat (apply Forall_app; split); try exact IH.
  - destruct (Qle_bool q 0); constructor; [apply Hs | constructor].
  - constructor; [exact Hg | constructor].
Qed.

Lemma emits_session_get P w url headers :
  P (EvGet url headers true false) -> (forall q, P (EvSleep q)) ->
  emits P (session_get w url headers).
Proof.
  intros Hg Hs. unfold session_get.
  destruct (urlopen _ _ _ _ _) as [sleeps result].
  apply emits_bind; [|intros _; apply emits_lift].
  apply emits_emit_each, request_events_Forall; assumption.
Qed.

Lemma emit_each_run evs s :
  emit_each evs s
  = (Ret tt, State (_aria2c_installed s) (fs s) (log s ++ evs)).
Proof.
  revert s. induction evs as [|ev rest IH]; intros s; cbn [emit_each].
  - unfold ret. rewrite app_nil_r. destruct s; reflexivity.
  - unfold bind, emit. rewrite IH. cbn [fs log _aria2c_installed].
    rewrite <- app_assoc. reflexivity.
Qed.

(** Whatever the URL, the adapter that sends the request carries the
    policy of line 17. *)
Lemma session_policy url :
  max_retries
    (default (default default_adapter (adapters r_session !! "http://"))
       (get_adapter r_session url))
  = retries_of_session.
Proof.
  unfold get_adapter.
  let l := eval vm_compute in (map_to_list (adapters r_session)) in
  assert (E : map_to_list (adapters r_session) = l) by (vm_compute; reflexivity).
  rewrite E. cbn [foldr fst snd].
  destruct (serves url "http://"), (serves url "https://"); reflexivity.
Qed.

(** A call of [r_session.get] makes its requests and ends as [w_get]
    says. *)
Lemma session_get_eq w url headers s :
  session_get w url headers s
  = (w_get w,
     State (_aria2c_installed s) (fs s)
       (log s ++ request_events url headers (w_sleeps w))).
Proof.
  unfold session_get, w_get, w_sleeps. rewrite session_policy.
  destruct (urlopen _ _ _ _ _) as [sleeps result].
  unfold bind. rewrite emit_each_run. cbn [fst snd].
  destruct result; reflexivity.
Qed.

Lemma session_get_run w url headers s :
  exists sleeps,
    session_get w url headers s
    = (w_get w,
       State (_aria2c_installed s) (fs s)
         (log s ++ request_events url headers sleeps)).
Proof. exists (w_sleeps w). apply session_get_eq. Qed.

Lemma logs_session_get w url headers :
  logs (EvGet url headers true false) (session_get w url headers).
Proof.
  intros s. destruct (session_get_run w url headers s) as [sleeps ->].
  cbn [snd log]. apply elem_of_app. right. unfold request_events.
  apply list_elem_of_here.
Qed.

Ltac unfold_calls :=
  unfold download_file, transfer, postprocess, process_artwork, fallback,
    stream_to_file, write_response, try_aria2c, is_aria2c_installed, os_path_isfile,
    os_path_exists, os_path_getsize, os_makedirs, open_wb, iter_content,
    open_bar, run_aria2c, subprocess_run, raise_for_status,
    image_open, image_convert, image_resize, image_save.

Ltac emits_all :=
  repeat first
    [ apply emits_silentremove; intros; exact I
    | apply emits_write_chunks; intros; exact I
    | apply emits_mkdir_each
    | apply emits_session_get
    | emits_step ].

Lemma download_file_carries_headers w url p headers bar indent artwork :
  emits (carries_headers url p headers)
    (download_file w url p headers bar indent artwork).
Proof. unfold_calls. emits_all; simpl; auto. Qed.

Lemma grows_keeps {A} (m : M A) s ev :
  grows m -> ev ∈ log s -> ev ∈ log (snd (m s)).
Proof.
  intros G H. destruct (G s) as [l [E _]]. rewrite E.
  apply elem_of_app. auto.
Qed.

Lemma logs_emit ev : logs ev (emit ev).
Proof. intros s. simpl. apply elem_of_app. right. apply list_elem_of_singleton. reflexivity. Qed.

Lemma logs_bind_l ev {A B} (m : M A) (k : A -> M B) :
  logs ev m -> (forall a, grows (k a)) -> logs ev (bind m k).
Proof.
  intros L G s. unfold bind. specialize (L s).
  destruct (m s) as [[a|e] s1]; simpl in *; auto.
  apply grows_keeps; auto.
Qed.

Lemma logs_try_except ev {A} (m : M A) h :
  logs ev m -> (forall e k, h e = Some k -> grows k) -> logs ev (try_except m h).
Proof.
  intros L G s. unfold try_except. specialize (L s).
  destruct (m s) as [[a|e] s1]; simpl in *; auto.
  destruct (h e) as [k|] eqn:E; simpl; auto.
  apply grows_keeps; eauto.
Qed.

Lemma logs_process_artwork w p st : logs (EvImageOpen p) (process_artwork w p st).
Proof.
  unfold process_artwork. apply logs_bind_l.
  - unfold image_open. apply logs_bind_l; [apply logs_emit|].
    intros _. unfold grows. emits_all.
  - intros im. unfold grows. unfold_calls. emits_all; exact I.
Qed.

(** ** The skip of lines 56-57 *)

Lemma is_file_entry f p :
  is_file f p = true <-> exists d, fs_entry f p = Some (File d).
Proof.
  unfold is_file. destruct (fs_entry f p) as [[d|]|]; split; intros H;
    try discriminate; eauto; destruct H as [? H]; discriminate.
Qed.

Lemma download_file_skip w url p headers bar indent artwork s :
  is_file (fs s) p = true ->
  download_file w url p headers bar indent artwork s = (Ret tt, s).
Proof.
  intros H. unfold download_file, os_path_isfile, bind, get_state, ret.
  rewrite H. reflexivity.
Qed.

(** C3.  When the destination is a regular file, [download_file] returns
    at once: the result is [None], and the state after the call is the
    state before it, so the log has no new event (no probe, no accelerator
    process, no request), the file system is the same and the bytes of the
    destination are the same. *)
Theorem download_file_existing_destination_noop
    w url p headers bar indent artwork s d :
  fs_entry (fs s) p = Some (File d) ->
  download_file w url p headers bar indent artwork s = (Ret tt, s) /\
  log (snd (download_file w url p headers bar indent artwork s)) = log s /\
  fs_entry (fs (snd (download_file w url p headers bar indent artwork s))) p
    = Some (File d).
Proof.
  intros H.
  assert (E : download_file w url p headers bar indent artwork s = (Ret tt, s)).
  { apply download_file_skip, is_file_entry. eauto. }
  rewrite E. auto.
Qed.

Lemma download_file_existing_destination_noop_witness :
  download_file world_accelerator_fails "http://h/cover.jpg" "cover.jpg"
    [("Authorization", "Bearer X")] true 0 None state_with_cover
  = (Ret tt, state_with_cover) /\
  log (snd (download_file world_accelerator_fails "http://h/cover.jpg"
              "cover.jpg" [("Authorization", "Bearer X")] true 0 None
              state_with_cover)) = log state_with_cover /\
  fs_entry (fs (snd (download_file world_accelerator_fails "http://h/cover.jpg"
                       "cover.jpg" [("Authorization", "Bearer X")] true 0 None
                       state_with_cover))) "cover.jpg"
    = Some (File (chunk1 ++ chunk2)).
Proof.
  apply (download_file_existing_destination_noop world_accelerator_fails
           "http://h/cover.jpg" "cover.jpg" [("Authorization", "Bearer X")]
           true 0 None state_with_cover (chunk1 ++ chunk2)).
  vm_compute. reflexivity.
Defined.

(** C10.  When the destination is a regular file and the settings ask for
    a resize, no PIL call is made and the file keeps its bytes: the call
    returns before the artwork step, although that step, run on the same
    state, would open the image. *)
Theorem download_file_existing_destination_no_artwork
    w url p headers bar indent st s d :
  should_resize st = Some true ->
  fs_entry (fs s) p = Some (File d) ->
  let s' := snd (download_file w url p headers bar indent (Some st) s) in
  log s' = log s /\
  fs_entry (fs s') p = Some (File d) /\
  EvImageOpen p ∈ log (snd (postprocess w p indent (Some st) s)).
Proof.
  intros Hr Hf s'. subst s'.
  rewrite download_file_skip by (apply is_file_entry; eauto).
  repeat split; auto.
  unfold postprocess, os_path_isfile, bind, get_state, ret, is_file.
  rewrite Hf. unfold settings_nonempty. rewrite Hr. cbn [default andb orb has id].
  apply logs_try_except; [apply logs_process_artwork|].
  intros e k Hh. handler_cases Hh. unfold grows. emits_all. exact I.
Qed.

Lemma download_file_existing_destination_no_artwork_witness :
  let s' := snd (download_file world_no_accelerator "http://h/cover.jpg"
                   "cover.jpg" [] false 0 (Some resize_500_jpeg_high)
                   state_with_cover) in
  log s' = log state_with_cover /\
  fs_entry (fs s') "cover.jpg" = Some (File (chunk1 ++ chunk2)) /\
  EvImageOpen "cover.jpg"
    ∈ log (snd (postprocess world_no_accelerator "cover.jpg" 0
                  (Some resize_500_jpeg_high) state_with_cover)).
Proof.
  apply (download_file_existing_destination_no_artwork world_no_accelerator
           "http://h/cover.jpg" "cover.jpg" [] false 0 resize_500_jpeg_high
           state_with_cover (chunk1 ++ chunk2)).
  - reflexivity.
  - vm_compute. reflexivity.
Defined.

(** ** The session of lines 15-20 *)

Lemma urlopen_sleeps_le retries left failures before answer :
  (List.length (fst (urlopen retries left failures before answer)) <= left)%nat.
Proof.
  revert failures before.
  induction left as [|left IH]; intros failures before; cbn [urlopen].
  - destruct (meets before answer) as [[reason|r ra]|e]; cbn; try lia.
    destruct (is_retry _ _ _ _); cbn; lia.
  - destruct (meets before answer) as [[reason|r ra]|e]; cbn; try lia.
    + specialize (IH (S failures) (tl before)).
      destruct (urlopen retries left (S failures) (tl before) answer).
      cbn in *. lia.
    + destruct (is_retry _ _ _ _); cbn; [|lia].
      specialize (IH (S failures) (tl before)).
      destruct (urlopen retries left (S failures) (tl before) answer).
      cbn in *. lia.
Qed.

Lemma requests_sent_request_events url headers sleeps :
  requests_sent (request_events url headers sleeps) = S (List.length sleeps).
Proof.
  unfold requests_sent, request_events. cbn [List.filter List.length]. f_equal.
  induction sleeps as [|x rest IH]; [reflexivity|].
  cbn [map List.concat]. rewrite List.filter_app, List.length_app, IH.
  destruct (Qle_bool x 0); reflexivity.
Qed.

Lemma is_retry_of_session left status (retry_after : option Z) :
  is_retry retries_of_session left status (has retry_after) = true <->
  status ∈ [429; 500; 502; 503; 504] \/
  (left <> 0%nat /\ retry_after <> None /\ status = 413).
Proof.
  unfold is_retry, retries_of_session, RETRY_AFTER_STATUS_CODES.
  cbn [status_forcelist existsb].
  rewrite !elem_of_cons, elem_of_nil.
  rewrite !orb_true_iff, !andb_true_iff, negb_true_iff, Nat.eqb_neq.
  rewrite !orb_true_iff, !Z.eqb_eq.
  assert (N : retry_after <> None <-> has retry_after = true).
  { destruct retry_after; cbn; split; congruence. }
  rewrite N. split.
  - intros [H | [[Hl Hr] [H | [H | [H | H]]]]]; try tauto; try lia.
  - intros [H | (Hl & Hr & H)]; tauto.
Qed.

(** C5.  The session that [create_requests_session] returns, which is
    [r_session], has exactly the two adapters mounted at [http://] and
    [https://]; both carry the same retry policy, whose total is 10, whose
    backoff factor is 0.4 and whose forced statuses are exactly 429, 500,
    502, 503 and 504.  Every request of the session, whatever its URL, is
    sent under that policy.  A request is tried again at most ten times,
    which makes at most eleven requests, and a server that keeps answering
    503 gets all eleven.  An answer is tried again exactly when its status
    is one of the five, or when it is 413 with a [Retry-After] header
    while retries are left; any other answer is returned at once.  A failed
    connection is tried again while retries are left.  When none is left a
    forced status ends in [RetryError] and a failed connection in
    [ConnectionError].  Nothing is slept after the first failure; after
    the k-th failure in a row the sleep is 0.4 * 2^(k-1) seconds, at most
    120. *)
Theorem create_requests_session_retry_policy :
  r_session = create_requests_session /\
  dom (adapters create_requests_session) = {["http://"; "https://"]} /\
  (forall prefix, prefix ∈ dom (adapters create_requests_session) ->
    exists a, get_adapter create_requests_session prefix = Some a /\
      max_retries a = retries_of_session /\
      total (max_retries a) = 10 /\
      backoff_factor (max_retries a) = 0.4%Q /\
      forall status : Z,
        status ∈ status_forcelist (max_retries a) <->
        status = 429 \/ status = 500 \/ status = 502 \/ status = 503 \/ status = 504) /\
  (forall w url headers s,
     session_get w url headers s
     = (snd (urlopen retries_of_session 10 0 (w_attempts w) (w_answer w)),
        State (_aria2c_installed s) (fs s)
          (log s
           ++ request_events url headers
                (fst (urlopen retries_of_session 10 0 (w_attempts w)
                        (w_answer w)))))) /\
  (forall w url headers,
     (List.length (w_sleeps w) <= 10)%nat /\
     (requests_sent (request_events url headers (w_sleeps w)) <= 11)%nat) /\
  (forall url headers,
     requests_sent (request_events url headers (w_sleeps world_steady_503))
     = 11%nat /\
     w_get world_steady_503 = Raise (Exn RetryError "too many error responses")) /\
  (forall left status (retry_after : option Z),
     is_retry retries_of_session left status (has retry_after) = true <->
     status ∈ [429; 500; 502; 503; 504] \/
     (left <> 0%nat /\ retry_after <> None /\ status = 413)) /\
  (forall left failures r retry_after before answer,
     is_retry retries_of_session left (status_code r) (has retry_after) = false ->
     urlopen retries_of_session left failures
       (Answered r retry_after :: before) answer
     = ([], Ret r)) /\
  (forall left failures r retry_after before answer,
     is_retry retries_of_session (S left) (status_code r) (has retry_after) = true ->
     urlopen retries_of_session (S left) failures
       (Answered r retry_after :: before) answer
     = (sleep_time retries_of_session (S failures) retry_after
        :: fst (urlopen retries_of_session left (S failures) before answer),
        snd (urlopen retries_of_session left (S failures) before answer))) /\
  (forall left failures reason before answer,
     urlopen retries_of_session (S left) failures
       (Unreachable reason :: before) answer
     = (get_backoff_time retries_of_session (S failures)
        :: fst (urlopen retries_of_session left (S failures) before answer),
        snd (urlopen retries_of_session left (S failures) before answer))) /\
  (forall failures r retry_after before answer,
     status_code r ∈ [429; 500; 502; 503; 504] ->
     urlopen retries_of_session 0 failures
       (Answered r retry_after :: before) answer
     = ([], Raise (Exn RetryError "too many error responses"))) /\
  (forall failures reason before answer,
     urlopen retries_of_session 0 failures (Unreachable reason :: before) answer
     = ([], Raise (Exn ConnectionError
                     ("Max retries exceeded (" +:+ reason +:+ ")")))) /\
  map (get_backoff_time retries_of_session) (seq 1 11)
  = [0; 4 # 5; 8 # 5; 16 # 5; 32 # 5; 64 # 5; 128 # 5; 256 # 5; 512 # 5;
     120; 120]%Q /\
  (forall k, (2 <= k)%nat ->
     (get_backoff_time retries_of_session k
      == Qmin 120 (0.4 * inject_Z (2 ^ Z.of_nat (k - 1))))%Q).
Proof.
  split; [reflexivity|].
  assert (D : dom (adapters create_requests_session)
              = ({["http://"; "https://"]} : gset string)).
  { unfold create_requests_session, mount, new_session. simpl.
    rewrite !dom_insert_L, dom_empty_L. set_solver. }
  split; [exact D|]. repeat apply conj.
  - intros prefix Hin. rewrite D in Hin.
    assert (Hp : prefix = "http://" \/ prefix = "https://") by set_solver.
    destruct Hp as [-> | ->];
      (eexists; split; [vm_compute; reflexivity|]);
      (split; [reflexivity|]); (split; [reflexivity|]); (split; [reflexivity|]);
      intros status; simpl; rewrite !elem_of_cons, elem_of_nil; tauto.
  - intros w url headers s. apply session_get_eq.
  - intros w url headers.
    pose proof (urlopen_sleeps_le retries_of_session 10 0 (w_attempts w)
                  (w_answer w)) as H.
    split; [exact H|]. rewrite requests_sent_request_events.
    unfold w_sleeps. change (Z.to_nat (total retries_of_session)) with 10%nat.
    lia.
  - intros url headers. split; [|vm_compute; reflexivity].
    rewrite requests_sent_request_events. vm_compute. reflexivity.
  - apply is_retry_of_session.
  - intros left failures r ra before answer H.
    destruct left; cbn [urlopen meets]; rewrite H; reflexivity.
  - intros left failures r ra before answer H.
    cbn [urlopen meets tl]. rewrite H.
    destruct (urlopen retries_of_session left (S failures) before answer).
    reflexivity.
  - intros left failures reason before answer.
    cbn [urlopen meets tl sleep_time].
    destruct (urlopen retries_of_session left (S failures) before answer).
    reflexivity.
  - intros failures r ra before answer H.
    cbn [urlopen meets].
    rewrite (proj2 (is_retry_of_session 0 (status_code r) ra) (or_introl H)).
    reflexivity.
  - reflexivity.
  - vm_compute. reflexivity.
  - intros k Hk. unfold get_backoff_time.
    destruct (Nat.leb_spec k 1) as [H|_]; [lia|].
    cbn [backoff_factor retries_of_session]. unfold BACKOFF_MAX.
    set (x := (0.4 * inject_Z (2 ^ Z.of_nat (k - 1)))%Q).
    destruct (Qle_bool (Qred x) 120) eqn:E.
    + apply Qle_bool_iff in E. rewrite Qred_correct in E |- *.
      symmetry. apply Q.min_r. exact E.
    + assert (L : (120 < x)%Q).
      { apply Qnot_le_lt. intros H. apply Qle_bool_iff in H.
        rewrite <- (Qred_correct x) in H.
        assert (H' : Qle_bool (Qred x) 120 = true).
        { apply Qle_bool_iff. apply Qle_bool_iff in H. exact H. }
        congruence. }
      symmetry. apply Q.min_l. apply Qlt_le_weak. exact L.
Qed.

(** C5, where the claim fails.  A status outside the five, 413, is tried
    again when it comes with a [Retry-After] header: the session sends
    the request, sleeps the second the header asks for, sends the request
    again and returns the answer of the second attempt. *)
Lemma status_413_with_retry_after_is_retried :
  (413 ∉ status_forcelist retries_of_session) /\
  session_get world_413_then_200 "http://h/cover.jpg" [] init_state
  = (Ret (Response 200 (Length 5) [chunk1; chunk2] None),
     State None ∅
       [EvGet "http://h/cover.jpg" [] true false; EvSleep 1;
        EvGet "http://h/cover.jpg" [] true false]).
Proof.
  split.
  - cbn [status_forcelist retries_of_session].
    rewrite !elem_of_cons, elem_of_nil. intros H.
    repeat (destruct H as [H | H]; [discriminate H|]). exact H.
  - vm_compute. reflexivity.
Qed.

(** A reset connection and a 502 are both tried again, without a sleep
    after the first failure and with 4/5 of a second after the second. *)
Lemma session_get_recovers :
  session_get world_flaky "http://h/cover.jpg" [] init_state
  = (Ret (Response 200 (Length 5) [chunk1; chunk2] None),
     State None ∅
       [EvGet "http://h/cover.jpg" [] true false;
        EvGet "http://h/cover.jpg" [] true false; EvSleep (4 # 5);
        EvGet "http://h/cover.jpg" [] true false]).
Proof. vm_compute. reflexivity. Qed.

(** A server that is never reached gets eleven attempts, and the call
    ends in [ConnectionError]. *)
Lemma session_get_gives_up :
  fst (session_get world_unreachable "http://h/cover.jpg" [] init_state)
  = Raise (Exn ConnectionError "Max retries exceeded (refused)") /\
  requests_sent
    (log (snd (session_get world_unreachable "http://h/cover.jpg" [] init_state)))
  = 11%nat.
Proof. split; vm_compute; reflexivity. Qed.

(** ** Headers, lines 80-83 and 116 *)

Lemma try_aria2c_logs_command w url p headers bar indent s0 s1 :
  os_makedirs w (dirname p) s0 = (Ret tt, s1) ->
  EvSubprocess (aria2c_command url (dirname p) (basename p) headers)
    ∈ log (snd (try_aria2c w url p headers bar indent s0)).
Proof.
  intros Hm. unfold try_aria2c, bind at 1. rewrite Hm.
  apply logs_try_except.
  - intros s. unfold bind at 1.
    destruct (when bar _ s) as [[[]|e] s2] eqn:Ew.
    + apply logs_bind_l.
      * unfold run_aria2c. apply logs_bind_l; [apply logs_emit|].
        intros _. unfold grows. emits_all.
      * intros pr. unfold grows. unfold_calls. emits_all; exact I.
    + destruct bar; discriminate Ew.
  - intros e k Hh. handler_cases Hh; unfold grows; unfold_calls; emits_all; exact I.
Qed.

Lemma fallback_logs_get w url p headers bar indent :
  logs (EvGet url headers true false) (fallback w url p headers bar indent).
Proof.
  unfold fallback. apply logs_bind_l.
  - apply logs_session_get.
  - intros r. unfold grows. unfold_calls. emits_all; exact I.
Qed.

Lemma adds_at_emit ev s : adds_at ev (emit ev) s.
Proof. exists [ev]. split; [reflexivity | apply list_elem_of_here]. Qed.

Lemma adds_at_bind_l ev {A B} (m : M A) (k : A -> M B) s :
  adds_at ev m s -> (forall a, grows (k a)) -> adds_at ev (bind m k) s.
Proof.
  intros (l & E & Hin) G. unfold adds_at, bind.
  destruct (m s) as [[a|e] s1]; cbn [fst snd] in *.
  - destruct (G a s1) as (l' & E' & _). exists (l ++ l').
    rewrite E', E, app_assoc. split; [reflexivity|].
    apply elem_of_app. left. exact Hin.
  - exists l. split; assumption.
Qed.

Lemma adds_at_bind_r ev {A B} (m : M A) (k : A -> M B) s a s1 :
  grows m -> m s = (Ret a, s1) -> adds_at ev (k a) s1 -> adds_at ev (bind m k) s.
Proof.
  intros G Hm (l & E & Hin). unfold adds_at, bind. rewrite Hm.
  destruct (G s) as (l0 & E0 & _). rewrite Hm in E0. cbn [snd] in E0.
  exists (l0 ++ l). rewrite E, E0, app_assoc. split; [reflexivity|].
  apply elem_of_app. right. exact Hin.
Qed.

Lemma adds_at_try_except ev {A} (m : M A) h s :
  adds_at ev m s -> (forall e k, h e = Some k -> grows k) ->
  adds_at ev (try_except m h) s.
Proof.
  intros (l & E & Hin) G. unfold adds_at, try_except.
  destruct (m s) as [[a|e] s1]; cbn [fst snd] in *.
  - exists l. split; assumption.
  - destruct (h e) as [k|] eqn:Eh; cbn [snd].
    + destruct (G e k Eh s1) as (l' & E' & _). exists (l ++ l').
      rewrite E', E, app_assoc. split; [reflexivity|].
      apply elem_of_app. left. exact Hin.
    + exists l. split; assumption.
Qed.

Lemma grows_os_makedirs w d : grows (os_makedirs w d).
Proof. unfold grows. unfold_calls. emits_all; intros; exact I. Qed.

Lemma grows_fallback w url p headers bar indent :
  grows (fallback w url p headers bar indent).
Proof. unfold grows. unfold_calls. emits_all; intros; exact I. Qed.

Lemma grows_try_aria2c w url p headers bar indent :
  grows (try_aria2c w url p headers bar indent).
Proof. unfold grows. unfold_calls. emits_all; intros; exact I. Qed.

Lemma grows_postprocess w p indent artwork :
  grows (postprocess w p indent artwork).
Proof. unfold grows. unfold_calls. emits_all; intros; exact I. Qed.

Lemma grows_is_aria2c_installed w : grows (is_aria2c_installed w).
Proof. unfold grows. unfold_calls. emits_all; intros; exact I. Qed.

Lemma when_print_run b line s :
  when b (print line) s
  = (Ret tt, State (_aria2c_installed s) (fs s)
               (log s ++ (if b then [EvPrint line] else []))).
Proof. destruct b; cbn; [reflexivity|]. rewrite app_nil_r. destruct s; reflexivity. Qed.

(** Once its directory is made, the accelerator attempt starts the
    command. *)
Lemma try_aria2c_adds_command w url p headers bar indent s0 s1 :
  os_makedirs w (dirname p) s0 = (Ret tt, s1) ->
  adds_at (EvSubprocess (aria2c_command url (dirname p) (basename p) headers))
    (try_aria2c w url p headers bar indent) s0.
Proof.
  intros Hm. unfold try_aria2c.
  apply (adds_at_bind_r _ _ _ s0 tt s1); [apply grows_os_makedirs | exact Hm|].
  apply adds_at_try_except.
  - apply adds_at_bind_r with (a := tt)
      (s1 := State (_aria2c_installed s1) (fs s1)
               (log s1 ++ (if bar
                           then [EvPrint (spaces indent
                                          +:+ "Downloading with aria2c: "
                                          +:+ basename p)]
                           else []))).
    + unfold grows. emits_all; exact I.
    + apply when_print_run.
    + apply adds_at_bind_l.
      * unfold run_aria2c. apply adds_at_bind_l; [apply adds_at_emit|].
        intros _. unfold grows. emits_all.
      * intros pr. unfold grows. unfold_calls. emits_all; exact I.
  - intros e k Hh. handler_cases Hh; unfold grows; unfold_calls; emits_all; exact I.
Qed.

(** The fallback sends the request. *)
Lemma fallback_adds_get w url p headers bar indent s :
  adds_at (EvGet url headers true false)
    (fallback w url p headers bar indent) s.
Proof.
  unfold fallback. apply adds_at_bind_l.
  - exists (request_events url headers (w_sleeps w)).
    rewrite session_get_eq. split; [reflexivity | apply list_elem_of_here].
  - intros r. unfold grows. unfold_calls. emits_all; exact I.
Qed.

Lemma download_file_not_found w url p headers bar indent artwork s :
  is_file (fs s) p = false ->
  download_file w url p headers bar indent artwork s
  = (run transfer w url p headers bar indent;
     postprocess w p indent artwork) s.
Proof.
  intros H. unfold download_file. rewrite bind_run.
  change (os_path_isfile p s) with (Ret (is_file (fs s) p), s).
  rewrite H. reflexivity.
Qed.

(** What a call for a destination that is no regular file adds to the log,
    by the answer of the probe. *)
Lemma download_file_transfers w url p headers bar indent artwork s v s0 :
  is_file (fs s) p = false ->
  is_aria2c_installed w s = (Ret v, s0) ->
  if default false v
  then (forall s1, os_makedirs w (dirname p) s0 = (Ret tt, s1) ->
          adds_at (EvSubprocess (aria2c_command url (dirname p) (basename p) headers))
            (download_file w url p headers bar indent artwork) s) /\
       (forall locals s2,
          try_aria2c w url p headers bar indent s0 = (Ret locals, s2) ->
          aria2c_used locals = false ->
          adds_at (EvGet url headers true false)
            (download_file w url p headers bar indent artwork) s)
  else adds_at (EvGet url headers true false)
         (download_file w url p headers bar indent artwork) s.
Proof.
  intros Hf Hp.
  assert (Hd : forall ev,
            adds_at ev (transfer w url p headers bar indent) s ->
            adds_at ev (download_file w url p headers bar indent artwork) s).
  { intros ev H. unfold adds_at.
    rewrite (download_file_not_found _ _ _ _ _ _ _ _ Hf).
    apply adds_at_bind_l; [exact H | intros _; apply grows_postprocess]. }
  assert (Ht : forall ev,
            adds_at ev
              (do locals <- (if default false v
                             then try_aria2c w url p headers bar indent
                             else ret (Frame false None));
               if negb (aria2c_used locals)
               then fallback w url p headers bar indent else ret tt) s0 ->
            adds_at ev (transfer w url p headers bar indent) s).
  { intros ev H. unfold transfer.
    apply (adds_at_bind_r _ _ _ s v s0);
      [apply grows_is_aria2c_installed | exact Hp | exact H]. }
  destruct (default false v).
  - split.
    + intros s1 Hm. apply Hd, Ht. apply adds_at_bind_l.
      * apply (try_aria2c_adds_command _ _ _ _ _ _ _ s1 Hm).
      * intros locals. destruct (negb (aria2c_used locals));
          [apply grows_fallback | unfold grows; emits_all].
    + intros locals s2 Hr Hu. apply Hd, Ht.
      apply (adds_at_bind_r _ _ _ s0 locals s2);
        [apply grows_try_aria2c | exact Hr |].
      rewrite Hu. apply fallback_adds_get.
  - apply Hd, Ht.
    apply (adds_at_bind_r _ _ _ s0 (Frame false None) s0);
      [unfold grows; emits_all | reflexivity |].
    apply fallback_adds_get.
Qed.

(** A call that returns for a destination that was no regular file has
    started the command or sent the request. *)
Lemma download_file_returns_after_transfer w url p headers bar indent artwork s :
  is_file (fs s) p = false ->
  fst (download_file w url p headers bar indent artwork s) = Ret tt ->
  adds_at (EvSubprocess (aria2c_command url (dirname p) (basename p) headers))
    (download_file w url p headers bar indent artwork) s \/
  adds_at (EvGet url headers true false)
    (download_file w url p headers bar indent artwork) s.
Proof.
  intros Hf Hr.
  destruct (is_aria2c_installed w s) as [[v|e] s0] eqn:Hp.
  - pose proof (download_file_transfers w url p headers bar indent artwork
                  s v s0 Hf Hp) as H.
    rewrite (download_file_not_found _ _ _ _ _ _ _ _ Hf) in Hr.
    unfold transfer in Hr. rewrite !bind_run, Hp in Hr.
    destruct (default false v); [|right; exact H].
    destruct H as [H _]. left.
    destruct (os_makedirs w (dirname p) s0) as [[[]|e] s1] eqn:Hm;
      [apply (H s1); reflexivity|].
    unfold try_aria2c in Hr. rewrite !bind_run, Hm in Hr. discriminate Hr.
  - rewrite (download_file_not_found _ _ _ _ _ _ _ _ Hf) in Hr.
    unfold transfer in Hr. rewrite !bind_run, Hp in Hr. discriminate Hr.
Qed.

(** C9.  The accelerator command line ends, after its fourteen fixed
    arguments, with one argument [--header=name: value] per entry of the
    header map, in the order of the map, and then the URL, which is its last
    argument.  In every call of [download_file] each process that is
    started is the version probe or runs exactly that command, and each GET
    request is for the URL of the call with the header map of the call.
    A call for a destination that is no regular file does transfer: when
    the probe answers that the accelerator is there and its directory is
    made, the call starts that command; when the probe answers that it is
    not, or the accelerator attempt ends without success, the call sends
    that request; and a call that returns has done one or the other.  A
    call for a destination that is a regular file starts and sends
    nothing. *)
Theorem download_file_header_propagation
    w url p (headers : list (string * string)) bar indent artwork s :
  let cmd := aria2c_command url (dirname p) (basename p) headers in
  drop 14 cmd
    = map (fun kv => "--header=" +:+ fst kv +:+ ": " +:+ snd kv) headers ++ [url] /\
  List.length cmd = (15 + List.length headers)%nat /\
  last cmd = Some url /\
  (exists l,
     log (snd (download_file w url p headers bar indent artwork s)) = log s ++ l /\
     (forall c, EvSubprocess c ∈ l -> c = ["aria2c"; "--version"] \/ c = cmd) /\
     (forall u h st v, EvGet u h st v ∈ l -> u = url /\ h = headers) /\
     (forall s0 s1,
        is_file (fs s) p = false ->
        is_aria2c_installed w s = (Ret (Some true), s0) ->
        os_makedirs w (dirname p) s0 = (Ret tt, s1) ->
        EvSubprocess cmd ∈ l) /\
     (forall v s0,
        is_file (fs s) p = false ->
        is_aria2c_installed w s = (Ret v, s0) ->
        default false v = false ->
        EvGet url headers true false ∈ l) /\
     (forall s0 locals s2,
        is_file (fs s) p = false ->
        is_aria2c_installed w s = (Ret (Some true), s0) ->
        try_aria2c w url p headers bar indent s0 = (Ret locals, s2) ->
        aria2c_used locals = false ->
        EvGet url headers true false ∈ l) /\
     (is_file (fs s) p = false ->
      fst (download_file w url p headers bar indent artwork s) = Ret tt ->
      EvSubprocess cmd ∈ l \/ EvGet url headers true false ∈ l) /\
     (is_file (fs s) p = true -> l = [])) /\
  (forall s0 s1, os_makedirs w (dirname p) s0 = (Ret tt, s1) ->
     EvSubprocess cmd ∈ log (snd (try_aria2c w url p headers bar indent s0))) /\
  (forall s0,
     EvGet url headers true false
       ∈ log (snd (fallback w url p headers bar indent s0))).
Proof.
  intros cmd. subst cmd. repeat apply conj.
  - reflexivity.
  - unfold aria2c_command. simpl. rewrite length_app, length_map. simpl. lia.
  - unfold aria2c_command. rewrite app_assoc. apply last_snoc.
  - destruct (download_file_carries_headers w url p headers bar indent artwork s)
      as [l [E F]].
    assert (Hl : forall ev,
              adds_at ev (download_file w url p headers bar indent artwork) s ->
              ev ∈ l).
    { intros ev (l' & E' & Hin). rewrite E in E'.
      apply app_inv_head in E'. subst l'. exact Hin. }
    exists l. split; [exact E|]. rewrite Forall_forall in F.
    repeat apply conj.
    + intros c Hc. exact (F _ Hc).
    + intros u h st v Hg. exact (F _ Hg).
    + intros s0 s1 Hf Hp Hm. apply Hl.
      exact (proj1 (download_file_transfers w url p headers bar indent artwork
                      s (Some true) s0 Hf Hp) s1 Hm).
    + intros v s0 Hf Hp Hv. apply Hl.
      pose proof (download_file_transfers w url p headers bar indent artwork
                    s v s0 Hf Hp) as H.
      rewrite Hv in H. exact H.
    + intros s0 locals s2 Hf Hp Hr Hu. apply Hl.
      exact (proj2 (download_file_transfers w url p headers bar indent artwork
                      s (Some true) s0 Hf Hp) locals s2 Hr Hu).
    + intros Hf Hr.
      destruct (download_file_returns_after_transfer w url p headers bar indent
                  artwork s Hf Hr) as [H | H]; [left | right]; apply Hl, H.
    + intros Hf. unfold download_file in E. rewrite bind_run in E.
      change (os_path_isfile p s) with (Ret (is_file (fs s) p), s) in E.
      rewrite Hf in E. cbn [snd ret] in E.
      rewrite <- (app_nil_r (log s)) in E at 1.
      apply app_inv_head in E. symmetry. exact E.
  - intros s0 s1. apply try_aria2c_logs_command.
  - apply fallback_logs_get.
Qed.

Lemma download_file_header_propagation_witness :
  exists l,
    log (snd (download_file world_accelerator_fails "http://h/cover.jpg"
                "music/cover.jpg" [("Authorization", "Bearer X")] false 0 None
                init_state))
    = log init_state ++ l /\
    EvSubprocess
      ["aria2c"; "--dir"; "music"; "--out"; "cover.jpg";
       "--max-connection-per-server=8"; "--min-split-size=1M"; "--split=8";
       "--continue=true"; "--auto-file-renaming=false";
       "--console-log-level=warn"; "--show-console-readout=false";
       "--summary-interval=0"; "--allow-overwrite=true";
       "--header=Authorization: Bearer X"; "http://h/cover.jpg"] ∈ l /\
    EvGet "http://h/cover.jpg" [("Authorization", "Bearer X")] true false ∈ l.
Proof.
  destruct (download_file_header_propagation world_accelerator_fails
              "http://h/cover.jpg" "music/cover.jpg"
              [("Authorization", "Bearer X")] false 0 None init_state)
    as (_ & _ & _ & (l & E & _ & _ & Hcmd & _ & Hget & _) & _).
  exists l. split; [exact E|]. split.
  - apply (Hcmd (snd (is_aria2c_installed world_accelerator_fails init_state))
             (snd (os_makedirs world_accelerator_fails "music"
                     (snd (is_aria2c_installed world_accelerator_fails
                             init_state)))));
      vm_compute; reflexivity.
  - apply (Hget (snd (is_aria2c_installed world_accelerator_fails init_state))
             (Frame false None)
             (snd (try_aria2c world_accelerator_fails "http://h/cover.jpg"
                     "music/cover.jpg" [("Authorization", "Bearer X")] false 0
                     (snd (is_aria2c_installed world_accelerator_fails
                             init_state)))));
      vm_compute; reflexivity.
Defined.

(** ** The artwork step, lines 157-188 *)

Lemma string_eqb_ne a b : string_eqb a b = false <-> a <> b.
Proof. unfold string_eqb. apply bool_decide_eq_false. Qed.

Lemma postprocess_ok w p indent st s d im0 d' :
  should_resize st = Some true ->
  fs_entry (fs s) p = Some (File d) ->
  w_decode w d = Ret im0 -> w_convert w = None -> w_resize w = None ->
  w_encode w (new_format st) (save_options st) (resized st im0) = Ret d' ->
  postprocess w p indent (Some st) s =
    (Ret tt, State (_aria2c_installed s) (<[p := File d']> (fs s))
               (log s ++ artwork_events p st im0)).
Proof.
  intros Hr Hf Hd Hc Hz He.
  unfold postprocess, os_path_isfile, bind, get_state, ret.
  unfold is_file. rewrite Hf. unfold settings_nonempty. rewrite Hr.
  cbn [default andb orb has id].
  unfold try_except, process_artwork, image_open, bind, emit, get_state.
  cbn [fs log _aria2c_installed]. rewrite Hf, Hd.
  unfold artwork_events, resized in *. cbn [lift ret].
  destruct (string_eqb (mode im0) "P") eqn:Em;
    unfold image_convert, image_resize, image_save, bind, emit, fail_with,
      ret, get_state, lift, set_fs;
    cbn [fs log _aria2c_installed mode size];
    rewrite ?Hc, Hz; cbn [fs log _aria2c_installed mode size];
    rewrite He; cbn [fs log _aria2c_installed]; rewrite Hf;
    cbn [fs log _aria2c_installed];
    rewrite <- !app_assoc; reflexivity.
Qed.

(** C8.  With [should_resize] set and a resolution [r], on a destination
    that decodes to an image [im0] of any size, an artwork step in which
    PIL does not raise makes these calls and no others: it opens the file,
    converts to RGB exactly when the mode is P, resizes to [(r, r)] with the
    bicubic filter and saves the square image over the destination.  The
    save is made with quality 90 for format jpeg (or jpg) and compression
    low, quality 70 for compression high, with [compress_level=6] for
    format png whatever the compression, and with no encoder option for
    any other format. *)
Theorem postprocess_resize_and_encode w p indent st s d im0 d' r :
  should_resize st = Some true ->
  resolution st = Some r ->
  fs_entry (fs s) p = Some (File d) ->
  w_decode w d = Ret im0 -> w_convert w = None -> w_resize w = None ->
  w_encode w (new_format st) (save_options st) (resized st im0) = Ret d' ->
  postprocess w p indent (Some st) s =
    (Ret tt,
     State (_aria2c_installed s) (<[p := File d']> (fs s))
       (log s
        ++ [EvImageOpen p]
        ++ (if string_eqb (mode im0) "P" then [EvImageConvert "RGB"] else [])
        ++ [EvImageResize (r, r) BICUBIC;
            EvImageSave p (new_format st) (save_options st)
              (Image (if string_eqb (mode im0) "P" then "RGB" else mode im0)
                     (r, r))])) /\
  (forall f c, format st = Some f -> compression st = Some c ->
     lower f = "jpeg" \/ lower f = "jpg" -> lower c = "low" ->
     new_format st = "jpeg" /\ save_options st = Quality 90) /\
  (forall f c, format st = Some f -> compression st = Some c ->
     lower f = "jpeg" \/ lower f = "jpg" -> lower c = "high" ->
     new_format st = "jpeg" /\ save_options st = Quality 70) /\
  (forall f, format st = Some f -> lower f = "png" ->
     new_format st = "png" /\ save_options st = CompressLevel 6) /\
  (forall f, format st = Some f ->
     lower f <> "jpeg" -> lower f <> "jpg" -> lower f <> "png" ->
     new_format st = lower f /\ save_options st = NoOpts).
Proof.
  intros Hr Hres Hf Hd Hc Hz He. split.
  - rewrite (postprocess_ok w p indent st s d im0 d' Hr Hf Hd Hc Hz He).
    unfold artwork_events, resized. rewrite Hres. reflexivity.
  - unfold save_options, new_compression_quality, new_format.
    repeat apply conj; intros; subst;
      repeat match goal with
             | H : format st = Some _ |- _ => rewrite H; clear H
             | H : compression st = Some _ |- _ => rewrite H; clear H
             end; cbn [default from_option id];
      repeat match goal with
             | H : _ \/ _ |- _ => destruct H
             | H : lower _ = _ |- _ => rewrite H; clear H
             end; try (split; reflexivity);
      repeat match goal with
             | H : ?a <> ?b |- context [string_eqb ?a ?b] =>
                 rewrite (proj2 (string_eqb_ne a b) H)
             end; split; reflexivity.
Qed.

Lemma postprocess_resize_and_encode_witness :
  postprocess world_no_accelerator "cover.jpg" 0 (Some resize_500_jpeg_high)
    state_with_cover
  = (Ret tt,
     State (Some false) (<["cover.jpg" := File [Byte.x4a]]> (fs state_with_cover))
       [EvImageOpen "cover.jpg"; EvImageConvert "RGB";
        EvImageResize (500, 500) BICUBIC;
        EvImageSave "cover.jpg" "jpeg" (Quality 70) (Image "RGB" (500, 500))]).
Proof.
  apply (proj1 (postprocess_resize_and_encode world_no_accelerator "cover.jpg" 0
                  resize_500_jpeg_high state_with_cover (chunk1 ++ chunk2)
                  (Image "P" (640, 480)) [Byte.x4a] 500
                  eq_refl eq_refl eq_refl eq_refl eq_refl eq_refl eq_refl)).
Defined.






(** The encoder of [im.save] fails after the save has opened the
    destination: the call returns, the warning is printed, and the
    destination is an empty file.  The download is lost, and the next call
    for the same destination is skipped. *)
Lemma artwork_encoder_failure_truncates :
  let w := failing_save (Exn OSError "encoder error -2 when writing image file")
             [] world_no_accelerator in
  let after := download_file w "http://h/cover.jpg" "cover.jpg" [] false 0
                 (Some resize_500_jpeg_high) init_state in
  fst after = Ret tt /\
  fs (snd after) = <["cover.jpg" := File []]> ∅ /\
  last (log (snd after))
  = Some (EvPrint ("Error processing artwork cover.jpg: "
                   +:+ "encoder error -2 when writing image file")) /\
  download_file w "http://h/cover.jpg" "cover.jpg" [] false 0
    (Some resize_500_jpeg_high) (snd after)
  = (Ret tt, snd after).
Proof. repeat apply conj; vm_compute; reflexivity. Qed.

(** ** Cleanup of the destination, lines 97-100, 110-111 and 150-153 *)

Lemma is_file_delete f p : is_file (delete p f) p = false.
Proof.
  unfold is_file, fs_entry.
  destruct (negb (string_eqb p "") && all_sep p); [reflexivity|].
  rewrite lookup_delete_eq. reflexivity.
Qed.

(** The [except Exception] clause of the write block does its work: when
    the block ends with an instance of [Exception], no regular file is left
    at the destination. *)
Lemma stream_to_file_removes_on_Exception w p bar indent r total s e s' :
  stream_to_file w p bar indent r total s = (Raise e, s') ->
  is_Exception e = true ->
  is_file (fs s') p = false.
Proof.
  unfold stream_to_file, try_except. intros H He.
  destruct (write_response w p bar indent r total s) as [[u|e0] s1];
    [discriminate H|].
  destruct (is_Exception e0) eqn:E0.
  - unfold os_path_isfile, bind, get_state, ret in H.
    destruct (is_file (fs s1) p) eqn:Ef; cbn [when] in H.
    + unfold silentremove, try_except, os_remove, bind, emit, get_state, raise in H.
      cbn [fs log _aria2c_installed] in H.
      apply is_file_entry in Ef. destruct Ef as [d Ed]. rewrite Ed in H.
      cbn in H. inversion H; subst. cbn. apply is_file_delete.
    + cbn in H. inversion H; subst. exact Ef.
  - inversion H; subst. congruence.
Qed.

(** The clause matches nothing else: an exception that is no instance of
    [Exception] leaves the block with the state the writes had reached. *)
Lemma stream_to_file_passes_BaseException w p bar indent r total s e s1 :
  write_response w p bar indent r total s = (Raise e, s1) ->
  is_Exception e = false ->
  stream_to_file w p bar indent r total s = (Raise e, s1).
Proof.
  intros H He. unfold stream_to_file, try_except. rewrite H, He. reflexivity.
Qed.

(** The request and the status check of lines 116-117 are outside every
    [try]: an error status raises and the files are as they were. *)
Lemma fallback_http_error_keeps_files w url p headers bar indent r s :
  w_get w = Ret r ->
  (400 <=? status_code r) && (status_code r <? 600) = true ->
  exists sleeps,
    fallback w url p headers bar indent s
    = (Raise (Exn HTTPError "HTTP error status"),
       State (_aria2c_installed s) (fs s)
         (log s ++ request_events url headers sleeps)).
Proof.
  intros Hg Hs. destruct (session_get_run w url headers s) as [sleeps E].
  exists sleeps. unfold fallback, bind at 1. rewrite E, Hg.
  unfold raise_for_status, bind. rewrite Hs. reflexivity.
Qed.

(** C1 at a failing input.  The accelerator exits with status 1 and leaves
    three bytes at the destination; line 99 removes only an empty file.
    The GET of line 116 is answered 404 and line 117 raises [HTTPError]
    outside the [try] of line 123: the call fails and the three bytes are
    still at the destination.  Every later call for the same destination
    then takes them for the finished download and returns without any
    event. *)
Theorem download_file_partial_file_survives_http_error :
  fst call_partial_then_404 = Raise (Exn HTTPError "HTTP error status") /\
  fs (snd call_partial_then_404) !! "music/cover.jpg" = Some (File chunk1) /\
  chunk1 <> [] /\
  forall w url headers bar indent artwork,
    download_file w url "music/cover.jpg" headers bar indent artwork
      (snd call_partial_then_404)
    = (Ret tt, snd call_partial_then_404).
Proof.
  split; [vm_compute; reflexivity|].
  split; [vm_compute; reflexivity|].
  split; [discriminate|].
  intros. apply download_file_skip. vm_compute. reflexivity.
Qed.

(** C4 at a failing input.  The body iteration raises [KeyboardInterrupt]
    after two chunks were written.  [except Exception] does not match it:
    the call raises and the five bytes written so far stay at the
    destination.  With [ConnectionError] in its place the same call removes
    the file. *)
Theorem download_file_interrupt_leaves_partial_file :
  fst (call_stream_raises (Exn KeyboardInterrupt ""))
    = Raise (Exn KeyboardInterrupt "") /\
  fs (snd (call_stream_raises (Exn KeyboardInterrupt ""))) !! "cover.jpg"
    = Some (File (chunk1 ++ chunk2)) /\
  Forall (fun ev => ev <> EvRemove "cover.jpg")
    (log (snd (call_stream_raises (Exn KeyboardInterrupt "")))) /\
  fst (call_stream_raises (Exn ConnectionError "reset"))
    = Raise (Exn ConnectionError "reset") /\
  fs (snd (call_stream_raises (Exn ConnectionError "reset"))) !! "cover.jpg"
    = None.
Proof.
  repeat apply conj; try (vm_compute; reflexivity).
  vm_compute. repeat constructor; discriminate.
Qed.

(** ** The probe cache, lines 43-53 and 105-107 *)

Lemma keeps_cache_ret {A} (a : A) : keeps_cache (ret a).
Proof. intros s. reflexivity. Qed.

Lemma keeps_cache_raise {A} e : keeps_cache (@raise A e).
Proof. intros s. reflexivity. Qed.

Lemma keeps_cache_get_state : keeps_cache get_state.
Proof. intros s. reflexivity. Qed.

Lemma keeps_cache_set_fs f : keeps_cache (set_fs f).
Proof. intros s. reflexivity. Qed.

Lemma keeps_cache_emit ev : keeps_cache (emit ev).
Proof. intros s. reflexivity. Qed.

Lemma keeps_cache_lift {A} (o : outcome A) : keeps_cache (lift o).
Proof. destruct o; intros s; reflexivity. Qed.

Lemma keeps_cache_fail_with o : keeps_cache (fail_with o).
Proof. destruct o; intros s; reflexivity. Qed.

Lemma keeps_cache_when b m : keeps_cache m -> keeps_cache (when b m).
Proof. destruct b; [auto | intros _ s; reflexivity]. Qed.

Lemma keeps_cache_bind {A B} (m : M A) (k : A -> M B) :
  keeps_cache m -> (forall a, keeps_cache (k a)) -> keeps_cache (bind m k).
Proof.
  intros Hm Hk s. unfold bind. specialize (Hm s).
  destruct (m s) as [[a|e] s1]; simpl in *; [rewrite Hk|]; exact Hm.
Qed.

Lemma keeps_cache_try_except {A} (m : M A) h :
  keeps_cache m -> (forall e k, h e = Some k -> keeps_cache k) ->
  keeps_cache (try_except m h).
Proof.
  intros Hm Hh s. unfold try_except. specialize (Hm s).
  destruct (m s) as [[a|e] s1]; simpl in *; [exact Hm|].
  destruct (h e) as [k|] eqn:E; simpl; [rewrite (Hh e k E)|]; exact Hm.
Qed.

Ltac keeps_cache_step :=
  match goal with
  | |- keeps_cache (ret _) => apply keeps_cache_ret
  | |- keeps_cache (raise _) => apply keeps_cache_raise
  | |- keeps_cache get_state => apply keeps_cache_get_state
  | |- keeps_cache (set_fs _) => apply keeps_cache_set_fs
  | |- keeps_cache (lift _) => apply keeps_cache_lift
  | |- keeps_cache (fail_with _) => apply keeps_cache_fail_with
  | |- keeps_cache (when _ _) => apply keeps_cache_when
  | |- keeps_cache (print _) => apply keeps_cache_emit
  | |- keeps_cache (emit _) => apply keeps_cache_emit
  | |- keeps_cache (bind _ _) => apply keeps_cache_bind; [| intros ?]
  | |- keeps_cache (try_except _ _) =>
      let H := fresh "Hh" in
      apply keeps_cache_try_except; [| intros ? ? H; handler_cases H]
  | |- keeps_cache (match ?x with _ => _ end) => destruct x
  end.

Lemma keeps_cache_silentremove p : keeps_cache (silentremove p).
Proof. unfold silentremove, os_remove. repeat keeps_cache_step. Qed.

Lemma keeps_cache_write_chunks p b chunks : keeps_cache (write_chunks p b chunks).
Proof.
  induction chunks as [|c rest IH]; simpl.
  - apply keeps_cache_ret.
  - apply keeps_cache_bind; [| intros; exact IH].
    unfold file_write. repeat keeps_cache_step.
Qed.

Lemma keeps_cache_mkdir_each ps : keeps_cache (mkdir_each ps).
Proof.
  induction ps as [|p rest IH]; simpl.
  - apply keeps_cache_ret.
  - apply keeps_cache_bind; [apply keeps_cache_get_state|]. intros s.
    destruct (fs_entry (fs s) p) as [[]|]; auto.
    + destruct rest; apply keeps_cache_raise.
    + apply keeps_cache_bind; [apply keeps_cache_set_fs | auto].
Qed.

Lemma keeps_cache_session_get w url headers :
  keeps_cache (session_get w url headers).
Proof.
  intros s. destruct (session_get_run w url headers s) as [sleeps ->].
  reflexivity.
Qed.

Ltac keeps_cache_all :=
  repeat first
    [ apply keeps_cache_silentremove
    | apply keeps_cache_write_chunks
    | apply keeps_cache_mkdir_each
    | apply keeps_cache_session_get
    | keeps_cache_step ].

(** Nothing in the accelerator attempt, the fallback or the artwork step
    assigns the module global: the handler of lines 105-107 included. *)
Lemma try_aria2c_keeps_cache w url p headers bar indent :
  keeps_cache (try_aria2c w url p headers bar indent).
Proof. unfold_calls. keeps_cache_all. Qed.

Lemma fallback_keeps_cache w url p headers bar indent :
  keeps_cache (fallback w url p headers bar indent).
Proof. unfold_calls. keeps_cache_all. Qed.

Lemma postprocess_keeps_cache w p indent artwork :
  keeps_cache (postprocess w p indent artwork).
Proof. unfold_calls. keeps_cache_all. Qed.

Lemma keeps_probed_of_keeps_cache {A} (m : M A) : keeps_cache m -> keeps_probed m.
Proof. intros H s b Hb. rewrite H. exact Hb. Qed.

Lemma keeps_probed_bind {A B} (m : M A) (k : A -> M B) :
  keeps_probed m -> (forall a, keeps_probed (k a)) -> keeps_probed (bind m k).
Proof.
  intros Hm Hk s b Hb. unfold bind. specialize (Hm s b Hb).
  destruct (m s) as [[a|e] s1]; simpl in *; [apply Hk|]; exact Hm.
Qed.

(** The probe of lines 45-53 runs only while the cache is [None]. *)
Lemma is_aria2c_installed_keeps_probed w : keeps_probed (is_aria2c_installed w).
Proof.
  intros s b Hb. unfold is_aria2c_installed, bind, get_state, ret.
  rewrite Hb. exact Hb.
Qed.

(** Once the probe has answered, no call of [download_file] changes the
    cache, whatever happens in the call. *)
Lemma download_file_keeps_probed_cache w url p headers bar indent artwork :
  keeps_probed (download_file w url p headers bar indent artwork).
Proof.
  unfold download_file.
  apply keeps_probed_bind.
  { apply keeps_probed_of_keeps_cache. unfold os_path_isfile. keeps_cache_all. }
  intros [|]; [apply keeps_probed_of_keeps_cache, keeps_cache_ret|].
  apply keeps_probed_bind;
    [| intros; apply keeps_probed_of_keeps_cache, postprocess_keeps_cache].
  unfold transfer. apply keeps_probed_bind;
    [apply is_aria2c_installed_keeps_probed|].
  intros installed. apply keeps_probed_of_keeps_cache.
  apply keeps_cache_bind.
  - destruct (default false installed);
      [apply try_aria2c_keeps_cache | apply keeps_cache_ret].
  - intros locals. destruct (negb (aria2c_used locals));
      [apply fallback_keeps_cache | apply keeps_cache_ret].
Qed.

(** C2 at a failing input.  The cache says installed and the download run
    raises [FileNotFoundError].  Line 107 binds [False] to a local name:
    the frame of the call holds it, the module global still says installed
    after the call, and the next call starts the accelerator again. *)
Theorem download_file_binary_not_found_keeps_cache :
  fst (try_aria2c world_binary_vanished "http://h/a.bin" "music/a.bin" []
         false 0 state_probed) = Ret (Frame false (Some false)) /\
  fst (call_binary_vanished "a.bin" state_probed) = Ret tt /\
  _aria2c_installed (snd (call_binary_vanished "a.bin" state_probed))
    = Some true /\
  _aria2c_installed (snd (call_binary_vanished "a.bin" state_probed))
    <> Some false /\
  EvSubprocess (aria2c_command "http://h/b.bin" "music" "b.bin" [])
    ∈ log (snd (call_binary_vanished "b.bin"
                  (snd (call_binary_vanished "a.bin" state_probed)))).
Proof.
  repeat apply conj; try (vm_compute; reflexivity).
  - vm_compute. discriminate.
  - vm_compute. repeat first [apply list_elem_of_here | apply list_elem_of_further].
Qed.

(** ** Directories, lines 61-63 *)

(** The fallback and the artwork step never call [os.makedirs]. *)
Lemma fallback_never_makedirs w url p headers bar indent :
  emits (fun ev => forall d, ev <> EvMakedirs d)
    (fallback w url p headers bar indent).
Proof.
  unfold_calls.
  repeat first
    [ apply emits_silentremove; intros; discriminate
    | apply emits_write_chunks; intros; discriminate
    | apply emits_session_get; intros; discriminate
    | emits_step ]; intros; discriminate.
Qed.

(** With the cache at [False] a call is the skip test, the fallback and the
    artwork step. *)
Lemma download_file_unavailable w url p headers bar indent artwork s :
  _aria2c_installed s = Some false ->
  download_file w url p headers bar indent artwork s
  = (do found <- os_path_isfile p;
     if found then ret tt
     else run fallback w url p headers bar indent;
          postprocess w p indent artwork) s.
Proof.
  intros Hc. unfold download_file, transfer, is_aria2c_installed,
    os_path_isfile, bind, get_state, ret.
  destruct (is_file (fs s) p); [reflexivity|].
  rewrite Hc. cbv beta iota. rewrite Hc.
  cbn [default from_option id negb aria2c_used].
  destruct (fallback w url p headers bar indent s) as [[u|e] s1]; reflexivity.
Qed.

(** So no call makes a directory while the accelerator is unavailable. *)
Lemma download_file_unavailable_never_makedirs
    w url p headers bar indent artwork s :
  _aria2c_installed s = Some false ->
  exists l,
    log (snd (download_file w url p headers bar indent artwork s)) = log s ++ l /\
    Forall (fun ev => forall d, ev <> EvMakedirs d) l.
Proof.
  intros Hc. rewrite (download_file_unavailable _ _ _ _ _ _ _ _ Hc).
  revert s Hc.
  assert (E : emits (fun ev => forall d, ev <> EvMakedirs d)
                (do found <- os_path_isfile p;
                 if found then ret tt
                 else run fallback w url p headers bar indent;
                      postprocess w p indent artwork)).
  { apply emits_bind; [unfold os_path_isfile; emits_all|].
    intros [|]; [apply emits_ret|].
    apply emits_bind; [apply fallback_never_makedirs|]. intros _.
    unfold_calls.
    repeat emits_step; intros; discriminate. }
  intros s _. apply E.
Qed.

(** C6 at a failing input.  No accelerator is installed and the directory
    [music] does not exist.  The call makes no [os.makedirs]: [open] raises
    [FileNotFoundError] and nothing is downloaded, although the server
    answers.  With an accelerator that is installed and fails, the same
    call makes the directory at line 63 and the fallback writes the file. *)
Theorem download_file_fallback_skips_makedirs :
  fst (call_into_missing_directory world_no_accelerator)
    = Raise (ENOENT "music/cover.jpg") /\
  log (snd (call_into_missing_directory world_no_accelerator))
    = [EvSubprocess ["aria2c"; "--version"];
       EvGet "http://h/cover.jpg" [] true false;
       EvOpenWb "music/cover.jpg"] /\
  fs (snd (call_into_missing_directory world_no_accelerator)) !! "music" = None /\
  fst (call_into_missing_directory world_accelerator_fails) = Ret tt /\
  EvMakedirs "music"
    ∈ log (snd (call_into_missing_directory world_accelerator_fails)) /\
  fs (snd (call_into_missing_directory world_accelerator_fails)) !! "music"
    = Some Dir /\
  fs (snd (call_into_missing_directory world_accelerator_fails))
    !! "music/cover.jpg" = Some (File (chunk1 ++ chunk2)).
Proof.
  repeat apply conj; try (vm_compute; reflexivity).
  vm_compute. repeat first [apply list_elem_of_here | apply list_elem_of_further].
Qed.

(** ** [sanitise_name], line 22 *)

Lemma append_cons c r t : String c r +:+ t = String c (r +:+ t).
Proof. reflexivity. Qed.

Lemma append_nil t : EmptyString +:+ t = t.
Proof. reflexivity. Qed.

Lemma append_assoc (a b c : string) : (a +:+ b) +:+ c = a +:+ (b +:+ c).
Proof. induction a as [|x r IH]; [reflexivity|]. rewrite !append_cons, IH. reflexivity. Qed.

Lemma list_ascii_app s t :
  list_ascii_of_string (s +:+ t)
  = list_ascii_of_string s ++ list_ascii_of_string t.
Proof. induction s as [|c r IH]; [reflexivity|]. rewrite append_cons. simpl. rewrite IH. reflexivity. Qed.

Lemma string_of_list_ascii_app l t :
  string_of_list_ascii (l ++ t)
  = string_of_list_ascii l +:+ string_of_list_ascii t.
Proof. induction l as [|c r IH]; [reflexivity|]. simpl. rewrite IH. reflexivity. Qed.

Lemma snoc_nonempty s c : string_eqb (s +:+ String c EmptyString) "" = false.
Proof. apply bool_decide_eq_false. destruct s; discriminate. Qed.

Lemma rstrip_with_cons p c r :
  rstrip_with p (String c r)
  = match rstrip_with p r with
    | EmptyString => if p c then EmptyString else String c EmptyString
    | r' => String c r'
    end.
Proof. reflexivity. Qed.

Lemma rstrip_with_snoc_keep p s c :
  p c = false ->
  rstrip_with p (s +:+ String c EmptyString) = s +:+ String c EmptyString.
Proof.
  intros Hc. induction s as [|a r IH].
  - simpl. rewrite Hc. reflexivity.
  - change (String a r +:+ String c EmptyString)
      with (String a (r +:+ String c EmptyString)).
    rewrite rstrip_with_cons, IH.
    destruct r; reflexivity.
Qed.

Lemma rstrip_with_snoc_drop p s c :
  p c = true ->
  rstrip_with p (s +:+ String c EmptyString) = rstrip_with p s.
Proof.
  intros Hc. induction s as [|a r IH].
  - simpl. rewrite Hc. reflexivity.
  - change (String a r +:+ String c EmptyString)
      with (String a (r +:+ String c EmptyString)).
    rewrite !rstrip_with_cons, IH. reflexivity.
Qed.

Lemma rstrip_with_fixed_weaken (p q : ascii -> bool) s :
  (forall c, q c = true -> p c = true) ->
  rstrip_with p s = s -> rstrip_with q s = s.
Proof.
  intros Hpq. induction s as [|c r IH]; [reflexivity|].
  cbn [rstrip_with]. destruct (rstrip_with p r) as [|c' r'] eqn:E.
  - destruct (p c) eqn:Ep; [discriminate|].
    intros H. injection H as <-. cbn [rstrip_with].
    destruct (q c) eqn:Eq; [|reflexivity].
    apply Hpq in Eq. congruence.
  - intros H. injection H as H. rewrite (IH H). rewrite <- H. reflexivity.
Qed.

(** The whitespace outside ASCII ends with a byte that is not of ASCII. *)
Lemma isspace2_ascii b1 b2 : (nat_of_ascii b2 < 128)%nat -> isspace2 b1 b2 = false.
Proof.
  intros H. unfold isspace2.
  rewrite (proj2 (Nat.eqb_neq (nat_of_ascii b2) 133)) by lia.
  rewrite (proj2 (Nat.eqb_neq (nat_of_ascii b2) 160)) by lia.
  apply andb_false_r.
Qed.

Lemma isspace3_ascii b1 b2 b3 :
  (nat_of_ascii b3 < 128)%nat -> isspace3 b1 b2 b3 = false.
Proof.
  intros H. unfold isspace3.
  rewrite (proj2 (Nat.eqb_neq (nat_of_ascii b3) 128)) by lia.
  rewrite (proj2 (Nat.leb_gt 128 (nat_of_ascii b3))) by lia.
  rewrite (proj2 (Nat.eqb_neq (nat_of_ascii b3) 168)) by lia.
  rewrite (proj2 (Nat.eqb_neq (nat_of_ascii b3) 169)) by lia.
  rewrite (proj2 (Nat.eqb_neq (nat_of_ascii b3) 175)) by lia.
  rewrite (proj2 (Nat.eqb_neq (nat_of_ascii b3) 159)) by lia.
  cbn [andb orb]. rewrite !andb_false_r. reflexivity.
Qed.

Lemma rstrip_bytes_rev_keep b r :
  (nat_of_ascii b < 128)%nat -> isspace b = false ->
  rstrip_bytes_rev (b :: r) = b :: r.
Proof.
  intros Hb Hs. cbn [rstrip_bytes_rev]. rewrite Hs.
  destruct r as [|b2 [|b1 r]]; [reflexivity | |];
    rewrite isspace2_ascii by exact Hb; [reflexivity|].
  rewrite isspace3_ascii by exact Hb. reflexivity.
Qed.

Lemma rstrip_bytes_rev_length r :
  (List.length (rstrip_bytes_rev r) <= List.length r)%nat.
Proof.
  remember (List.length r) as n eqn:En. revert r En.
  induction n as [n IH] using lt_wf_ind. intros r ->.
  destruct r as [|b3 r]; [reflexivity|]. cbn [rstrip_bytes_rev].
  destruct (isspace b3).
  { specialize (IH (List.length r) ltac:(cbn; lia) r eq_refl). cbn. lia. }
  destruct r as [|b2 r]; [reflexivity|].
  destruct (isspace2 b2 b3).
  { specialize (IH (List.length r) ltac:(cbn; lia) r eq_refl). cbn. lia. }
  destruct r as [|b1 r]; [reflexivity|].
  destruct (isspace3 b1 b2 b3); [|reflexivity].
  specialize (IH (List.length r) ltac:(cbn; lia) r eq_refl). cbn. lia.
Qed.

Lemma rstrip_snoc_keep s c :
  (nat_of_ascii c < 128)%nat -> isspace c = false ->
  rstrip (s +:+ String c EmptyString) = s +:+ String c EmptyString.
Proof.
  intros Hc Hs. unfold rstrip.
  rewrite list_ascii_app. cbn [list_ascii_of_string]. rewrite rev_unit.
  rewrite (rstrip_bytes_rev_keep _ _ Hc Hs). cbn [rev].
  rewrite rev_involutive, string_of_list_ascii_app, string_of_list_ascii_of_string.
  reflexivity.
Qed.

Lemma rstrip_snoc_drop s c :
  isspace c = true -> rstrip (s +:+ String c EmptyString) = rstrip s.
Proof.
  intros Hs. unfold rstrip.
  rewrite list_ascii_app. cbn [list_ascii_of_string]. rewrite rev_unit.
  cbn [rstrip_bytes_rev]. rewrite Hs. reflexivity.
Qed.

(** What [rstrip] leaves as it is does not end with whitespace of ASCII. *)
Lemma rstrip_fixed_ascii s : rstrip s = s -> rstrip_with isspace s = s.
Proof.
  unfold rstrip. intros H.
  apply (f_equal list_ascii_of_string) in H.
  rewrite list_ascii_of_string_of_list_ascii in H.
  apply (f_equal (@rev ascii)) in H. rewrite rev_involutive in H.
  assert (Es : s = string_of_list_ascii (rev (rev (list_ascii_of_string s))))
    by (rewrite rev_involutive, string_of_list_ascii_of_string; reflexivity).
  destruct (rev (list_ascii_of_string s)) as [|b r] eqn:Er.
  - rewrite Es. reflexivity.
  - cbn [rstrip_bytes_rev] in H. destruct (isspace b) eqn:Hb.
    + pose proof (rstrip_bytes_rev_length r) as Hl. rewrite H in Hl.
      cbn in Hl. lia.
    + rewrite Es. cbn [rev]. rewrite string_of_list_ascii_app.
      apply rstrip_with_snoc_keep, Hb.
Qed.

Lemma drop_final_newline_rstripped s :
  rstrip_with isspace s = s -> drop_final_newline s = None.
Proof.
  induction s as [|c r IH]; [reflexivity|].
  cbn [rstrip_with]. destruct (rstrip_with isspace r) as [|c' r'] eqn:E.
  - destruct (isspace c) eqn:Ep; [discriminate|].
    intros H. injection H as <-. cbn [drop_final_newline].
    destruct (Ascii.eqb c newline) eqn:En; [|reflexivity].
    apply Ascii.eqb_eq in En. subst c. discriminate Ep.
  - intros H. injection H as H. specialize (IH H).
    destruct r as [|c2 r2]; [discriminate E|].
    change (drop_final_newline (String c (String c2 r2)))
      with (option_map (String c) (drop_final_newline (String c2 r2))).
    rewrite IH. reflexivity.
Qed.

Lemma sub_trailing_blanks_rstripped s :
  rstrip_with isspace s = s -> sub_trailing_blanks s = s.
Proof.
  intros H. unfold sub_trailing_blanks.
  rewrite (drop_final_newline_rstripped s H).
  apply (rstrip_with_fixed_weaken isspace); [|exact H].
  intros c. unfold is_blank, isspace.
  destruct (nat_of_ascii c =? 32)%nat eqn:E1.
  - apply Nat.eqb_eq in E1. rewrite E1. reflexivity.
  - destruct (nat_of_ascii c =? 9)%nat eqn:E2; [|discriminate].
    apply Nat.eqb_eq in E2. rewrite E2. reflexivity.
Qed.

Lemma delete_chars_forbidden s :
  Forall (fun c => forbidden c = false)
    (list_ascii_of_string (delete_chars forbidden s)).
Proof.
  induction s as [|c r IH]; [constructor|].
  cbn [delete_chars]. destruct (forbidden c) eqn:E; [exact IH|].
  cbn. constructor; assumption.
Qed.

Lemma replace_colons_allowed s :
  Forall (fun c => forbidden c = false) (list_ascii_of_string s) ->
  Forall allowed (list_ascii_of_string (replace_colons s)).
Proof.
  induction s as [|c r IH]; [constructor|].
  cbn [list_ascii_of_string replace_colons]. intros H.
  apply Forall_cons in H as [Hc Hr].
  destruct (is_colon c) eqn:E.
  - cbn. repeat (constructor; [split; reflexivity|]). auto.
  - cbn. constructor; [split; assumption | auto].
Qed.

(** X1.  Whatever the name, the sanitised name has none of the characters
    backslash, slash, star, question mark, double quote, angle brackets,
    bar, dollar and colon. *)
Theorem sanitise_name_allowed_only name :
  Forall allowed (list_ascii_of_string (sanitise_name name)).
Proof.
  unfold sanitise_name. destruct (string_eqb name ""); [constructor|].
  apply replace_colons_allowed, delete_chars_forbidden.
Qed.

Lemma delete_chars_id s :
  Forall (fun c => forbidden c = false) (list_ascii_of_string s) ->
  delete_chars forbidden s = s.
Proof.
  induction s as [|c r IH]; [reflexivity|].
  cbn [list_ascii_of_string delete_chars]. intros H.
  apply Forall_cons in H as [Hc Hr]. rewrite Hc, (IH Hr). reflexivity.
Qed.

Lemma replace_colons_id s :
  Forall (fun c => is_colon c = false) (list_ascii_of_string s) ->
  replace_colons s = s.
Proof.
  induction s as [|c r IH]; [reflexivity|].
  cbn [list_ascii_of_string replace_colons]. intros H.
  apply Forall_cons in H as [Hc Hr]. rewrite Hc, (IH Hr). reflexivity.
Qed.

Lemma allowed_clean s :
  Forall allowed (list_ascii_of_string s) ->
  replace_colons (delete_chars forbidden s) = s.
Proof.
  intros H. rewrite delete_chars_id, replace_colons_id; [reflexivity| |];
    eapply Forall_impl; try exact H; intros c [? ?]; assumption.
Qed.

(** X2.  A name made of allowed characters that [str.rstrip()] leaves as
    it is, which is a name that does not end with whitespace, of ASCII or
    not, is left as it is. *)
Theorem sanitise_name_fixes_clean_names name :
  Forall allowed (list_ascii_of_string name) ->
  rstrip name = name ->
  sanitise_name name = name.
Proof.
  intros Ha Hr. unfold sanitise_name.
  destruct (string_eqb name "") eqn:E.
  - apply bool_decide_eq_true in E. auto.
  - rewrite Hr, (sub_trailing_blanks_rstripped name (rstrip_fixed_ascii name Hr)).
    apply allowed_clean, Ha.
Qed.

Lemma sanitise_name_fixes_clean_names_witness :
  sanitise_name "Back in Black (Remastered)" = "Back in Black (Remastered)".
Proof.
  apply sanitise_name_fixes_clean_names.
  - repeat (constructor; [split; reflexivity|]). constructor.
  - reflexivity.
Defined.

(** A name that ends with the no-break space U+00A0 is stripped of it. *)
Lemma sanitise_name_strips_no_break_space :
  sanitise_name
    ("Intro" +:+ String (ascii_of_nat 194) (String (ascii_of_nat 160) EmptyString))
  = "Intro".
Proof. vm_compute. reflexivity. Qed.

Lemma delete_chars_app cls s t :
  delete_chars cls (s +:+ t) = delete_chars cls s +:+ delete_chars cls t.
Proof.
  induction s as [|c r IH]; [reflexivity|].
  rewrite append_cons. simpl. destruct (cls c); rewrite IH; reflexivity.
Qed.

Lemma replace_colons_app s t :
  replace_colons (s +:+ t) = replace_colons s +:+ replace_colons t.
Proof.
  induction s as [|c r IH]; [reflexivity|].
  rewrite append_cons. simpl. destruct (is_colon c); rewrite IH.
  - rewrite !append_cons, append_nil. reflexivity.
  - reflexivity.
Qed.

(** X3.  The whitespace is stripped before the colons are replaced: a name
    that ends with a colon is sanitised to a name that ends with a blank,
    and sanitising that name again removes the blank, so that
    [sanitise_name] is not idempotent. *)
Theorem sanitise_name_trailing_colon name :
  let body := replace_colons (delete_chars forbidden name) in
  sanitise_name (name +:+ ":") = body +:+ " - " /\
  sanitise_name (sanitise_name (name +:+ ":")) = body +:+ " -" /\
  sanitise_name (sanitise_name (name +:+ ":")) <> sanitise_name (name +:+ ":").
Proof.
  intros body.
  assert (Hcolon : rstrip (name +:+ ":") = name +:+ ":").
  { apply rstrip_snoc_keep; [apply Nat.ltb_lt; reflexivity | reflexivity]. }
  assert (E1 : sanitise_name (name +:+ ":") = body +:+ " - ").
  { unfold sanitise_name. rewrite snoc_nonempty, Hcolon.
    rewrite sub_trailing_blanks_rstripped by apply rstrip_fixed_ascii, Hcolon.
    rewrite delete_chars_app, replace_colons_app. reflexivity. }
  assert (E2 : sanitise_name (body +:+ " - ") = body +:+ " -").
  { assert (Hb : Forall allowed (list_ascii_of_string (body +:+ " -"))).
    { rewrite list_ascii_app. apply Forall_app. split.
      - apply replace_colons_allowed, delete_chars_forbidden.
      - cbn. repeat (constructor; [split; reflexivity|]). constructor. }
    assert (Hr : rstrip (body +:+ " -") = body +:+ " -").
    { change (body +:+ " -") with (body +:+ (" " +:+ "-")).
      rewrite <- append_assoc.
      apply rstrip_snoc_keep; [apply Nat.ltb_lt; reflexivity | reflexivity]. }
    unfold sanitise_name.
    change (body +:+ " - ") with (body +:+ (" -" +:+ " ")).
    rewrite <- append_assoc, snoc_nonempty.
    rewrite (rstrip_snoc_drop _ " "%char eq_refl).
    rewrite Hr, (sub_trailing_blanks_rstripped _ (rstrip_fixed_ascii _ Hr)).
    apply allowed_clean, Hb. }
  split; [exact E1|]. rewrite E1, E2. split; [reflexivity|].
  intros H. apply String.app_inj in H. discriminate H.
Qed.

(** ** [sanitise_name] and paths *)

Lemma rsplit_sep_cons c r :
  rsplit_sep (String c r)
  = (if is_sep c then (String c (fst (rsplit_sep r)), snd (rsplit_sep r))
     else match fst (rsplit_sep r) with
          | EmptyString => (EmptyString, String c (snd (rsplit_sep r)))
          | _ => (String c (fst (rsplit_sep r)), snd (rsplit_sep r))
          end).
Proof. simpl. destruct (rsplit_sep r). reflexivity. Qed.

Lemma rsplit_sep_no_sep s :
  Forall (fun c => is_sep c = false) (list_ascii_of_string s) ->
  rsplit_sep s = (EmptyString, s).
Proof.
  induction s as [|c r IH]; [reflexivity|].
  cbn [list_ascii_of_string]. intros H.
  apply Forall_cons in H as [Hc Hr]. rewrite rsplit_sep_cons, (IH Hr), Hc.
  reflexivity.
Qed.

Lemma rsplit_sep_under d t :
  Forall (fun c => is_sep c = false) (list_ascii_of_string t) ->
  rsplit_sep (d +:+ "/" +:+ t) = (d +:+ "/", t).
Proof.
  intros Ht. induction d as [|c r IH].
  - change (EmptyString +:+ "/" +:+ t) with (String "/"%char t).
    rewrite rsplit_sep_cons, (rsplit_sep_no_sep t Ht). reflexivity.
  - rewrite !(append_cons c r), rsplit_sep_cons, IH.
    destruct (is_sep c); [reflexivity|]. destruct r; reflexivity.
Qed.

Lemma allowed_no_sep c : allowed c -> is_sep c = false.
Proof.
  intros [Hf _]. unfold is_sep. apply bool_decide_eq_false. intros ->.
  discriminate Hf.
Qed.

(** X4.  A sanitised name is one path component: it has no directory part,
    and placed under a directory it is the base name of the path. *)
Theorem sanitise_name_is_path_component name directory :
  dirname (sanitise_name name) = "" /\
  basename (sanitise_name name) = sanitise_name name /\
  basename (directory +:+ "/" +:+ sanitise_name name) = sanitise_name name.
Proof.
  assert (H : Forall (fun c => is_sep c = false)
                (list_ascii_of_string (sanitise_name name))).
  { eapply Forall_impl; [|apply allowed_no_sep].
    unfold sanitise_name. destruct (string_eqb name ""); [constructor|].
    apply replace_colons_allowed, delete_chars_forbidden. }
  unfold dirname, basename.
  rewrite (rsplit_sep_no_sep _ H), (rsplit_sep_under directory _ H).
  repeat split.
Qed.

(** ** The file system: [open], [os.remove] *)

Lemma fs_entry_None_lookup f p : fs_entry f p = None -> f !! p = None.
Proof.
  unfold fs_entry. destruct (negb (string_eqb p "") && all_sep p);
    [discriminate | auto].
Qed.

Lemma fs_entry_File_lookup f p d :
  fs_entry f p = Some (File d) -> f !! p = Some (File d).
Proof.
  unfold fs_entry. destruct (negb (string_eqb p "") && all_sep p);
    [discriminate | auto].
Qed.

Lemma fs_entry_insert_absent f p x :
  fs_entry f p = None -> fs_entry (<[p := x]> f) p = Some x.
Proof.
  unfold fs_entry. destruct (negb (string_eqb p "") && all_sep p);
    [discriminate | intros _; apply lookup_insert_eq].
Qed.

Lemma fs_entry_insert_File f p d x :
  fs_entry f p = Some (File d) -> fs_entry (<[p := x]> f) p = Some x.
Proof.
  unfold fs_entry. destruct (negb (string_eqb p "") && all_sep p);
    [discriminate | intros _; apply lookup_insert_eq].
Qed.

(** The lookup of the directories on the way ends in one of three ways. *)
Lemma lookup_dirs_cases f ps p :
  lookup_dirs f ps p = None \/ lookup_dirs f ps p = Some (ENOENT p) \/
  lookup_dirs f ps p = Some (ENOTDIR p).
Proof.
  induction ps as [|q rest IH]; cbn [lookup_dirs]; [auto|].
  destruct (fs_entry f q) as [[d|]|]; auto.
Qed.

Lemma lookup_dirs_None f ps p :
  lookup_dirs f ps p = None <-> Forall (fun q => is_dir f q = true) ps.
Proof.
  unfold is_dir. induction ps as [|q rest IH]; cbn [lookup_dirs].
  - split; [constructor | reflexivity].
  - destruct (fs_entry f q) as [[d|]|] eqn:E; split; intros H;
      try discriminate H; try (apply Forall_cons in H as [H _]; rewrite E in H;
                                discriminate H).
    + constructor; [rewrite E; reflexivity | apply IH, H].
    + apply Forall_cons in H as [_ H]. apply IH, H.
Qed.

(** [open(p, 'wb')], case by case. *)
Lemma open_wb_run w p s :
  open_wb w p s
  = match w_open w with
    | Some e =>
        (Raise e, State (_aria2c_installed s) (fs s) (log s ++ [EvOpenWb p]))
    | None =>
        match fs_entry (fs s) p with
        | Some Dir =>
            (Raise (EISDIR p),
             State (_aria2c_installed s) (fs s) (log s ++ [EvOpenWb p]))
        | _ =>
            if string_eqb p "" then
              (Raise (ENOENT p),
               State (_aria2c_installed s) (fs s) (log s ++ [EvOpenWb p]))
            else
              match parent_error (fs s) p with
              | Some e =>
                  (Raise e,
                   State (_aria2c_installed s) (fs s) (log s ++ [EvOpenWb p]))
              | None =>
                  (Ret tt,
                   State (_aria2c_installed s) (<[p := File []]> (fs s))
                     (log s ++ [EvOpenWb p]))
              end
        end
    end.
Proof.
  unfold open_wb, bind, emit, fail_with, get_state, set_fs, ret, raise.
  destruct (w_open w); cbn [fs log _aria2c_installed]; [reflexivity|].
  destruct (fs_entry (fs s) p) as [[d|]|]; try reflexivity;
    destruct (string_eqb p ""); try reflexivity;
    destruct (parent_error (fs s) p); reflexivity.
Qed.

(** [os.remove(p)], case by case. *)
Lemma os_remove_run p s :
  os_remove p s
  = match fs_entry (fs s) p with
    | Some (File _) =>
        (Ret tt, State (_aria2c_installed s) (delete p (fs s))
                   (log s ++ [EvRemove p]))
    | Some Dir =>
        (Raise (EISDIR p),
         State (_aria2c_installed s) (fs s) (log s ++ [EvRemove p]))
    | None =>
        (Raise (missing (fs s) p),
         State (_aria2c_installed s) (fs s) (log s ++ [EvRemove p]))
    end.
Proof.
  unfold os_remove, bind, emit, get_state, set_fs, raise.
  cbn [fs log _aria2c_installed].
  destruct (fs_entry (fs s) p) as [[d|]|]; reflexivity.
Qed.

(** A regular file is removed. *)
Lemma silentremove_file p s d :
  fs_entry (fs s) p = Some (File d) ->
  silentremove p s
  = (Ret tt, State (_aria2c_installed s) (delete p (fs s))
               (log s ++ [EvRemove p])).
Proof.
  intros H. unfold silentremove, try_except. rewrite os_remove_run, H.
  reflexivity.
Qed.

(** A path that is not there is passed over, unless a regular file is on
    the way to it. *)
Lemma silentremove_missing p s :
  fs_entry (fs s) p = None ->
  silentremove p s
  = (match parent_error (fs s) p with
     | Some e => if is_FileNotFoundError e then Ret tt else Raise e
     | None => Ret tt
     end,
     State (_aria2c_installed s) (fs s) (log s ++ [EvRemove p])).
Proof.
  intros H. unfold silentremove, try_except. rewrite os_remove_run, H.
  unfold missing.
  destruct (lookup_dirs_cases (fs s) (path_prefixes (dirname p)) p)
    as [E | [E | E]]; unfold parent_error; rewrite E; reflexivity.
Qed.

(** ** Temporary names, lines 254-264 *)

Lemma hex_digit_value n :
  (n < 16)%nat ->
  is_hex_digit (hex_digit n) = true /\ hex_value (hex_digit n) = n.
Proof.
  intros H.
  do 16 (destruct n as [|n]; [split; reflexivity|]). lia.
Qed.

Lemma hex_of_byte_value b :
  exists c1 c2,
    hex_of_byte b = String c1 (String c2 EmptyString) /\
    is_hex_digit c1 = true /\ is_hex_digit c2 = true /\
    Byte.to_nat b = (16 * hex_value c1 + hex_value c2)%nat.
Proof.
  pose proof (Byte.to_nat_bounded b) as Hb.
  assert (H1 : (Byte.to_nat b / 16 < 16)%nat)
    by (apply Nat.Div0.div_lt_upper_bound; lia).
  assert (H2 : (Byte.to_nat b mod 16 < 16)%nat)
    by (apply Nat.mod_upper_bound; lia).
  destruct (hex_digit_value _ H1) as [D1 V1].
  destruct (hex_digit_value _ H2) as [D2 V2].
  exists (hex_digit (Byte.to_nat b / 16)), (hex_digit (Byte.to_nat b mod 16)).
  repeat split; try assumption.
  rewrite V1, V2. apply Nat.div_mod_eq.
Qed.

Lemma hex_of_byte_inj b1 b2 : hex_of_byte b1 = hex_of_byte b2 -> b1 = b2.
Proof.
  destruct (hex_of_byte_value b1) as (a1 & a2 & E1 & _ & _ & V1).
  destruct (hex_of_byte_value b2) as (c1 & c2 & E2 & _ & _ & V2).
  rewrite E1, E2. intros H. injection H as -> ->.
  rewrite <- V2 in V1.
  assert (Some b1 = Some b2) as Hs
    by (rewrite <- (Byte.of_to_nat b1), <- (Byte.of_to_nat b2), V1; reflexivity).
  injection Hs as ->. reflexivity.
Qed.

Lemma hex_cons b r : hex (b :: r) = hex_of_byte b +:+ hex r.
Proof. reflexivity. Qed.

Lemma hex_inj bs1 bs2 : hex bs1 = hex bs2 -> bs1 = bs2.
Proof.
  revert bs2. induction bs1 as [|b1 r1 IH]; intros [|b2 r2];
    rewrite ?hex_cons.
  - reflexivity.
  - destruct (hex_of_byte_value b2) as (c1 & c2 & E & _). rewrite E. discriminate.
  - destruct (hex_of_byte_value b1) as (c1 & c2 & E & _). rewrite E. discriminate.
  - destruct (hex_of_byte_value b1) as (a1 & a2 & E1 & _).
    destruct (hex_of_byte_value b2) as (c1 & c2 & E2 & _).
    intros H. assert (H' := H). rewrite E1, E2 in H'.
    injection H' as -> -> Hr. rewrite (IH _ Hr).
    f_equal. apply hex_of_byte_inj. rewrite E1, E2. reflexivity.
Qed.

Lemma hex_digits bs :
  Forall (fun c => is_hex_digit c = true) (list_ascii_of_string (hex bs)) /\
  String.length (hex bs) = (2 * List.length bs)%nat.
Proof.
  induction bs as [|b r [IH1 IH2]]; [split; [constructor | reflexivity]|].
  rewrite hex_cons. destruct (hex_of_byte_value b) as (c1 & c2 & E & H1 & H2 & _).
  rewrite E. split.
  - cbn [list_ascii_of_string]. repeat (constructor; [assumption|]). exact IH1.
  - change (String.length (String c1 (String c2 EmptyString) +:+ hex r))
      with (S (S (String.length (hex r)))).
    rewrite IH2. cbn [List.length]. lia.
Qed.

Lemma hex_digit_no_sep c : is_hex_digit c = true -> is_sep c = false.
Proof.
  intros H. unfold is_sep. apply bool_decide_eq_false. intros ->. discriminate H.
Qed.

Lemma hex_no_sep bs :
  Forall (fun c => is_sep c = false) (list_ascii_of_string (hex bs)).
Proof.
  eapply Forall_impl; [apply hex_digits | apply hex_digit_no_sep].
Qed.

(** X5.  For the sixteen bytes of [os.urandom(16)] the temporary name is
    [temp/] followed by thirty-two characters of [0-9a-f]: it has 37
    characters, its directory is [temp] and its base name is the
    hexadecimal form of the bytes. *)
Theorem create_temp_filename_shape random16 :
  List.length random16 = 16%nat ->
  String.length (create_temp_filename random16) = 37%nat /\
  dirname (create_temp_filename random16) = "temp" /\
  basename (create_temp_filename random16) = hex random16 /\
  String.length (basename (create_temp_filename random16)) = 32%nat /\
  Forall (fun c => is_hex_digit c = true)
    (list_ascii_of_string (basename (create_temp_filename random16))).
Proof.
  intros Hl. unfold create_temp_filename.
  assert (Hs : rsplit_sep ("temp/" +:+ hex random16) = ("temp/", hex random16)).
  { change ("temp/" +:+ hex random16) with ("temp" +:+ "/" +:+ hex random16).
    apply (rsplit_sep_under "temp"), hex_no_sep. }
  unfold dirname, basename. rewrite Hs.
  destruct (hex_digits random16) as [Hd Hn]. rewrite Hl in Hn.
  repeat apply conj; try assumption; try reflexivity.
  change ("temp/" +:+ hex random16)
    with (String "t" (String "e" (String "m" (String "p" (String "/" (hex random16)))))).
  simpl. rewrite Hn. reflexivity.
Qed.

Lemma create_temp_filename_shape_witness :
  String.length (create_temp_filename random_a7) = 37%nat /\
  dirname (create_temp_filename random_a7) = "temp" /\
  basename (create_temp_filename random_a7) = hex random_a7 /\
  String.length (basename (create_temp_filename random_a7)) = 32%nat /\
  Forall (fun c => is_hex_digit c = true)
    (list_ascii_of_string (basename (create_temp_filename random_a7))).
Proof.
  apply (create_temp_filename_shape random_a7). reflexivity.
Defined.

(** X6.  Two temporary names are the same only when the random bytes are
    the same. *)
Theorem create_temp_filename_inj r1 r2 :
  create_temp_filename r1 = create_temp_filename r2 -> r1 = r2.
Proof.
  unfold create_temp_filename. intros H.
  apply String.app_inj in H. apply hex_inj, H.
Qed.

Lemma create_temp_filename_inj_witness :
  [Byte.x01; Byte.xfe] = [Byte.x01; Byte.xfe].
Proof.
  apply (create_temp_filename_inj [Byte.x01; Byte.xfe] [Byte.x01; Byte.xfe]).
  reflexivity.
Defined.

Lemma temp_location_parent random16 :
  dirname (create_temp_filename random16) = "temp".
Proof.
  unfold create_temp_filename, dirname.
  change ("temp/" +:+ hex random16) with ("temp" +:+ "/" +:+ hex random16).
  rewrite (rsplit_sep_under "temp" _ (hex_no_sep random16)). reflexivity.
Qed.

Lemma temp_location_not_root random16 :
  negb (string_eqb (create_temp_filename random16) "")
  && all_sep (create_temp_filename random16) = false.
Proof. reflexivity. Qed.

Lemma fs_entry_temp_location f random16 :
  fs_entry f (create_temp_filename random16)
  = f !! create_temp_filename random16.
Proof. unfold fs_entry. rewrite temp_location_not_root. reflexivity. Qed.

Lemma is_dir_entry f p : is_dir f p = true -> fs_entry f p = Some Dir.
Proof. unfold is_dir. destruct (fs_entry f p) as [[d|]|]; congruence. Qed.

(** The way to a temporary name is the directory [temp]. *)
Lemma parent_error_temp f random16 :
  parent_error f (create_temp_filename random16)
  = match fs_entry f "temp" with
    | Some Dir => None
    | Some (File _) => Some (ENOTDIR (create_temp_filename random16))
    | None => Some (ENOENT (create_temp_filename random16))
    end.
Proof. unfold parent_error. rewrite temp_location_parent. reflexivity. Qed.

Lemma parent_error_under_temp f p :
  dirname p = "temp" ->
  parent_error f p
  = match fs_entry f "temp" with
    | Some Dir => None
    | Some (File _) => Some (ENOTDIR p)
    | None => Some (ENOENT p)
    end.
Proof. intros H. unfold parent_error. rewrite H. reflexivity. Qed.

(** X7.  When [temp] is a directory and the name is not taken by a
    directory, [save_to_temp] returns the temporary name and the file at
    that name holds exactly the input, whatever was there before; no other
    entry of the file system changes. *)
Theorem save_to_temp_round_trip w random16 input s :
  w_open w = None ->
  is_dir (fs s) "temp" = true ->
  fs s !! create_temp_filename random16 <> Some Dir ->
  exists s',
    save_to_temp w random16 input s = (Ret (create_temp_filename random16), s') /\
    fs s' !! create_temp_filename random16 = Some (File input) /\
    is_file (fs s') (create_temp_filename random16) = true /\
    forall q, q <> create_temp_filename random16 -> fs s' !! q = fs s !! q.
Proof.
  intros Ho Hd Hn.
  unfold save_to_temp. rewrite bind_run, open_wb_run, Ho.
  rewrite fs_entry_temp_location, (parent_error_temp _ _), (is_dir_entry _ _ Hd).
  change (string_eqb (create_temp_filename random16) "") with false.
  cbv iota.
  unfold file_write, bind, get_state, set_fs, ret.
  destruct (fs s !! create_temp_filename random16) as [[d|]|] eqn:E;
    try congruence;
    cbn [fs log _aria2c_installed]; rewrite lookup_insert_eq;
    cbn [fs log _aria2c_installed]; rewrite insert_insert_eq;
    (eexists; split; [reflexivity|]); cbn [fs];
    (split; [apply lookup_insert_eq|]);
    (split; [unfold is_file; rewrite fs_entry_temp_location, lookup_insert_eq;
             reflexivity|]);
    intros q Hq; apply lookup_insert_ne; congruence.
Qed.

Lemma save_to_temp_round_trip_witness :
  exists s',
    save_to_temp world_no_accelerator random_a7 chunk1 state_with_temp
    = (Ret (create_temp_filename random_a7), s') /\
    fs s' !! create_temp_filename random_a7 = Some (File chunk1) /\
    is_file (fs s') (create_temp_filename random_a7) = true /\
    forall q, q <> create_temp_filename random_a7 ->
              fs s' !! q = fs state_with_temp !! q.
Proof.
  apply (save_to_temp_round_trip world_no_accelerator random_a7 chunk1
           state_with_temp).
  - reflexivity.
  - vm_compute. reflexivity.
  - vm_compute. discriminate.
Defined.

(** X8.  [save_to_temp] does not make the directory.  When [temp] is no
    directory and the name is free, the call raises and the file system
    is as it was: [FileNotFoundError] when there is no [temp],
    [NotADirectoryError] when [temp] is a regular file. *)
Theorem save_to_temp_without_directory w random16 input s :
  w_open w = None ->
  is_dir (fs s) "temp" = false ->
  fs s !! create_temp_filename random16 = None ->
  exists s',
    save_to_temp w random16 input s
    = (Raise (if is_file (fs s) "temp"
              then ENOTDIR (create_temp_filename random16)
              else ENOENT (create_temp_filename random16)), s') /\
    fs s' = fs s.
Proof.
  intros Ho Hd Hn.
  unfold save_to_temp. rewrite bind_run, open_wb_run, Ho.
  rewrite fs_entry_temp_location, Hn, (parent_error_temp _ _).
  change (string_eqb (create_temp_filename random16) "") with false.
  cbv iota. unfold is_dir, is_file in *.
  destruct (fs_entry (fs s) "temp") as [[d|]|]; try discriminate Hd;
    eexists; split; reflexivity.
Qed.

Lemma save_to_temp_without_directory_witness :
  exists s',
    save_to_temp world_no_accelerator random_a7 chunk1 state_temp_is_file
    = (Raise (if is_file (fs state_temp_is_file) "temp"
              then ENOTDIR (create_temp_filename random_a7)
              else ENOENT (create_temp_filename random_a7)), s') /\
    fs s' = fs state_temp_is_file.
Proof.
  apply (save_to_temp_without_directory world_no_accelerator
           random_a7 chunk1 state_temp_is_file); reflexivity.
Defined.

(** ** [silentremove], lines 205-210 *)

Lemma silentremove_not_directory p s :
  fs_entry (fs s) p <> Some Dir ->
  parent_error (fs s) p <> Some (ENOTDIR p) ->
  exists s', silentremove p s = (Ret tt, s') /\ fs s' = delete p (fs s).
Proof.
  intros Hn Hw. destruct (fs_entry (fs s) p) as [[d|]|] eqn:E; try congruence.
  - rewrite (silentremove_file p s d E). eexists. split; reflexivity.
  - rewrite (silentremove_missing p s E).
    destruct (lookup_dirs_cases (fs s) (path_prefixes (dirname p)) p)
      as [H | [H | H]]; unfold parent_error in *; try congruence;
      rewrite H; (eexists; split; [reflexivity|]); cbn [fs];
      symmetry; apply delete_id, fs_entry_None_lookup, E.
Qed.

(** X9.  On a plain name (relative, with no empty component, no [.] and
    no [..]) that is not a directory, with no regular file on the way to
    it, [silentremove] returns normally, whether the path exists or not;
    afterwards the path has no entry and every other entry is as it
    was. *)
Theorem silentremove_removes_or_ignores p s :
  plain_name p = true ->
  fs_entry (fs s) p <> Some Dir ->
  parent_error (fs s) p <> Some (ENOTDIR p) ->
  exists s',
    silentremove p s = (Ret tt, s') /\
    fs s' = delete p (fs s) /\
    fs s' !! p = None /\
    forall q, q <> p -> fs s' !! q = fs s !! q.
Proof.
  intros _ Hn Hw.
  destruct (silentremove_not_directory p s Hn Hw) as (s' & E & Hf).
  exists s'. repeat apply conj.
  - exact E.
  - exact Hf.
  - rewrite Hf. apply lookup_delete_eq.
  - intros q Hq. rewrite Hf. apply lookup_delete_ne. congruence.
Qed.

Lemma silentremove_removes_or_ignores_witness :
  exists s',
    silentremove "cover.jpg" state_with_cover = (Ret tt, s') /\
    fs s' = delete "cover.jpg" (fs state_with_cover) /\
    fs s' !! "cover.jpg" = None /\
    forall q, q <> "cover.jpg" -> fs s' !! q = fs state_with_cover !! q.
Proof.
  apply (silentremove_removes_or_ignores "cover.jpg" state_with_cover).
  - vm_compute. reflexivity.
  - vm_compute. discriminate.
  - vm_compute. discriminate.
Defined.

(** Under a regular file there is nothing to remove, and the error of
    [os.remove] is not [ENOENT]: it is raised. *)
Lemma silentremove_under_file p s :
  fs_entry (fs s) p = None ->
  parent_error (fs s) p = Some (ENOTDIR p) ->
  silentremove p s
  = (Raise (ENOTDIR p),
     State (_aria2c_installed s) (fs s) (log s ++ [EvRemove p])).
Proof.
  intros E H. rewrite (silentremove_missing p s E), H. reflexivity.
Qed.

(** X10.  On a directory [silentremove] raises the error of [os.remove],
    which is not [ENOENT], and removes nothing. *)
Theorem silentremove_directory_raises p s :
  fs_entry (fs s) p = Some Dir ->
  exists s',
    silentremove p s = (Raise (EISDIR p), s') /\
    is_OSError (EISDIR p) = true /\
    errno_is_ENOENT (EISDIR p) = false /\
    fs s' = fs s.
Proof.
  intros Hd. unfold silentremove, try_except, os_remove, bind, emit,
    get_state, set_fs, raise. cbn [fs log _aria2c_installed].
  rewrite Hd. cbn. eexists. repeat split.
Qed.

Lemma silentremove_directory_raises_witness :
  exists s',
    silentremove "temp" state_with_temp = (Raise (EISDIR "temp"), s') /\
    is_OSError (EISDIR "temp") = true /\
    errno_is_ENOENT (EISDIR "temp") = false /\
    fs s' = fs state_with_temp.
Proof.
  apply (silentremove_directory_raises "temp" state_with_temp).
  vm_compute. reflexivity.
Defined.

(** ** [is_aria2c_installed], lines 45-53 *)

Lemma transfer_probed w url p headers bar indent s b :
  _aria2c_installed s = Some b ->
  transfer w url p headers bar indent s
  = (do locals <- (if b then try_aria2c w url p headers bar indent
                   else ret (Frame false None));
     if negb (aria2c_used locals)
     then fallback w url p headers bar indent else ret tt) s.
Proof.
  intros Hc. unfold transfer, is_aria2c_installed, bind at 1 2 3, get_state, ret.
  rewrite Hc. cbv beta iota. unfold bind at 1. cbv beta iota. rewrite Hc.
  reflexivity.
Qed.

Lemma download_file_probed w url p headers bar indent artwork s b :
  _aria2c_installed s = Some b ->
  download_file w url p headers bar indent artwork s
  = (do found <- os_path_isfile p;
     if found then ret tt
     else
       run (do locals <- (if b then try_aria2c w url p headers bar indent
                          else ret (Frame false None));
            if negb (aria2c_used locals)
            then fallback w url p headers bar indent else ret tt);
       postprocess w p indent artwork) s.
Proof.
  intros Hc. unfold download_file, transfer, is_aria2c_installed,
    os_path_isfile, bind, get_state, ret.
  destruct (is_file (fs s) p); [reflexivity|].
  rewrite Hc. cbv beta iota. rewrite Hc. reflexivity.
Qed.

Lemma aria2c_command_not_probe url d f headers :
  ~ is_version_probe (EvSubprocess (aria2c_command url d f headers)).
Proof. unfold is_version_probe, aria2c_command. intros H. discriminate H. Qed.

(** X11.  The probe runs at most once: when the cache holds an answer,
    [is_aria2c_installed] returns it without starting a process, no call
    of [download_file] starts the version probe, and the cache holds the
    same answer after the call, so that the same is true of every later
    call. *)
Theorem probe_runs_once w url p headers bar indent artwork s b :
  _aria2c_installed s = Some b ->
  is_aria2c_installed w s = (Ret (Some b), s) /\
  (exists l,
     log (snd (download_file w url p headers bar indent artwork s)) = log s ++ l /\
     Forall (fun ev => ~ is_version_probe ev) l) /\
  _aria2c_installed (snd (download_file w url p headers bar indent artwork s))
    = Some b.
Proof.
  intros Hc. split; [|split].
  - unfold is_aria2c_installed, bind, get_state, ret.
    rewrite Hc. cbv beta iota. rewrite Hc. reflexivity.
  - rewrite (download_file_probed _ _ _ _ _ _ _ _ _ Hc).
    match goal with |- exists l, log (snd (?m s)) = _ /\ _ =>
      assert (E : emits (fun ev => ~ is_version_probe ev) m) end.
    { unfold_calls.
      repeat first
        [ apply emits_silentremove; intros; discriminate
        | apply emits_write_chunks; intros; discriminate
        | apply emits_mkdir_each
        | apply emits_session_get
        | emits_step ];
        first [ apply aria2c_command_not_probe
              | intros H; discriminate H
              | intros ? H; discriminate H ]. }
    apply E.
  - apply download_file_keeps_probed_cache, Hc.
Qed.

Lemma probe_runs_once_witness :
  is_aria2c_installed world_binary_vanished state_probed
  = (Ret (Some true), state_probed) /\
  (exists l,
     log (snd (call_binary_vanished "a.bin" state_probed))
     = log state_probed ++ l /\
     Forall (fun ev => ~ is_version_probe ev) l) /\
  _aria2c_installed (snd (call_binary_vanished "a.bin" state_probed))
    = Some true.
Proof.
  apply (probe_runs_once world_binary_vanished "http://h/a.bin" "music/a.bin"
           [] false 0 None state_probed true).
  reflexivity.
Defined.

(** X12.  The probe catches [CalledProcessError] and [FileNotFoundError]
    only.  When the version query raises anything else (the binary is not
    executable, say), [download_file] raises it: nothing is cached, no
    transfer is tried and the file system is as it was. *)
Theorem probe_error_is_fatal w url p headers bar indent artwork s e :
  _aria2c_installed s = None ->
  is_file (fs s) p = false ->
  w_version w = Raise e ->
  is_CalledProcessError e = false ->
  is_FileNotFoundError e = false ->
  download_file w url p headers bar indent artwork s
  = (Raise e,
     State None (fs s) (log s ++ [EvSubprocess ["aria2c"; "--version"]])).
Proof.
  intros Hc Hf Hv H1 H2.
  unfold download_file, os_path_isfile, bind at 1 2, get_state, ret.
  cbv beta iota. rewrite Hf.
  unfold bind at 1, transfer, bind at 1, is_aria2c_installed, bind at 1 2,
    get_state. cbv beta iota. rewrite Hc.
  unfold try_except, subprocess_run, bind at 1 2, emit, lift. rewrite Hv.
  cbn [raise]. unfold bind at 1, raise. cbv beta iota. rewrite H1, H2.
  cbn [orb]. rewrite Hc. reflexivity.
Qed.

Lemma probe_error_is_fatal_witness :
  download_file
    (world_of (Raise (Exn PermissionError "[Errno 13] Permission denied: 'aria2c'"))
       version_missing None (served 200 None) (decode_ok (Image "RGB" (1, 1))))
    "http://h/cover.jpg" "cover.jpg" [] false 0 None init_state
  = (Raise (Exn PermissionError "[Errno 13] Permission denied: 'aria2c'"),
     State None (fs init_state)
       (log init_state ++ [EvSubprocess ["aria2c"; "--version"]])).
Proof.
  apply (probe_error_is_fatal
           (world_of (Raise (Exn PermissionError "[Errno 13] Permission denied: 'aria2c'"))
              version_missing None (served 200 None) (decode_ok (Image "RGB" (1, 1))))
           "http://h/cover.jpg" "cover.jpg" [] false 0 None init_state
           (Exn PermissionError "[Errno 13] Permission denied: 'aria2c'"));
    reflexivity.
Defined.

(** ** The fallback, lines 114-153 *)

Lemma write_chunks_content p bar chunks : forall s d,
  fs s !! p = Some (File d) ->
  exists l,
    write_chunks p bar chunks s
    = (Ret tt, State (_aria2c_installed s)
                 (<[p := File (d ++ List.concat chunks)]> (fs s)) (log s ++ l)).
Proof.
  induction chunks as [|c rest IH]; intros s d Hd.
  - exists []. cbn [write_chunks List.concat]. rewrite !app_nil_r.
    rewrite (insert_id _ _ _ Hd). destruct s; reflexivity.
  - cbn [write_chunks List.concat]. destruct c as [|b c'].
    + unfold bind at 1, ret. cbv beta iota. apply (IH s d Hd).
    + unfold bind at 1 2, file_write, bind at 1, get_state. cbv beta iota.
      rewrite Hd. unfold set_fs. cbv beta iota.
      set (s1 := State (_aria2c_installed s)
                   (<[p := File (d ++ b :: c')]> (fs s)) (log s)).
      destruct (when bar (emit (EvBarUpdate (Z.of_nat (List.length (b :: c'))))) s1)
        as [o s2] eqn:Ew.
      assert (Hw : o = Ret tt /\ _aria2c_installed s2 = _aria2c_installed s /\
                   fs s2 = <[p := File (d ++ b :: c')]> (fs s) /\
                   exists l0, log s2 = log s ++ l0).
      { destruct bar; cbn in Ew; injection Ew as <- <-; cbn;
          repeat split; eauto. exists []. rewrite app_nil_r. reflexivity. }
      destruct Hw as (-> & Hc2 & Hf2 & l0 & Hl2).
      destruct (IH s2 (d ++ b :: c')) as [l E].
      { rewrite Hf2. apply lookup_insert_eq. }
      exists (l0 ++ l). rewrite E, Hc2, Hf2, Hl2, insert_insert_eq.
      rewrite <- !app_assoc. reflexivity.
Qed.

Lemma open_wb_ok w p s :
  w_open w = None ->
  fs_entry (fs s) p <> Some Dir ->
  p <> "" ->
  parent_error (fs s) p = None ->
  open_wb w p s
  = (Ret tt, State (_aria2c_installed s) (<[p := File []]> (fs s))
               (log s ++ [EvOpenWb p])).
Proof.
  intros Hopen Hnd Hne Hpar.
  rewrite open_wb_run, Hopen, Hpar, (proj2 (string_eqb_ne _ _) Hne).
  destruct (fs_entry (fs s) p) as [[d|]|]; try congruence; reflexivity.
Qed.

Lemma plain_name_nonempty p : plain_name p = true -> p <> "".
Proof. intros H ->. discriminate H. Qed.

Lemma iter_content_ok p b r s d :
  fs s !! p = Some (File d) ->
  body_error r = None ->
  exists l,
    iter_content p b r s
    = (Ret tt, State (_aria2c_installed s)
                 (<[p := File (d ++ List.concat (body r))]> (fs s)) (log s ++ l)).
Proof.
  intros Hd Hb. unfold iter_content. rewrite bind_run.
  destruct (write_chunks_content p b (body r) s d Hd) as [l E].
  rewrite E, Hb. exists l. reflexivity.
Qed.

Lemma open_bar_run w n indent s :
  exists ev, open_bar w n indent s
             = (Ret tt, State (_aria2c_installed s) (fs s) (log s ++ [ev])).
Proof. unfold open_bar. destruct (w_columns w); eexists; reflexivity. Qed.

Lemma write_response_ok w p bar indent r total s :
  w_open w = None ->
  fs_entry (fs s) p <> Some Dir ->
  p <> "" ->
  parent_error (fs s) p = None ->
  body_error r = None ->
  exists l,
    write_response w p bar indent r total s
    = (Ret tt, State (_aria2c_installed s)
                 (<[p := File (List.concat (body r))]> (fs s)) (log s ++ l)).
Proof.
  intros Hopen Hnd Hne Hpar Hbody.
  unfold write_response. rewrite bind_run, (open_wb_ok w p s Hopen Hnd Hne Hpar).
  set (s1 := State (_aria2c_installed s) (<[p := File []]> (fs s))
               (log s ++ [EvOpenWb p])).
  assert (Hi : forall b s2, _aria2c_installed s2 = _aria2c_installed s ->
            fs s2 = <[p := File []]> (fs s) ->
            (exists l2, log s2 = log s ++ l2) ->
            exists l, iter_content p b r s2
            = (Ret tt, State (_aria2c_installed s)
                         (<[p := File (List.concat (body r))]> (fs s))
                         (log s ++ l))).
  { intros b s2 Hc2 Hf2 [l2 Hl2].
    destruct (iter_content_ok p b r s2 []) as [l E]; [|exact Hbody|].
    { rewrite Hf2. apply lookup_insert_eq. }
    exists (l2 ++ l). rewrite E, Hc2, Hf2, Hl2, insert_insert_eq, <- app_assoc.
    reflexivity. }
  assert (H1 : exists l, iter_content p false r s1
            = (Ret tt, State (_aria2c_installed s)
                         (<[p := File (List.concat (body r))]> (fs s))
                         (log s ++ l))).
  { apply Hi; [reflexivity | reflexivity | eexists; reflexivity]. }
  destruct total as [n|]; [destruct (bar && negb (n =? 0))|]; try exact H1.
  rewrite bind_run. destruct (open_bar_run w n indent s1) as [ev ->].
  rewrite bind_run.
  edestruct (Hi true) as [l E]; [| | |rewrite E].
  - reflexivity.
  - reflexivity.
  - cbn [log]. unfold s1. cbn [log]. rewrite <- app_assoc. eexists. reflexivity.
  - exists (l ++ [EvBarClose]). unfold emit. cbn [fs log _aria2c_installed].
    rewrite app_assoc. reflexivity.
Qed.

Lemma fallback_body w url p headers bar indent r s :
  w_get w = Ret r ->
  (400 <=? status_code r) && (status_code r <? 600) = false ->
  length_header r <> BadLength ->
  body_error r = None ->
  w_open w = None ->
  fs_entry (fs s) p <> Some Dir ->
  p <> "" ->
  parent_error (fs s) p = None ->
  exists l,
    fallback w url p headers bar indent s
    = (Ret tt, State (_aria2c_installed s)
                 (<[p := File (List.concat (body r))]> (fs s)) (log s ++ l)).
Proof.
  intros Hg Hst Hlen Hbody Hopen Hnd Hne Hpar.
  unfold fallback. rewrite bind_run.
  destruct (session_get_run w url headers s) as [sleeps Eg]. rewrite Hg in Eg.
  rewrite Eg, bind_run. unfold raise_for_status. rewrite Hst.
  unfold ret at 1. rewrite bind_run.
  set (s0 := State (_aria2c_installed s) (fs s)
               (log s ++ request_events url headers sleeps)).
  assert (Hw : forall total, exists l,
            stream_to_file w p bar indent r total s0
            = (Ret tt, State (_aria2c_installed s)
                         (<[p := File (List.concat (body r))]> (fs s))
                         (log s ++ l))).
  { intros total. unfold stream_to_file, try_except.
    destruct (write_response_ok w p bar indent r total s0 Hopen Hnd Hne Hpar
                Hbody) as [l ->].
    unfold s0. cbn [fs log _aria2c_installed]. rewrite <- app_assoc.
    eexists. reflexivity. }
  destruct (length_header r) as [|n|]; try congruence; unfold ret at 1; apply Hw.
Qed.

(** X13.  When the request is answered with a status outside 400-599, a
    usable length header and a body that arrives whole, and the destination
    can be opened (it is a plain name: relative, with no empty component,
    no [.] and no [..]; it is no directory and every directory on the way
    to it is there), the fallback returns and
    the destination holds the chunks of the body, in order, and nothing
    else: what a failed accelerator had left there is overwritten, not
    appended to.  No other entry of the file system changes. *)
Theorem fallback_writes_body w url p headers bar indent r s :
  w_get w = Ret r ->
  (400 <=? status_code r) && (status_code r <? 600) = false ->
  length_header r <> BadLength ->
  body_error r = None ->
  w_open w = None ->
  fs_entry (fs s) p <> Some Dir ->
  plain_name p = true ->
  parent_error (fs s) p = None ->
  exists s',
    fallback w url p headers bar indent s = (Ret tt, s') /\
    fs s' !! p = Some (File (List.concat (body r))) /\
    (forall q, q <> p -> fs s' !! q = fs s !! q) /\
    _aria2c_installed s' = _aria2c_installed s.
Proof.
  intros Hg Hst Hlen Hbody Hopen Hnd Hbase Hpar.
  destruct (fallback_body w url p headers bar indent r s
              Hg Hst Hlen Hbody Hopen Hnd (plain_name_nonempty p Hbase) Hpar)
    as [l E].
  eexists. split; [exact E|]. cbn [fs _aria2c_installed].
  repeat apply conj.
  - apply lookup_insert_eq.
  - intros q Hq. apply lookup_insert_ne. congruence.
  - reflexivity.
Qed.

Lemma fallback_writes_body_witness :
  exists s',
    fallback world_no_accelerator "http://h/cover.jpg" "cover.jpg" [] true 2
      state_with_cover = (Ret tt, s') /\
    fs s' !! "cover.jpg"
    = Some (File (List.concat (body (Response 200 (Length 5)
                                       [chunk1; chunk2] None)))) /\
    (forall q, q <> "cover.jpg" -> fs s' !! q = fs state_with_cover !! q) /\
    _aria2c_installed s' = _aria2c_installed state_with_cover.
Proof.
  apply (fallback_writes_body world_no_accelerator "http://h/cover.jpg"
           "cover.jpg" [] true 2 (Response 200 (Length 5) [chunk1; chunk2] None)
           state_with_cover);
    try reflexivity; vm_compute; discriminate.
Defined.

Lemma download_file_body w url p headers bar indent r s :
  _aria2c_installed s = Some false ->
  fs_entry (fs s) p = None ->
  p <> "" ->
  parent_error (fs s) p = None ->
  w_get w = Ret r ->
  (400 <=? status_code r) && (status_code r <? 600) = false ->
  length_header r <> BadLength ->
  body_error r = None ->
  w_open w = None ->
  exists l,
    download_file w url p headers bar indent None s
    = (Ret tt, State (Some false) (<[p := File (List.concat (body r))]> (fs s))
                 (log s ++ l)).
Proof.
  intros Hc Hp Hne Hpar Hg Hst Hlen Hbody Hopen.
  destruct (fallback_body w url p headers bar indent r s
              Hg Hst Hlen Hbody Hopen) as [l E];
    [congruence | exact Hne | exact Hpar |].
  exists l.
  rewrite (download_file_unavailable _ _ _ _ _ _ _ _ Hc).
  unfold os_path_isfile, bind at 1 2, get_state, ret. cbv beta iota.
  unfold is_file at 1. rewrite Hp. unfold bind at 1. rewrite E.
  unfold postprocess, os_path_isfile, bind, get_state, ret. rewrite Hc.
  reflexivity.
Qed.

(** X14.  With the accelerator known to be unavailable, a destination
    that is a plain name (relative, with no empty component, no [.] and no
    [..]), that does not exist, and to which every directory on the way
    does, and a request that is answered whole,
    [download_file] returns and the destination is a regular file that
    holds the body byte for byte. *)
Theorem download_file_streams_body w url p headers bar indent r s :
  _aria2c_installed s = Some false ->
  fs_entry (fs s) p = None ->
  plain_name p = true ->
  parent_error (fs s) p = None ->
  w_get w = Ret r ->
  (400 <=? status_code r) && (status_code r <? 600) = false ->
  length_header r <> BadLength ->
  body_error r = None ->
  w_open w = None ->
  exists l,
    download_file w url p headers bar indent None s
    = (Ret tt, State (Some false) (<[p := File (List.concat (body r))]> (fs s))
                 (log s ++ l)) /\
    is_file (<[p := File (List.concat (body r))]> (fs s)) p = true.
Proof.
  intros Hc Hp Hbase Hpar Hg Hst Hlen Hbody Hopen.
  destruct (download_file_body w url p headers bar indent r s
              Hc Hp (plain_name_nonempty p Hbase) Hpar Hg Hst Hlen Hbody Hopen)
    as [l E].
  exists l. split; [exact E|].
  unfold is_file. rewrite (fs_entry_insert_absent _ _ _ Hp). reflexivity.
Qed.

Lemma download_file_streams_body_witness :
  exists l,
    download_file world_no_accelerator "http://h/cover.jpg" "cover.jpg" [] false 0
      None state_unavailable
    = (Ret tt, State (Some false)
                 (<["cover.jpg" := File (List.concat [chunk1; chunk2])]>
                    (fs state_unavailable))
                 (log state_unavailable ++ l)) /\
    is_file (<["cover.jpg" := File (List.concat [chunk1; chunk2])]>
               (fs state_unavailable)) "cover.jpg" = true.
Proof.
  apply (download_file_streams_body world_no_accelerator "http://h/cover.jpg"
           "cover.jpg" [] false 0 (Response 200 (Length 5) [chunk1; chunk2] None)
           state_unavailable);
    try reflexivity; vm_compute; discriminate.
Defined.

Lemma open_wb_fs w p s :
  (exists e s', open_wb w p s = (Raise e, s') /\ fs s' = fs s) \/
  (exists s', open_wb w p s = (Ret tt, s') /\ fs s' = <[p := File []]> (fs s)).
Proof.
  rewrite open_wb_run.
  destruct (w_open w) as [e|]; [left; eauto|].
  destruct (fs_entry (fs s) p) as [[d|]|];
    try (left; do 2 eexists; split; reflexivity);
    destruct (string_eqb p ""); try (left; do 2 eexists; split; reflexivity);
    destruct (parent_error (fs s) p);
    first [ right; eexists; split; reflexivity
          | left; do 2 eexists; split; reflexivity ].
Qed.







(** ** The accelerator attempt, lines 60-111 *)

Lemma run_aria2c_run w cmd p s :
  run_aria2c w cmd p s
  = (w_aria2c w,
     State (_aria2c_installed s) (aria2c_left w p (fs s))
       (log s ++ [EvSubprocess cmd])).
Proof.
  unfold run_aria2c, aria2c_left, aria2c_wrote, bind, emit, get_state, set_fs,
    ret, lift.
  cbn [fs log _aria2c_installed].
  destruct (w_aria2c_file w), (w_aria2c_control w), (finished (w_aria2c w)),
    (w_aria2c w); reflexivity.
Qed.

Lemma aria2c_left_finished w p f pr :
  w_aria2c w = Ret pr -> returncode pr = 0 ->
  aria2c_left w p f = aria2c_wrote w p f.
Proof.
  intros Hr Hz. unfold aria2c_left, finished. rewrite Hr, Hz.
  destruct (w_aria2c_control w); reflexivity.
Qed.

(** X16.  The two transports exclude each other: when the accelerator is
    available, its directory can be made and its run exits with status 0,
    the call returns with what the accelerator wrote at the destination,
    and the only external calls are [os.makedirs], the optional message and
    the accelerator process: no request is sent and the destination is
    never opened by the fallback. *)
Theorem accelerator_success_skips_fallback w url p headers bar indent s s1 pr :
  _aria2c_installed s = Some true ->
  is_file (fs s) p = false ->
  os_makedirs w (dirname p) s = (Ret tt, s1) ->
  w_aria2c w = Ret pr ->
  returncode pr = 0 ->
  download_file w url p headers bar indent None s
  = (Ret tt,
     State (_aria2c_installed s1)
       (match w_aria2c_file w with
        | Some d => <[p := File d]> (fs s1)
        | None => fs s1
        end)
       (log s1
        ++ (if bar then [EvPrint (spaces indent +:+ "Downloading with aria2c: "
                                  +:+ basename p)] else [])
        ++ [EvSubprocess (aria2c_command url (dirname p) (basename p) headers)])).
Proof.
  intros Hc Hf Hm Hr Hz.
  rewrite (download_file_probed _ _ _ _ _ _ _ _ _ Hc).
  rewrite bind_run. unfold os_path_isfile at 1. rewrite bind_run.
  unfold get_state at 1, ret at 1. rewrite Hf.
  rewrite bind_run, bind_run.
  unfold try_aria2c. rewrite bind_run, Hm.
  unfold try_except. rewrite bind_run, when_print_run, bind_run, run_aria2c_run.
  rewrite (aria2c_left_finished w p _ pr Hr Hz), Hr.
  rewrite Hz. cbn [Z.eqb ret aria2c_used negb]. unfold aria2c_wrote.
  unfold postprocess, os_path_isfile. rewrite bind_run, bind_run.
  unfold get_state, ret. cbn [fs log _aria2c_installed].
  rewrite <- app_assoc. reflexivity.
Qed.

Lemma accelerator_success_skips_fallback_witness :
  download_file
    (world_of version_ok version_ok (Some chunk1) (served 200 None)
       (decode_ok (Image "RGB" (1, 1))))
    "http://h/cover.jpg" "music/cover.jpg" [] true 0 None state_probed
  = (Ret tt,
     State (Some true)
       (<["music/cover.jpg" := File chunk1]> (<["music" := Dir]> ∅))
       [EvMakedirs "music"; EvPrint "Downloading with aria2c: cover.jpg";
        EvSubprocess (aria2c_command "http://h/cover.jpg" "music" "cover.jpg" [])]).
Proof.
  refine (accelerator_success_skips_fallback
            (world_of version_ok version_ok (Some chunk1) (served 200 None)
               (decode_ok (Image "RGB" (1, 1))))
            "http://h/cover.jpg" "music/cover.jpg" [] true 0 state_probed
            (State (Some true) (<["music" := Dir]> ∅) [EvMakedirs "music"])
            (Process 0 "aria2 version 1.36.0" "") _ _ _ _ _);
    vm_compute; reflexivity.
Defined.

(** X17.  With the accelerator available and a destination that has no
    directory part, [os.makedirs] is called with the empty name and raises
    [FileNotFoundError] outside every [try]: the call fails before any
    transfer, whatever the server would answer, and nothing is written. *)
Theorem bare_destination_fails_with_accelerator
    w url p headers bar indent artwork s :
  _aria2c_installed s = Some true ->
  is_file (fs s) p = false ->
  dirname p = "" ->
  download_file w url p headers bar indent artwork s
  = (Raise (ENOENT ""),
     State (Some true) (fs s) (log s ++ [EvMakedirs ""])).
Proof.
  intros Hc Hf Hd.
  rewrite (download_file_probed _ _ _ _ _ _ _ _ _ Hc).
  rewrite bind_run. unfold os_path_isfile at 1. rewrite bind_run.
  unfold get_state at 1, ret at 1. rewrite Hf.
  rewrite bind_run, bind_run.
  unfold try_aria2c. rewrite bind_run, Hd.
  unfold os_makedirs, bind, emit, raise. cbn [string_eqb]. rewrite Hc.
  reflexivity.
Qed.

Lemma bare_destination_fails_with_accelerator_witness :
  download_file world_accelerator_fails "http://h/cover.jpg" "cover.jpg" []
    false 0 None state_probed
  = (Raise (ENOENT ""),
     State (Some true) (fs state_probed) (log state_probed ++ [EvMakedirs ""])).
Proof.
  apply (bare_destination_fails_with_accelerator world_accelerator_fails
           "http://h/cover.jpg" "cover.jpg" [] false 0 None state_probed);
    reflexivity.
Defined.

(** ** Invariants of the file system *)

Section Keeps.

Variable F : gmap string node -> Prop.

Lemma keeps_ret Q {A} (a : A) : keeps F Q (ret a).
Proof. intros s H. split; [exact H | discriminate]. Qed.

Lemma keeps_raise (Q : exn -> Prop) {A} e : Q e -> keeps F Q (@raise A e).
Proof. intros HQ s H. split; [exact H|]. intros e' E. injection E as <-. exact HQ. Qed.

Lemma keeps_bind Q {A B} (m : M A) (k : A -> M B) :
  keeps F Q m -> (forall a, keeps F Q (k a)) -> keeps F Q (bind m k).
Proof.
  intros Hm Hk s H. rewrite bind_run. destruct (Hm s H) as [H1 H2].
  destruct (m s) as [[a|e] s1]; cbn [fst snd] in *.
  - apply Hk, H1.
  - split; [exact H1|]. intros e' E. injection E as <-. apply H2. reflexivity.
Qed.

Lemma keeps_try_except Q {A} (m : M A) h :
  keeps F (fun _ => True) m ->
  (forall e k, h e = Some k -> keeps F Q k) ->
  (forall e, h e = None -> Q e) ->
  keeps F Q (try_except m h).
Proof.
  intros Hm Hh Hn s H. unfold try_except. destruct (Hm s H) as [H1 _].
  destruct (m s) as [[a|e] s1]; cbn [fst snd] in *.
  - split; [exact H1 | discriminate].
  - destruct (h e) as [k|] eqn:E.
    + apply (Hh e k E), H1.
    + split; [exact H1|]. intros e' E'. injection E' as <-. apply Hn, E.
Qed.

Lemma keeps_weaken (Q Q' : exn -> Prop) {A} (m : M A) :
  (forall e, Q e -> Q' e) -> keeps F Q m -> keeps F Q' m.
Proof.
  intros HQ Hm s H. destruct (Hm s H) as [H1 H2]. split; [exact H1|].
  intros e E. apply HQ, H2, E.
Qed.

Lemma keeps_get_state Q : keeps F Q get_state.
Proof. intros s H. split; [exact H | discriminate]. Qed.

Lemma keeps_emit Q ev : keeps F Q (emit ev).
Proof. intros s H. split; [exact H | discriminate]. Qed.

Lemma keeps_set_aria2c_installed Q v : keeps F Q (set_aria2c_installed v).
Proof. intros s H. split; [exact H | discriminate]. Qed.

Lemma keeps_lift {A} (o : outcome A) : keeps F (fun _ => True) (lift o).
Proof. intros s H. destruct o; split; auto; discriminate. Qed.

Lemma keeps_session_get w url headers :
  keeps F (fun _ => True) (session_get w url headers).
Proof.
  intros s H. destruct (session_get_run w url headers s) as [sleeps ->].
  split; [exact H | auto].
Qed.

Lemma keeps_fail_with o : keeps F (fun _ => True) (fail_with o).
Proof. intros s H. destruct o; split; auto; discriminate. Qed.

Lemma keeps_when Q b m : keeps F Q m -> keeps F Q (when b m).
Proof. destruct b; [auto | intros _; apply keeps_ret]. Qed.

Lemma keeps_os_path_isfile Q p : keeps F Q (os_path_isfile p).
Proof. intros s H. split; [exact H | discriminate]. Qed.

Lemma keeps_os_path_exists Q p : keeps F Q (os_path_exists p).
Proof. intros s H. split; [exact H | discriminate]. Qed.

Lemma keeps_os_path_getsize p : keeps F (fun _ => True) (os_path_getsize p).
Proof.
  intros s H. unfold os_path_getsize, bind, get_state, ret, raise.
  destruct (fs_entry (fs s) p) as [[d|]|]; split; auto.
Qed.

Variable p : string.
Hypothesis F_write : forall f d, F f -> F (<[p := File d]> f).
Hypothesis F_delete : forall f, F f -> F (delete p f).
Hypothesis F_control : forall f c, F f -> F (<[control_file p := File c]> f).

Lemma keeps_os_remove : keeps F (fun _ => True) (os_remove p).
Proof.
  intros s H. unfold os_remove, bind, emit, get_state, set_fs, raise.
  cbn [fs log _aria2c_installed].
  destruct (fs_entry (fs s) p) as [[d|]|]; cbn [fst snd fs]; split; auto.
Qed.

Lemma keeps_silentremove : keeps F (fun _ => True) (silentremove p).
Proof.
  unfold silentremove. apply keeps_try_except; [apply keeps_os_remove | | auto].
  intros e k Hh. destruct (is_OSError e); [|discriminate]. injection Hh as <-.
  destruct (negb (errno_is_ENOENT e)); [apply keeps_raise; exact I | apply keeps_ret].
Qed.

Lemma keeps_run_aria2c w cmd : keeps F (fun _ => True) (run_aria2c w cmd p).
Proof.
  intros s H. rewrite run_aria2c_run. cbn [fst snd fs]. split; [|auto].
  assert (Hw : F (aria2c_wrote w p (fs s))).
  { unfold aria2c_wrote. destruct (w_aria2c_file w); auto. }
  unfold aria2c_left.
  destruct (w_aria2c_control w); [destruct (finished (w_aria2c w))|]; auto.
Qed.

Lemma keeps_open_wb w : keeps F (fun _ => True) (open_wb w p).
Proof.
  intros s H. destruct (open_wb_fs w p s) as [(e & s' & E & Hf) | (s' & E & Hf)];
    rewrite E; cbn [fst snd]; rewrite Hf; split; auto.
Qed.

Lemma keeps_file_write chunk : keeps F (fun _ => True) (file_write p chunk).
Proof.
  intros s H. unfold file_write, bind, get_state, set_fs.
  destruct (fs s !! p) as [[d|]|]; cbn [fst snd fs]; split; auto.
Qed.

Lemma keeps_write_chunks b chunks :
  keeps F (fun _ => True) (write_chunks p b chunks).
Proof.
  induction chunks as [|c rest IH]; [apply keeps_ret|].
  cbn [write_chunks]. apply keeps_bind; [|intros; exact IH].
  destruct c; [apply keeps_ret|].
  apply keeps_bind; [apply keeps_file_write|]. intros _.
  apply keeps_when, keeps_emit.
Qed.

Lemma keeps_image_save w im format opts :
  keeps F (fun _ => True) (image_save w im p format opts).
Proof.
  intros s H. unfold image_save, bind, emit, lift, get_state, set_fs, ret, raise.
  cbn [fs log _aria2c_installed].
  destruct (w_encode w format opts im); [|destruct (w_save_written w)];
    try destruct (fs_entry (fs s) p) as [[d|]|];
    cbn [fst snd fs]; split; auto.
Qed.

Lemma keeps_image_open w : keeps F (fun _ => True) (image_open w p).
Proof.
  intros s H. unfold image_open, bind, emit, lift, get_state, ret, raise.
  cbn [fs log _aria2c_installed].
  destruct (fs_entry (fs s) p) as [[d|]|]; [destruct (w_decode w d)| |];
    cbn [fst snd fs]; split; auto.
Qed.

End Keeps.

Ltac keeps_handler H :=
  repeat match type of H with
         | (if ?c then _ else _) = _ => destruct c eqn:?
         end;
  first [discriminate H | injection H as <-].

Ltac keeps_step :=
  match goal with
  | |- keeps _ _ (ret _) => apply keeps_ret
  | |- keeps _ _ get_state => apply keeps_get_state
  | |- keeps _ _ (set_aria2c_installed _) => apply keeps_set_aria2c_installed
  | |- keeps _ _ (print _) => apply keeps_emit
  | |- keeps _ _ (emit _) => apply keeps_emit
  | |- keeps _ _ (when _ _) => apply keeps_when
  | |- keeps _ _ (os_path_isfile _) => apply keeps_os_path_isfile
  | |- keeps _ _ (os_path_exists _) => apply keeps_os_path_exists
  | |- keeps _ _ (bind _ _) => apply keeps_bind; [| intros ?]
  | |- keeps _ (fun _ => True) (raise _) => apply keeps_raise; exact I
  | |- keeps _ (fun _ => True) (lift _) => apply keeps_lift
  | |- keeps _ (fun _ => True) (fail_with _) => apply keeps_fail_with
  | |- keeps _ (fun _ => True) (session_get _ _ _) => apply keeps_session_get
  | |- keeps _ (fun _ => True) (os_path_getsize _) => apply keeps_os_path_getsize
  | |- keeps _ (fun _ => True) (silentremove _) => apply keeps_silentremove; assumption
  | |- keeps _ (fun _ => True) (run_aria2c _ _ _) => apply keeps_run_aria2c; assumption
  | |- keeps _ (fun _ => True) (open_wb _ _) => apply keeps_open_wb; assumption
  | |- keeps _ (fun _ => True) (write_chunks _ _ _) => apply keeps_write_chunks; assumption
  | |- keeps _ (fun _ => True) (image_save _ _ _ _ _) => apply keeps_image_save; assumption
  | |- keeps _ (fun _ => True) (image_open _ _) => apply keeps_image_open
  | |- keeps _ (fun _ => True) (try_except _ _) =>
      let H := fresh "Hh" in
      apply keeps_try_except;
        [| intros ? ? H; keeps_handler H | intros; exact I]
  | |- keeps _ _ (match ?x with _ => _ end) => destruct x eqn:?
  end.

Ltac unfold_compound :=
  unfold download_file, transfer, postprocess, process_artwork, fallback,
    stream_to_file, write_response, try_aria2c, is_aria2c_installed,
    iter_content, open_bar, subprocess_run, raise_for_status,
    image_convert, image_resize.

(** ** The accelerator attempt is never fatal *)




(** ** What a call may touch *)

Lemma keeps_mkdir_each (F : gmap string node -> Prop) ps :
  (forall f q, q ∈ ps -> F f -> F (<[q := Dir]> f)) ->
  keeps F (fun _ => True) (mkdir_each ps).
Proof.
  induction ps as [|q rest IH]; intros HF; [apply keeps_ret|].
  assert (IH' : keeps F (fun _ => True) (mkdir_each rest)).
  { apply IH. intros f q' Hq. apply HF. apply list_elem_of_further, Hq. }
  intros s H. cbn [mkdir_each]. unfold bind, get_state, set_fs.
  cbv beta iota.
  destruct (fs_entry (fs s) q) as [[d|]|].
  - destruct rest; split; [exact H | auto | exact H | auto].
  - apply IH', H.
  - apply IH'. cbn [fs]. apply HF; [apply list_elem_of_here | exact H].
Qed.

Lemma keeps_os_makedirs (F : gmap string node -> Prop) w name :
  (forall f q, q ∈ path_prefixes name -> F f -> F (<[q := Dir]> f)) ->
  keeps F (fun _ => True) (os_makedirs w name).
Proof.
  intros HF. unfold os_makedirs.
  apply keeps_bind; [apply keeps_emit|]. intros _.
  destruct (string_eqb name ""); [apply keeps_raise; exact I|].
  apply keeps_bind; [apply keeps_fail_with|]. intros _.
  apply keeps_mkdir_each, HF.
Qed.

(** X19.  On a file system without links, with the destination and the
    other path both plain names (relative, no empty component, no [.] and
    no [..], so that different names are different entries), a call of
    [download_file] touches the destination, the control file
    [<destination>.aria2] that the accelerator keeps beside it, and the
    directories above the destination, and nothing else: every other entry
    of the file system is after the call what it was before, however the
    call ends. *)
Theorem download_file_footprint w url p headers bar indent artwork s q :
  plain_name p = true ->
  plain_name q = true ->
  q <> p ->
  q <> control_file p ->
  q ∉ path_prefixes (dirname p) ->
  fs (snd (download_file w url p headers bar indent artwork s)) !! q
  = fs s !! q.
Proof.
  intros _ _ Hq1 Hq3 Hq2.
  set (F := fun f : gmap string node =>
              forall q, ~ footprint p q -> f !! q = fs s !! q).
  assert (F_write : forall f d, F f -> F (<[p := File d]> f)).
  { intros f d Hf q' Hn. rewrite lookup_insert_ne; [apply Hf, Hn|].
    intros ->. apply Hn. left. reflexivity. }
  assert (F_delete : forall f, F f -> F (delete p f)).
  { intros f Hf q' Hn. rewrite lookup_delete_ne; [apply Hf, Hn|].
    intros ->. apply Hn. left. reflexivity. }
  assert (F_control : forall f c, F f -> F (<[control_file p := File c]> f)).
  { intros f c Hf q' Hn. rewrite lookup_insert_ne; [apply Hf, Hn|].
    intros <-. apply Hn. right. left. reflexivity. }
  assert (F_mkdir : forall f q', q' ∈ path_prefixes (dirname p) -> F f ->
                                 F (<[q' := Dir]> f)).
  { intros f q' Hin Hf q'' Hn. rewrite lookup_insert_ne; [apply Hf, Hn|].
    intros ->. apply Hn. right. right. exact Hin. }
  assert (K : keeps F (fun _ => True)
                (download_file w url p headers bar indent artwork)).
  { unfold_compound.
    repeat first
      [ apply keeps_os_makedirs; exact F_mkdir
      | apply keeps_session_get
      | keeps_step ]. }
  destruct (K s) as [H _]; [intros ? _; reflexivity|].
  apply H. intros [-> | [-> | Hin]];
    [apply Hq1; reflexivity | apply Hq3; reflexivity | apply Hq2, Hin].
Qed.

Lemma download_file_footprint_witness :
  fs (snd (download_file (leaving_control chunk2 world_accelerator_fails)
             "http://h/cover.jpg" "music/cover.jpg" [] false 0 None
             state_with_cover)) !! "cover.jpg"
  = fs state_with_cover !! "cover.jpg".
Proof.
  apply (download_file_footprint (leaving_control chunk2 world_accelerator_fails)
           "http://h/cover.jpg" "music/cover.jpg" [] false 0 None
           state_with_cover "cover.jpg").
  - vm_compute. reflexivity.
  - vm_compute. reflexivity.
  - discriminate.
  - discriminate.
  - intros H.
    assert (E : path_prefixes (dirname "music/cover.jpg") = ["music"])
      by (vm_compute; reflexivity).
    rewrite E in H. apply list_elem_of_singleton in H. discriminate H.
Defined.

(** The control file of an accelerator run that did not finish stays
    beside the destination: the fallback and the clean-up never touch
    it. *)
Lemma control_file_is_left_behind :
  fs (snd (download_file (leaving_control chunk2 world_accelerator_fails)
             "http://h/cover.jpg" "music/cover.jpg" [] false 0 None
             state_probed)) !! "music/cover.jpg.aria2"
  = Some (File chunk2).
Proof. vm_compute. reflexivity. Qed.

(** ** The progress display is an observer *)

Lemma agree_refl s : agree s s.
Proof. split; reflexivity. Qed.

Lemma agree_trans s1 s2 s3 : agree s1 s2 -> agree s2 s3 -> agree s1 s3.
Proof. intros [A1 A2] [B1 B2]. split; congruence. Qed.

Lemma agree_sym s1 s2 : agree s1 s2 -> agree s2 s1.
Proof. intros [A1 A2]. split; congruence. Qed.

Lemma sim_ret {A} (a : A) : sim (ret a) (ret a).
Proof. intros s1 s2 H. split; [reflexivity | exact H]. Qed.

Lemma sim_raise {A} e : sim (@raise A e) (raise e).
Proof. intros s1 s2 H. split; [reflexivity | exact H]. Qed.

Lemma sim_bind {A B} (m1 m2 : M A) (k1 k2 : A -> M B) :
  sim m1 m2 -> (forall a, sim (k1 a) (k2 a)) -> sim (bind m1 k1) (bind m2 k2).
Proof.
  intros Hm Hk s1 s2 H. rewrite !bind_run. destruct (Hm s1 s2 H) as [E Ha].
  destruct (m1 s1) as [[a1|e1] t1], (m2 s2) as [[a2|e2] t2];
    cbn [fst snd] in *; try discriminate E.
  - injection E as <-. apply Hk, Ha.
  - injection E as <-. split; [reflexivity | exact Ha].
Qed.

Lemma sim_try_except {A} (m1 m2 : M A) h1 h2 :
  sim m1 m2 ->
  (forall e, match h1 e, h2 e with
             | Some k1, Some k2 => sim k1 k2
             | None, None => True
             | _, _ => False
             end) ->
  sim (try_except m1 h1) (try_except m2 h2).
Proof.
  intros Hm Hh s1 s2 H. unfold try_except. destruct (Hm s1 s2 H) as [E Ha].
  destruct (m1 s1) as [[a1|e1] t1], (m2 s2) as [[a2|e2] t2];
    cbn [fst snd] in *; try discriminate E.
  - injection E as <-. split; [reflexivity | exact Ha].
  - injection E as <-. specialize (Hh e1).
    destruct (h1 e1), (h2 e1); try contradiction.
    + apply Hh, Ha.
    + split; [reflexivity | exact Ha].
Qed.

Lemma sim_quiet m1 m2 : quiet m1 -> quiet m2 -> sim m1 m2.
Proof.
  intros H1 H2 s1 s2 H. destruct (H1 s1) as [E1 A1], (H2 s2) as [E2 A2].
  split; [congruence|].
  eapply agree_trans; [exact A1|]. eapply agree_trans; [exact H|].
  apply agree_sym, A2.
Qed.

Lemma sim_quiet_then_l {A} q (m1 m2 : M A) :
  quiet q -> sim m1 m2 -> sim (bind q (fun _ => m1)) m2.
Proof.
  intros Hq Hm s1 s2 H. rewrite bind_run. destruct (Hq s1) as [E A1].
  destruct (q s1) as [[[]|e] t1]; cbn [fst snd] in *; [|discriminate E].
  apply Hm. eapply agree_trans; eassumption.
Qed.

Lemma sim_then_quiet_l (m1 m2 : M unit) q :
  sim m1 m2 -> quiet q -> sim (bind m1 (fun _ => q)) m2.
Proof.
  intros Hm Hq s1 s2 H. rewrite bind_run. destruct (Hm s1 s2 H) as [E Ha].
  destruct (m1 s1) as [[[]|e1] t1]; cbn [fst snd] in *.
  - destruct (Hq t1) as [Eq Aq]. split; [congruence|].
    eapply agree_trans; eassumption.
  - split; assumption.
Qed.

Lemma sim_sym {A} (m1 m2 : M A) : sim m1 m2 -> sim m2 m1.
Proof.
  intros Hm s1 s2 H. destruct (Hm s2 s1 (agree_sym _ _ H)) as [E Ha].
  split; [congruence | apply agree_sym, Ha].
Qed.

Lemma quiet_emit ev : quiet (emit ev).
Proof. intros s. split; [reflexivity | split; reflexivity]. Qed.

Lemma quiet_when b m : quiet m -> quiet (when b m).
Proof. destruct b; [auto|]. intros _ s. split; [reflexivity | apply agree_refl]. Qed.

Lemma quiet_open_bar w n indent : quiet (open_bar w n indent).
Proof. unfold open_bar. destruct (w_columns w); apply quiet_emit. Qed.

Lemma sim_emit ev1 ev2 : sim (emit ev1) (emit ev2).
Proof. apply sim_quiet; apply quiet_emit. Qed.

Lemma sim_lift {A} (o : outcome A) : sim (lift o) (lift o).
Proof. destruct o; [apply sim_ret | apply sim_raise]. Qed.

Lemma sim_fail_with o : sim (fail_with o) (fail_with o).
Proof. destruct o; [apply sim_raise | apply sim_ret]. Qed.

(** The primitives read the cache and the file system, never the log. *)
Lemma sim_get_state {A} (k1 k2 : state -> M A) :
  (forall s1 s2, agree s1 s2 -> sim (k1 s1) (k2 s2)) ->
  sim (bind get_state k1) (bind get_state k2).
Proof. intros H s1 s2 Ha. rewrite !bind_run. cbn. apply H; exact Ha. Qed.

Lemma sim_set_fs f : sim (set_fs f) (set_fs f).
Proof.
  intros s1 s2 [Hc Hf]. split; [reflexivity | split; [exact Hc | reflexivity]].
Qed.

Lemma sim_set_aria2c_installed v :
  sim (set_aria2c_installed v) (set_aria2c_installed v).
Proof.
  intros s1 s2 [Hc Hf]. split; [reflexivity | split; [reflexivity | exact Hf]].
Qed.

Ltac sim_reads :=
  apply sim_get_state;
  let s1 := fresh "s1" in let s2 := fresh "s2" in
  let Hc := fresh "Hc" in let Hf := fresh "Hf" in
  intros s1 s2 [Hc Hf]; rewrite ?Hc, ?Hf.

Lemma sim_os_path_isfile p : sim (os_path_isfile p) (os_path_isfile p).
Proof. unfold os_path_isfile. sim_reads. apply sim_ret. Qed.

Lemma sim_os_path_exists p : sim (os_path_exists p) (os_path_exists p).
Proof. unfold os_path_exists. sim_reads. apply sim_ret. Qed.

Lemma sim_os_path_getsize p : sim (os_path_getsize p) (os_path_getsize p).
Proof.
  unfold os_path_getsize. sim_reads.
  destruct (fs_entry (fs s2) p) as [[d|]|];
    [apply sim_ret | apply sim_ret | apply sim_raise].
Qed.

Lemma sim_os_remove p : sim (os_remove p) (os_remove p).
Proof.
  unfold os_remove. apply sim_bind; [apply sim_emit|]. intros _. sim_reads.
  destruct (fs_entry (fs s2) p) as [[d|]|];
    [apply sim_set_fs | apply sim_raise | apply sim_raise].
Qed.

Lemma sim_silentremove p : sim (silentremove p) (silentremove p).
Proof.
  unfold silentremove. apply sim_try_except; [apply sim_os_remove|].
  intros e. destruct (is_OSError e); [|exact I].
  destruct (negb (errno_is_ENOENT e)); [apply sim_raise | apply sim_ret].
Qed.

Lemma sim_mkdir_each ps : sim (mkdir_each ps) (mkdir_each ps).
Proof.
  induction ps as [|q rest IH]; [apply sim_ret|].
  cbn [mkdir_each]. sim_reads.
  destruct (fs_entry (fs s2) q) as [[d|]|].
  - destruct rest; apply sim_raise.
  - exact IH.
  - apply sim_bind; [apply sim_set_fs | intros _; exact IH].
Qed.

Lemma sim_os_makedirs w name : sim (os_makedirs w name) (os_makedirs w name).
Proof.
  unfold os_makedirs. apply sim_bind; [apply sim_emit|]. intros _.
  destruct (string_eqb name ""); [apply sim_raise|].
  apply sim_bind; [apply sim_fail_with|]. intros _. apply sim_mkdir_each.
Qed.

Lemma sim_open_wb w p : sim (open_wb w p) (open_wb w p).
Proof.
  unfold open_wb. apply sim_bind; [apply sim_emit|]. intros _.
  apply sim_bind; [apply sim_fail_with|]. intros _. sim_reads.
  destruct (fs_entry (fs s2) p) as [[d|]|]; try apply sim_raise;
    (destruct (string_eqb p ""); [apply sim_raise|]);
    (destruct (parent_error (fs s2) p); [apply sim_raise | apply sim_set_fs]).
Qed.

Lemma sim_file_write p c : sim (file_write p c) (file_write p c).
Proof.
  unfold file_write. sim_reads.
  destruct (fs s2 !! p) as [[d|]|]; apply sim_set_fs.
Qed.

Lemma sim_run_aria2c w cmd1 cmd2 p : sim (run_aria2c w cmd1 p) (run_aria2c w cmd2 p).
Proof.
  intros s1 s2 [Hc Hf]. rewrite !run_aria2c_run. cbn [fst snd].
  split; [reflexivity|].
  split; cbn [fs _aria2c_installed]; [exact Hc|].
  rewrite Hf. reflexivity.
Qed.

Lemma sim_subprocess_run cmd o check :
  sim (subprocess_run cmd o check) (subprocess_run cmd o check).
Proof.
  unfold subprocess_run. apply sim_bind; [apply sim_emit|]. intros _.
  apply sim_bind; [apply sim_lift|]. intros pr.
  destruct (check && negb (returncode pr =? 0)); [apply sim_raise | apply sim_ret].
Qed.

Lemma sim_session_get w url headers :
  sim (session_get w url headers) (session_get w url headers).
Proof.
  intros s1 s2 [Hc Hf].
  destruct (session_get_run w url headers s1) as [sleeps1 ->].
  destruct (session_get_run w url headers s2) as [sleeps2 ->].
  split; [reflexivity | split; assumption].
Qed.

Lemma sim_image_open w p : sim (image_open w p) (image_open w p).
Proof.
  unfold image_open. apply sim_bind; [apply sim_emit|]. intros _. sim_reads.
  destruct (fs_entry (fs s2) p) as [[d|]|];
    [apply sim_lift | apply sim_raise | apply sim_raise].
Qed.

Lemma sim_image_save w im p f o : sim (image_save w im p f o) (image_save w im p f o).
Proof.
  unfold image_save. apply sim_bind; [apply sim_emit|]. intros _. sim_reads.
  destruct (w_encode w f o im); [|destruct (w_save_written w)];
    try destruct (fs_entry (fs s2) p) as [[d|]|];
    try apply sim_raise; try apply sim_set_fs.
  apply sim_bind; [apply sim_set_fs | intros _; apply sim_raise].
Qed.

Lemma sim_process_artwork w p st :
  sim (process_artwork w p st) (process_artwork w p st).
Proof.
  unfold process_artwork, image_convert, image_resize.
  apply sim_bind; [apply sim_image_open|]. intros im.
  apply sim_bind.
  { destruct (string_eqb (mode im) "P"); [|apply sim_ret].
    apply sim_bind; [apply sim_emit|]. intros _.
    apply sim_bind; [apply sim_fail_with|]. intros _. apply sim_ret. }
  intros im'. apply sim_bind.
  { apply sim_bind; [apply sim_emit|]. intros _.
    apply sim_bind; [apply sim_fail_with|]. intros _. apply sim_ret. }
  intros im''. apply sim_image_save.
Qed.

Lemma quiet_print line : quiet (print line).
Proof. apply quiet_emit. Qed.

Lemma sim_when b m1 m2 : sim m1 m2 -> sim (when b m1) (when b m2).
Proof. destruct b; [auto | intros _; apply sim_ret]. Qed.

Lemma sim_write_chunks p b1 b2 chunks :
  sim (write_chunks p b1 chunks) (write_chunks p b2 chunks).
Proof.
  induction chunks as [|chunk rest IH]; [apply sim_ret|].
  cbn [write_chunks]. apply sim_bind; [|intros _; exact IH].
  destruct chunk as [|c chunk]; [apply sim_ret|].
  apply sim_bind; [apply sim_file_write|]. intros _.
  apply sim_quiet; apply quiet_when, quiet_emit.
Qed.

Lemma sim_iter_content p b1 b2 r :
  sim (iter_content p b1 r) (iter_content p b2 r).
Proof.
  unfold iter_content. apply sim_bind; [apply sim_write_chunks|].
  intros _. apply sim_fail_with.
Qed.

Lemma sim_with_bar w p n indent r b :
  sim (run open_bar w n indent; run iter_content p true r; emit EvBarClose)
      (iter_content p b r).
Proof.
  apply sim_quiet_then_l; [apply quiet_open_bar|].
  apply sim_then_quiet_l; [apply sim_iter_content | apply quiet_emit].
Qed.

Lemma sim_write_response w p b1 b2 i1 i2 r total :
  sim (write_response w p b1 i1 r total) (write_response w p b2 i2 r total).
Proof.
  unfold write_response. apply sim_bind; [apply sim_open_wb|]. intros _.
  destruct total as [n|]; [|apply sim_iter_content].
  destruct (b1 && negb (n =? 0)), (b2 && negb (n =? 0)).
  - apply sim_quiet_then_l; [apply quiet_open_bar|].
    apply sim_sym, sim_quiet_then_l; [apply quiet_open_bar|].
    apply sim_bind; [apply sim_iter_content | intros _; apply sim_emit].
  - apply sim_with_bar.
  - apply sim_sym, sim_with_bar.
  - apply sim_iter_content.
Qed.

Lemma sim_stream_to_file w p b1 b2 i1 i2 r total :
  sim (stream_to_file w p b1 i1 r total) (stream_to_file w p b2 i2 r total).
Proof.
  unfold stream_to_file. apply sim_try_except; [apply sim_write_response|].
  intros e. destruct (is_Exception e); [|exact I].
  apply sim_bind; [apply sim_os_path_isfile|]. intros found.
  apply sim_bind; [apply sim_when, sim_silentremove|]. intros _. apply sim_raise.
Qed.

Lemma sim_fallback w url p headers b1 b2 i1 i2 :
  sim (fallback w url p headers b1 i1) (fallback w url p headers b2 i2).
Proof.
  unfold fallback. apply sim_bind; [apply sim_session_get|]. intros r.
  apply sim_bind.
  { unfold raise_for_status.
    destruct ((400 <=? status_code r) && (status_code r <? 600));
      [apply sim_raise | apply sim_ret]. }
  intros _. apply sim_bind.
  { destruct (length_header r); [apply sim_ret | apply sim_ret | apply sim_raise]. }
  intros total. apply sim_stream_to_file.
Qed.

Lemma sim_try_aria2c w url p headers b1 b2 i1 i2 :
  sim (try_aria2c w url p headers b1 i1) (try_aria2c w url p headers b2 i2).
Proof.
  unfold try_aria2c. apply sim_bind; [apply sim_os_makedirs|]. intros _.
  apply sim_try_except.
  - apply sim_bind; [apply sim_quiet; apply quiet_when, quiet_print|]. intros _.
    apply sim_bind; [apply sim_run_aria2c|]. intros pr.
    destruct (returncode pr =? 0); [apply sim_ret|].
    apply sim_bind; [apply sim_quiet; apply quiet_print|]. intros _.
    apply sim_bind; [apply sim_os_path_exists|]. intros found.
    apply sim_bind; [|intros _; apply sim_ret].
    apply sim_when. apply sim_bind; [apply sim_os_path_getsize|]. intros sz.
    apply sim_when, sim_silentremove.
  - intros e. destruct (is_FileNotFoundError e).
    + apply sim_bind; [apply sim_quiet; apply quiet_print|]. intros _.
      apply sim_ret.
    + destruct (is_Exception e); [|exact I].
      apply sim_bind; [apply sim_quiet; apply quiet_print|]. intros _.
      apply sim_bind; [apply sim_os_path_exists|]. intros found.
      apply sim_bind; [apply sim_when, sim_silentremove|]. intros _.
      apply sim_ret.
Qed.

Lemma sim_is_aria2c_installed w :
  sim (is_aria2c_installed w) (is_aria2c_installed w).
Proof.
  unfold is_aria2c_installed. sim_reads. apply sim_bind.
  - destruct (_aria2c_installed s2); [apply sim_ret|].
    apply sim_try_except.
    + apply sim_bind; [apply sim_subprocess_run|]. intros pr.
      apply sim_set_aria2c_installed.
    + intros e. destruct (is_CalledProcessError e || is_FileNotFoundError e);
        [apply sim_set_aria2c_installed | exact I].
  - intros _. sim_reads. apply sim_ret.
Qed.

Lemma sim_transfer w url p headers b1 b2 i1 i2 :
  sim (transfer w url p headers b1 i1) (transfer w url p headers b2 i2).
Proof.
  unfold transfer. apply sim_bind; [apply sim_is_aria2c_installed|].
  intros installed. apply sim_bind.
  - destruct (default false installed); [apply sim_try_aria2c | apply sim_ret].
  - intros locals. destruct (negb (aria2c_used locals));
      [apply sim_fallback | apply sim_ret].
Qed.

Lemma sim_postprocess w p i1 i2 artwork :
  sim (postprocess w p i1 artwork) (postprocess w p i2 artwork).
Proof.
  unfold postprocess. apply sim_bind; [apply sim_os_path_isfile|]. intros found.
  destruct artwork as [st|]; [|apply sim_ret].
  destruct (found && settings_nonempty st && default false (should_resize st));
    [|apply sim_ret].
  apply sim_try_except; [apply sim_process_artwork|].
  intros e. destruct (is_Exception e); [|exact I].
  apply sim_quiet; apply quiet_print.
Qed.

Lemma sim_download_file w url p headers b1 b2 i1 i2 artwork :
  sim (download_file w url p headers b1 i1 artwork)
      (download_file w url p headers b2 i2 artwork).
Proof.
  unfold download_file. apply sim_bind; [apply sim_os_path_isfile|].
  intros found. destruct found; [apply sim_ret|].
  apply sim_bind; [apply sim_transfer | intros _; apply sim_postprocess].
Qed.

(** X20.  The progress display is an observer: [enable_progress_bar] and
    [indent_level] change what is shown only.  Two calls that differ in
    them, from the same state, end the same way (return, or the same
    exception), with the same files and the same cached probe result. *)
Theorem download_file_display_is_observer w url p headers b1 b2 i1 i2 artwork s :
  let r1 := download_file w url p headers b1 i1 artwork s in
  let r2 := download_file w url p headers b2 i2 artwork s in
  fst r1 = fst r2 /\ fs (snd r1) = fs (snd r2)
  /\ _aria2c_installed (snd r1) = _aria2c_installed (snd r2).
Proof.
  cbv zeta.
  destruct (sim_download_file w url p headers b1 b2 i1 i2 artwork s s
              (agree_refl s)) as [E [Hc Hf]].
  auto.
Qed.

(** ** [download_to_temp] *)

Lemma extension_suffix_no_sep ext :
  Forall (fun c => is_sep c = false) (list_ascii_of_string ext) ->
  Forall (fun c => is_sep c = false) (list_ascii_of_string (extension_suffix ext)).
Proof.
  intros H. unfold extension_suffix. destruct (string_eqb ext ""); [constructor|].
  change ("." +:+ ext) with (String "."%char ext). cbn [list_ascii_of_string].
  constructor; [reflexivity | exact H].
Qed.

Lemma download_location_parent random16 ext :
  Forall (fun c => is_sep c = false) (list_ascii_of_string ext) ->
  dirname (create_temp_filename random16 +:+ extension_suffix ext) = "temp" /\
  basename (create_temp_filename random16 +:+ extension_suffix ext)
  = hex random16 +:+ extension_suffix ext.
Proof.
  intros H. unfold create_temp_filename, dirname, basename.
  change ("temp/" +:+ hex random16) with ("temp" +:+ "/" +:+ hex random16).
  rewrite !append_assoc.
  rewrite (rsplit_sep_under "temp" (hex random16 +:+ extension_suffix ext)).
  - split; reflexivity.
  - rewrite list_ascii_app. apply Forall_app. split.
    + apply hex_no_sep.
    + apply extension_suffix_no_sep, H.
Qed.

Lemma fs_entry_download_location f random16 ext :
  fs_entry f (create_temp_filename random16 +:+ extension_suffix ext)
  = f !! (create_temp_filename random16 +:+ extension_suffix ext).
Proof. reflexivity. Qed.

(** X21.  With the accelerator known to be unavailable, [temp] a directory,
    an extension without a slash and a name that is not taken, a request
    that is answered whole makes [download_to_temp] return
    [temp/<hex>] followed by a dot and the extension (no dot for the empty
    extension), and the file of that name holds the body. *)
Theorem download_to_temp_fetches w random16 url headers ext bar indent r s :
  let location := create_temp_filename random16 +:+ extension_suffix ext in
  _aria2c_installed s = Some false ->
  Forall (fun c => is_sep c = false) (list_ascii_of_string ext) ->
  is_dir (fs s) "temp" = true ->
  fs s !! location = None ->
  w_get w = Ret r ->
  (400 <=? status_code r) && (status_code r <? 600) = false ->
  length_header r <> BadLength ->
  body_error r = None ->
  w_open w = None ->
  exists s',
    download_to_temp w random16 url headers ext bar indent s = (Ret location, s') /\
    fs s' = <[location := File (List.concat (body r))]> (fs s) /\
    dirname location = "temp" /\
    extension_suffix "" = "" /\
    (ext <> "" -> extension_suffix ext = "." +:+ ext).
Proof.
  intros location Hc Hext Htemp Hfree Hg Hst Hlen Hbody Hopen.
  destruct (download_location_parent random16 ext Hext) as [Hd _].
  destruct (download_file_body w url location headers bar indent r s)
    as [l E]; try assumption.
  - subst location. unfold create_temp_filename. discriminate.
  - rewrite (parent_error_under_temp _ _ Hd), (is_dir_entry _ _ Htemp).
    reflexivity.
  - eexists. unfold download_to_temp. fold location. rewrite bind_run, E.
    repeat apply conj; try reflexivity.
    + exact Hd.
    + intros Hne. unfold extension_suffix.
      rewrite (proj2 (string_eqb_ne _ _) Hne). reflexivity.
Qed.

Lemma download_to_temp_fetches_witness :
  exists s',
    download_to_temp world_no_accelerator random_a7 "http://h/cover.jpg" []
      "jpg" false 0 state_with_temp
    = (Ret (create_temp_filename random_a7 +:+ extension_suffix "jpg"), s') /\
    fs s' = <[create_temp_filename random_a7 +:+ extension_suffix "jpg"
              := File (List.concat (body (Response 200 (Length 5)
                                            [chunk1; chunk2] None)))]>
              (fs state_with_temp) /\
    dirname (create_temp_filename random_a7 +:+ extension_suffix "jpg") = "temp" /\
    extension_suffix "" = "" /\
    ("jpg" <> "" -> extension_suffix "jpg" = "." +:+ "jpg").
Proof.
  apply (download_to_temp_fetches world_no_accelerator random_a7
           "http://h/cover.jpg" [] "jpg" false 0
           (Response 200 (Length 5) [chunk1; chunk2] None) state_with_temp).
  - reflexivity.
  - repeat constructor.
  - reflexivity.
  - vm_compute. reflexivity.
  - reflexivity.
  - reflexivity.
  - discriminate.
  - reflexivity.
  - reflexivity.
Defined.

Lemma fallback_cannot_open w url p headers bar indent r s e :
  w_get w = Ret r ->
  (400 <=? status_code r) && (status_code r <? 600) = false ->
  length_header r <> BadLength ->
  w_open w = None ->
  fs_entry (fs s) p = None ->
  p <> "" ->
  parent_error (fs s) p = Some e ->
  is_Exception e = true ->
  fallback w url p headers bar indent s
  = (Raise e,
     State (_aria2c_installed s) (fs s)
       (log s ++ request_events url headers (w_sleeps w) ++ [EvOpenWb p])).
Proof.
  intros Hg Hst Hlen Hopen Hp Hne Hpar He.
  unfold fallback. rewrite bind_run, session_get_eq, Hg, bind_run.
  unfold raise_for_status. rewrite Hst.
  unfold ret at 1. rewrite bind_run.
  set (s0 := State (_aria2c_installed s) (fs s)
               (log s ++ request_events url headers (w_sleeps w))).
  assert (Hw : forall total,
            stream_to_file w p bar indent r total s0
            = (Raise e,
               State (_aria2c_installed s) (fs s)
                 (log s ++ request_events url headers (w_sleeps w)
                  ++ [EvOpenWb p]))).
  { intros total. unfold stream_to_file, try_except, write_response.
    rewrite bind_run, open_wb_run, Hopen. subst s0.
    cbn [fs log _aria2c_installed].
    rewrite Hp, Hpar, (proj2 (string_eqb_ne _ _) Hne), He.
    unfold os_path_isfile, bind, get_state, ret, is_file.
    cbn [fs log _aria2c_installed]. rewrite Hp. unfold when, ret, raise.
    rewrite <- app_assoc. reflexivity. }
  destruct (length_header r) as [|n|]; try congruence; unfold ret at 1; apply Hw.
Qed.

(** X22.  With the accelerator known to be unavailable and [temp] no
    directory, [download_to_temp] sends the request and then raises for
    the temporary name, [FileNotFoundError] when there is no [temp] and
    [NotADirectoryError] when [temp] is a regular file: nothing creates
    [temp], and the file system is left as it was. *)
Theorem download_to_temp_without_directory
    w random16 url headers ext bar indent r s :
  let location := create_temp_filename random16 +:+ extension_suffix ext in
  _aria2c_installed s = Some false ->
  Forall (fun c => is_sep c = false) (list_ascii_of_string ext) ->
  is_dir (fs s) "temp" = false ->
  fs s !! location = None ->
  w_get w = Ret r ->
  (400 <=? status_code r) && (status_code r <? 600) = false ->
  length_header r <> BadLength ->
  w_open w = None ->
  download_to_temp w random16 url headers ext bar indent s
  = (Raise (if is_file (fs s) "temp" then ENOTDIR location else ENOENT location),
     State (Some false) (fs s)
       (log s ++ request_events url headers (w_sleeps w)
        ++ [EvOpenWb location])) /\
  EvGet url headers true false ∈ request_events url headers (w_sleeps w).
Proof.
  intros location Hc Hext Htemp Hfree Hg Hst Hlen Hopen.
  split; [|apply list_elem_of_here].
  destruct (download_location_parent random16 ext Hext) as [Hd _].
  fold location in Hd.
  assert (Hne : location <> "").
  { subst location. unfold create_temp_filename. discriminate. }
  pose proof (parent_error_under_temp (fs s) location Hd) as Hpar.
  unfold download_to_temp. fold location.
  rewrite bind_run, (download_file_unavailable _ _ _ _ _ _ _ _ Hc), bind_run.
  unfold os_path_isfile at 1, bind at 1, get_state, ret at 1.
  unfold is_file at 1.
  change (fs_entry (fs s) location) with (fs s !! location). rewrite Hfree.
  unfold is_dir in Htemp. unfold is_file.
  destruct (fs_entry (fs s) "temp") as [[d|]|]; try discriminate Htemp;
    rewrite bind_run;
    erewrite (fallback_cannot_open w url location headers bar indent r s);
    try eassumption; try reflexivity; rewrite Hc; reflexivity.
Qed.

Lemma download_to_temp_without_directory_witness :
  download_to_temp world_no_accelerator random_a7 "http://h/cover.jpg" []
    "jpg" false 0 state_temp_is_file
  = (Raise (if is_file (fs state_temp_is_file) "temp"
            then ENOTDIR (create_temp_filename random_a7 +:+ extension_suffix "jpg")
            else ENOENT (create_temp_filename random_a7 +:+ extension_suffix "jpg")),
     State (Some false) (fs state_temp_is_file)
       (log state_temp_is_file
        ++ request_events "http://h/cover.jpg" [] (w_sleeps world_no_accelerator)
        ++ [EvOpenWb (create_temp_filename random_a7 +:+ extension_suffix "jpg")])) /\
  EvGet "http://h/cover.jpg" [] true false
    ∈ request_events "http://h/cover.jpg" [] (w_sleeps world_no_accelerator).
Proof.
  apply (download_to_temp_without_directory world_no_accelerator random_a7
           "http://h/cover.jpg" [] "jpg" false 0
           (Response 200 (Length 5) [chunk1; chunk2] None) state_temp_is_file).
  - reflexivity.
  - repeat constructor.
  - reflexivity.
  - vm_compute. reflexivity.
  - reflexivity.
  - reflexivity.
  - discriminate.
  - reflexivity.
Defined.

(** ** The temporary settings *)

Import Settings.

Lemma bind_Ok {A B} (m : result A) (k : A -> result B) b :
  m ≫= k = Ok b -> exists a, m = Ok a /\ k a = Ok b.
Proof. destruct m as [a|e]; [eauto | discriminate]. Qed.

Lemma truthy_insert key v d : truthy (VDict (<[key := v]> d)) = true.
Proof.
  cbn [truthy]. apply negb_true_iff, Nat.eqb_neq.
  apply map_size_non_empty_iff, insert_non_empty.
Qed.

Lemma module_settings_of_dict d dm module ms :
  d !! "modules" = Some (VDict dm) ->
  dm !! module = Some ms ->
  module_settings_of (VDict d) module = Ok ms.
Proof.
  intros Hm Hms. unfold module_settings_of. cbn [getitem]. rewrite Hm.
  cbn [mbind result_bind contains getitem]. rewrite Hms. reflexivity.
Qed.

Lemma module_settings_of_absent d dm module :
  d !! "modules" = Some (VDict dm) ->
  dm !! module = None ->
  module_settings_of (VDict d) module = Ok VNone.
Proof.
  intros Hm Hms. unfold module_settings_of. cbn [getitem]. rewrite Hm.
  cbn [mbind result_bind contains]. rewrite Hms. reflexivity.
Qed.

(** A module with settings sits in a dictionary of modules. *)
Lemma module_settings_of_truthy ts module ms :
  module_settings_of ts module = Ok ms ->
  truthy ms = true ->
  exists d dm, ts = VDict d /\ d !! "modules" = Some (VDict dm) /\
               dm !! module = Some ms.
Proof.
  unfold module_settings_of. intros H Ht.
  apply bind_Ok in H as (modules & Hg & H).
  apply bind_Ok in H as (present & Hc & H).
  destruct ts as [| | |s|d]; try discriminate Hg.
  cbn [getitem] in Hg. destruct (d !! "modules") as [m|] eqn:Hm; [|discriminate Hg].
  injection Hg as ->. cbn [getitem mbind result_bind] in H.
  rewrite Hm in H. cbn [mbind result_bind] in H.
  destruct present; [|injection H as <-; discriminate Ht].
  destruct modules as [| | |s|dm]; try discriminate H.
  cbn [getitem] in H. destruct (dm !! module) as [x|] eqn:Hx; [|discriminate H].
  injection H as ->. exists d, dm. auto.
Qed.

(** A session that is a dictionary is the module's own dictionary, or the
    selected entry of its dictionary of sessions. *)
Lemma session_of_dict ms g ds :
  session_of ms g = Ok (VDict ds) ->
  truthy ms = true /\
  (if g then ms = VDict ds
   else exists dms dss sel,
          ms = VDict dms /\ dms !! "sessions" = Some (VDict dss) /\
          dms !! "selected" = Some (VStr sel) /\ dss !! sel = Some (VDict ds)).
Proof.
  unfold session_of. intros H.
  destruct (truthy ms) eqn:Ht; [|discriminate H]. split; [reflexivity|].
  destruct g; [injection H as ->; reflexivity|].
  apply bind_Ok in H as (sessions & Hs & H).
  apply bind_Ok in H as (selected & Hsel & H).
  destruct ms as [| | |s|dms]; try discriminate Hs.
  cbn [getitem] in Hs, Hsel.
  destruct (dms !! "sessions") as [x|] eqn:Hx; [|discriminate Hs].
  injection Hs as ->.
  destruct (dms !! "selected") as [y|] eqn:Hy; [|discriminate Hsel].
  injection Hsel as ->.
  destruct sessions as [| | |s|dss]; try discriminate H.
  - cbn [getitem] in H. unfold str_index in H.
    destruct selected as [|b|n| |]; try discriminate H;
      repeat match type of H with
             | (if ?c then _ else _) = _ => destruct c
             | match ?c with _ => _ end = _ => destruct c
             end; discriminate H.
  - cbn [getitem] in H. destruct selected as [| | |sel|]; try discriminate H.
    destruct (dss !! sel) as [z|] eqn:Hz; [|discriminate H].
    injection H as ->. exists dms, dss, sel. auto.
Qed.

(** What a call of [set_temporary_setting] that reaches the dump has done. *)
Lemma set_temporary_setting_Ok ts module root setting v g ts' :
  set_temporary_setting ts module root setting v g = Ok ts' ->
  exists ms ds x,
    module_settings_of ts module = Ok ms /\
    session_of ms g = Ok (VDict ds) /\
    ts' = with_session ts ms module g (VDict (<[root := x]> ds)) /\
    (if given setting
     then exists dsub, ds !! root = Some (VDict dsub) /\
                       x = VDict (<[default "" setting := v]> dsub)
     else x = v).
Proof.
  unfold set_temporary_setting. intros H.
  apply bind_Ok in H as (ms & Hms & H).
  apply bind_Ok in H as (session & Hs & H).
  destruct (negb (truthy session)); [discriminate H|].
  apply bind_Ok in H as (session' & Hm & H). injection H as <-.
  destruct (given setting).
  - apply bind_Ok in Hm as (sub & Hsub & Hm).
    apply bind_Ok in Hm as (sub' & Hsub' & Hm).
    destruct session as [| | | |ds]; try discriminate Hm.
    destruct sub as [| | | |dsub]; try discriminate Hsub'.
    cbn [setitem] in Hm, Hsub'. injection Hsub' as <-. injection Hm as <-.
    cbn [getitem] in Hsub.
    destruct (ds !! root) as [y|] eqn:Hy; [|discriminate Hsub].
    injection Hsub as ->.
    exists ms, ds, (VDict (<[default "" setting := v]> dsub)).
    repeat apply conj; try reflexivity; try assumption.
    exists dsub. auto.
  - destruct session as [| | | |ds]; try discriminate Hm.
    cbn [setitem] in Hm. injection Hm as <-.
    exists ms, ds, v. auto.
Qed.

(** After the assignment the same walk reaches the new session. *)
Lemma with_session_walk ts module ms g ds session' :
  module_settings_of ts module = Ok ms ->
  session_of ms g = Ok (VDict ds) ->
  truthy session' = true ->
  exists ms',
    module_settings_of (with_session ts ms module g session') module = Ok ms' /\
    session_of ms' g = Ok session'.
Proof.
  intros Hms Hs Ht.
  destruct (session_of_dict ms g ds Hs) as [Htm Hg].
  destruct (module_settings_of_truthy ts module ms Hms Htm)
    as (d & dm & -> & Hd & Hdm).
  unfold with_session. destruct g.
  - subst ms. exists session'. cbn [store]. rewrite Hd, Hdm. split.
    + eapply module_settings_of_dict; apply lookup_insert_eq.
    + unfold session_of. rewrite Ht. reflexivity.
  - destruct Hg as (dms & dss & sel & -> & Hss & Hsel & Hsess).
    cbn [getitem]. rewrite Hsel. cbn [store]. rewrite Hd, Hdm, Hss, Hsess.
    eexists. split.
    + eapply module_settings_of_dict; apply lookup_insert_eq.
    + unfold session_of. rewrite truthy_insert. cbn [getitem].
      rewrite lookup_insert_eq, lookup_insert_ne, Hsel by discriminate.
      cbn [mbind result_bind getitem]. rewrite lookup_insert_eq. reflexivity.
Qed.

(** X23.  What [set_temporary_setting] stores, [read_temporary_setting]
    returns: when a call with a non-empty [root_setting] reaches the dump,
    reading the dumped object with the same module, root setting, setting
    and mode gives the value.  An empty [setting] is no setting on both
    sides. *)
Theorem set_then_read_temporary_setting ts module root setting v g ts' :
  root <> "" ->
  set_temporary_setting ts module root setting v g = Ok ts' ->
  read_temporary_setting ts' module (Some root) setting g = Ok v.
Proof.
  intros Hroot H.
  apply set_temporary_setting_Ok in H as (ms & ds & x & Hms & Hs & -> & Hx).
  destruct (with_session_walk ts module ms g ds (VDict (<[root := x]> ds))
              Hms Hs (truthy_insert _ _ _)) as (ms' & Hms' & Hs').
  unfold read_temporary_setting. rewrite Hms'. cbn [mbind result_bind].
  rewrite Hs'. cbn [mbind result_bind]. rewrite truthy_insert.
  cbn [given default from_option id andb].
  rewrite (proj2 (string_eqb_ne _ _) Hroot). cbn [negb].
  cbn [contains getitem]. rewrite lookup_insert_eq. cbn [has mbind result_bind].
  destruct (given setting).
  - destruct Hx as (dsub & _ & ->). cbn [contains getitem].
    rewrite lookup_insert_eq. reflexivity.
  - subst x. reflexivity.
Qed.

Lemma set_then_read_temporary_setting_witness :
  read_temporary_setting settings_example_renewed "tidal" (Some "bearer") None
    false
  = Ok (VStr "xyz").
Proof.
  apply (set_then_read_temporary_setting settings_example "tidal" "bearer" None
           (VStr "xyz") false settings_example_renewed).
  - discriminate.
  - vm_compute. reflexivity.
Defined.

Lemma with_session_shape ts module ms g ds session' :
  module_settings_of ts module = Ok ms ->
  session_of ms g = Ok (VDict ds) ->
  exists d dm x,
    ts = VDict d /\ d !! "modules" = Some (VDict dm) /\
    with_session ts ms module g session'
    = VDict (<["modules" := VDict (<[module := x]> dm)]> d).
Proof.
  intros Hms Hs.
  destruct (session_of_dict ms g ds Hs) as [Htm Hg].
  destruct (module_settings_of_truthy ts module ms Hms Htm)
    as (d & dm & -> & Hd & Hdm).
  exists d, dm. unfold with_session. destruct g.
  - exists session'. cbn [store]. rewrite Hd, Hdm. auto.
  - destruct Hg as (dms & dss & sel & -> & Hss & Hsel & Hsess).
    cbn [getitem]. rewrite Hsel. cbn [store]. rewrite Hd, Hdm, Hss, Hsess.
    eexists. auto.
Qed.

(** X24.  An assignment to one module's session leaves the settings of
    every other module as they read before, whatever is read and in
    whatever mode. *)
Theorem set_temporary_setting_other_module
    ts module root setting v g ts' module' root' setting' g' :
  module' <> module ->
  set_temporary_setting ts module root setting v g = Ok ts' ->
  read_temporary_setting ts' module' root' setting' g'
  = read_temporary_setting ts module' root' setting' g'.
Proof.
  intros Hne H.
  apply set_temporary_setting_Ok in H as (ms & ds & x & Hms & Hs & -> & _).
  destruct (with_session_shape ts module ms g ds (VDict (<[root := x]> ds))
              Hms Hs) as (d & dm & y & -> & Hd & ->).
  assert (E : module_settings_of
                (VDict (<["modules" := VDict (<[module := y]> dm)]> d)) module'
              = module_settings_of (VDict d) module').
  { unfold module_settings_of. cbn [getitem].
    rewrite lookup_insert_eq, Hd. cbn [mbind result_bind contains getitem].
    rewrite lookup_insert_ne by congruence. reflexivity. }
  unfold read_temporary_setting. rewrite E. reflexivity.
Qed.

Lemma set_temporary_setting_other_module_witness :
  read_temporary_setting settings_example_renewed "qobuz" (Some "bearer") None
    false
  = read_temporary_setting settings_example "qobuz" (Some "bearer") None false.
Proof.
  apply (set_temporary_setting_other_module settings_example "tidal" "bearer"
           None (VStr "xyz") false settings_example_renewed "qobuz").
  - discriminate.
  - vm_compute. reflexivity.
Defined.

(** X25.  A module that is not in the settings, or whose entry is empty,
    has no session: reading it without a root setting returns [None],
    reading it with one raises [Exception('Module does not use temporary
    settings')], and so does every assignment. *)
Theorem temporary_setting_unknown_module d dm module root setting v g :
  d !! "modules" = Some (VDict dm) ->
  (forall ms, dm !! module = Some ms -> truthy ms = false) ->
  read_temporary_setting (VDict d) module None setting g = Ok VNone /\
  (root <> "" ->
   read_temporary_setting (VDict d) module (Some root) setting g
   = Err (Exception "Module does not use temporary settings")) /\
  set_temporary_setting (VDict d) module root setting v g
  = Err (Exception "Module does not use temporary settings").
Proof.
  intros Hd Hms.
  assert (E : exists ms, module_settings_of (VDict d) module = Ok ms /\
                         truthy ms = false).
  { destruct (dm !! module) as [ms|] eqn:Hx.
    - exists ms. split; [eapply module_settings_of_dict; eassumption | auto].
    - exists VNone. split; [eapply module_settings_of_absent; eassumption|].
      reflexivity. }
  destruct E as (ms & E & Ht).
  unfold read_temporary_setting, set_temporary_setting, session_of.
  rewrite E. cbn [mbind result_bind]. rewrite Ht. cbn [mbind result_bind truthy].
  repeat apply conj; try reflexivity.
  intros Hroot. cbn [given andb negb]. rewrite (proj2 (string_eqb_ne _ _) Hroot).
  reflexivity.
Qed.

Lemma temporary_setting_unknown_module_witness :
  read_temporary_setting settings_example "qobuz" None None false = Ok VNone /\
  ("bearer" <> "" ->
   read_temporary_setting settings_example "qobuz" (Some "bearer") None false
   = Err (Exception "Module does not use temporary settings")) /\
  set_temporary_setting settings_example "qobuz" "bearer" None (VStr "xyz") false
  = Err (Exception "Module does not use temporary settings").
Proof.
  refine (temporary_setting_unknown_module _
            {[ "tidal" :=
               VDict (<[ "selected" := VStr "default" ]>
                 {[ "sessions" := VDict {[ "default" :=
                      VDict {[ "bearer" := VStr "abc" ]} ]} ]}) ]}
            "qobuz" "bearer" None (VStr "xyz") false _ _).
  - vm_compute. reflexivity.
  - intros ms H. vm_compute in H. discriminate H.
Defined.

(** X26.  A root setting that the session does not have: reading a setting
    under it returns [None], assigning a setting under it raises
    [KeyError] for the root setting, and nothing is dumped. *)
Theorem temporary_setting_missing_root ts module root setting v g ds :
  read_temporary_setting ts module None None g = Ok (VDict ds) ->
  ds <> ∅ ->
  ds !! root = None ->
  root <> "" ->
  given setting = true ->
  read_temporary_setting ts module (Some root) setting g = Ok VNone /\
  set_temporary_setting ts module root setting v g = Err (KeyError (VStr root)).
Proof.
  intros H Hne Hroot Hr Hg.
  unfold read_temporary_setting in H.
  apply bind_Ok in H as (ms & Hms & H).
  apply bind_Ok in H as (session & Hs & H).
  cbn [given andb] in H. rewrite andb_false_r in H. injection H as ->.
  assert (Ht : truthy (VDict ds) = true).
  { cbn [truthy]. apply negb_true_iff, Nat.eqb_neq.
    apply map_size_non_empty_iff, Hne. }
  unfold read_temporary_setting, set_temporary_setting.
  rewrite Hms. cbn [mbind result_bind]. rewrite Hs. cbn [mbind result_bind].
  rewrite Ht, Hg. cbn [given default from_option id andb negb].
  rewrite (proj2 (string_eqb_ne _ _) Hr). cbn [negb contains getitem].
  rewrite Hroot. split; reflexivity.
Qed.

Lemma temporary_setting_missing_root_witness :
  read_temporary_setting settings_example "tidal" (Some "user") (Some "id") false
  = Ok VNone /\
  set_temporary_setting settings_example "tidal" "user" (Some "id") (VInt 7) false
  = Err (KeyError (VStr "user")).
Proof.
  refine (temporary_setting_missing_root settings_example "tidal" "user"
            (Some "id") (VInt 7) false {[ "bearer" := VStr "abc" ]} _ _ _ _ _).
  - vm_compute. reflexivity.
  - apply insert_non_empty.
  - vm_compute. reflexivity.
  - discriminate.
  - reflexivity.
Defined.

(** ** [fix_byte_limit] *)

Lemma rsplit_sep_snd_no_sep p :
  Forall (fun c => is_sep c = false) (list_ascii_of_string (snd (rsplit_sep p))).
Proof.
  induction p as [|c r IH]; [constructor|].
  rewrite rsplit_sep_cons. destruct (is_sep c) eqn:Hc; [exact IH|].
  destruct (fst (rsplit_sep r)); [|exact IH].
  cbn [snd list_ascii_of_string]. constructor; assumption.
Qed.

Lemma decode_ignore_from_Forall (P : ascii -> Prop) pending need bs :
  Forall P pending -> Forall P bs ->
  Forall P (decode_ignore_from pending need bs).
Proof.
  revert pending need. induction bs as [|b rest IH]; intros pending need Hp Hb;
    [constructor|].
  apply Forall_cons in Hb as [Hb Hr]. cbn [decode_ignore_from].
  destruct ((0 <? need)%nat && is_continuation b).
  - destruct (need =? 1)%nat.
    + apply Forall_app. split; [exact Hp|]. constructor; [exact Hb|].
      apply IH; [constructor | exact Hr].
    + apply IH; [|exact Hr]. apply Forall_app. split; [exact Hp|].
      constructor; [exact Hb | constructor].
  - destruct (utf8_len b) as [|[|k]].
    + apply IH; [constructor | exact Hr].
    + constructor; [exact Hb|]. apply IH; [constructor | exact Hr].
    + apply IH; [|exact Hr]. constructor; [exact Hb | constructor].
Qed.

Lemma decode_ignore_from_length pending need bs :
  (List.length (decode_ignore_from pending need bs)
   <= List.length pending + List.length bs)%nat.
Proof.
  revert pending need. induction bs as [|b rest IH]; intros pending need;
    cbn [decode_ignore_from List.length]; [lia|].
  destruct ((0 <? need)%nat && is_continuation b).
  - destruct (need =? 1)%nat.
    + rewrite length_app. cbn [List.length].
      specialize (IH [] 0%nat). cbn [List.length] in IH. lia.
    + specialize (IH (pending ++ [b]) (need - 1)%nat).
      rewrite length_app in IH. cbn [List.length] in IH. lia.
  - destruct (utf8_len b) as [|[|k]].
    + specialize (IH [] 0%nat). cbn [List.length] in IH. lia.
    + cbn [List.length]. specialize (IH [] 0%nat). cbn [List.length] in IH. lia.
    + specialize (IH [b] (S k)). cbn [List.length] in IH. lia.
Qed.

Lemma decode_ignore_ascii bs :
  Forall (fun b => is_ascii b = true) bs -> decode_ignore bs = bs.
Proof.
  unfold decode_ignore. induction bs as [|b rest IH]; [reflexivity|].
  intros H. apply Forall_cons in H as [Hb Hr].
  cbn [decode_ignore_from Nat.ltb Nat.leb andb].
  unfold utf8_len. unfold is_ascii in Hb. rewrite Hb, (IH Hr). reflexivity.
Qed.

Lemma slice_to_Forall {A} (P : A -> Prop) l stop :
  Forall P l -> Forall P (slice_to l stop).
Proof. intros H. unfold slice_to. destruct (0 <=? stop); apply Forall_take, H. Qed.

Lemma slice_to_length {A} (l : list A) stop :
  0 <= stop -> (List.length (slice_to l stop) <= Z.to_nat stop)%nat.
Proof.
  intros H. unfold slice_to. rewrite (proj2 (Z.leb_le _ _) H), length_take. lia.
Qed.

Lemma fixed_filename_no_sep filename byte_limit :
  Forall (fun c => is_sep c = false) (list_ascii_of_string filename) ->
  Forall (fun c => is_sep c = false)
    (list_ascii_of_string (fixed_filename filename byte_limit)).
Proof.
  intros H. unfold fixed_filename. rewrite list_ascii_of_string_of_list_ascii.
  apply decode_ignore_from_Forall; [constructor | apply slice_to_Forall, H].
Qed.

Lemma string_length_list s : String.length s = List.length (list_ascii_of_string s).
Proof. induction s as [|c r IH]; [reflexivity|]. cbn. rewrite IH. reflexivity. Qed.

(** X27.  The directory and the name are joined with a slash even when
    the directory is empty: for a path without a directory part the result
    starts with a slash and names an entry of the root directory, not of
    the working directory. *)
Theorem fix_byte_limit_bare_name rel_path byte_limit :
  dirname rel_path = "" ->
  fix_byte_limit rel_path byte_limit
  = "/" +:+ fixed_filename (basename rel_path) byte_limit /\
  dirname (fix_byte_limit rel_path byte_limit) = "/".
Proof.
  intros Hd. unfold fix_byte_limit. rewrite Hd.
  change ("" +:+ "/" +:+ fixed_filename (basename rel_path) byte_limit)
    with ("/" +:+ fixed_filename (basename rel_path) byte_limit).
  split; [reflexivity|].
  unfold dirname.
  change ("/" +:+ fixed_filename (basename rel_path) byte_limit)
    with ("" +:+ "/" +:+ fixed_filename (basename rel_path) byte_limit).
  rewrite rsplit_sep_under; [reflexivity|].
  apply fixed_filename_no_sep, rsplit_sep_snd_no_sep.
Qed.

Lemma fix_byte_limit_bare_name_witness :
  fix_byte_limit "song.flac" 250
  = "/" +:+ fixed_filename (basename "song.flac") 250 /\
  dirname (fix_byte_limit "song.flac" 250) = "/".
Proof. apply (fix_byte_limit_bare_name "song.flac" 250). reflexivity. Defined.

(** X28.  For a limit that is not negative, the file name of the result
    is the cut file name of the path and has at most [byte_limit] bytes. *)
Theorem fix_byte_limit_bound rel_path byte_limit :
  0 <= byte_limit ->
  basename (fix_byte_limit rel_path byte_limit)
  = fixed_filename (basename rel_path) byte_limit /\
  (String.length (basename (fix_byte_limit rel_path byte_limit))
   <= Z.to_nat byte_limit)%nat.
Proof.
  intros H.
  assert (E : basename (fix_byte_limit rel_path byte_limit)
              = fixed_filename (basename rel_path) byte_limit).
  { unfold fix_byte_limit, basename at 1.
    rewrite rsplit_sep_under; [reflexivity|].
    apply fixed_filename_no_sep, rsplit_sep_snd_no_sep. }
  split; [exact E|]. rewrite E. unfold fixed_filename.
  rewrite string_length_list, list_ascii_of_string_of_list_ascii.
  unfold decode_ignore.
  pose proof (decode_ignore_from_length [] 0
                (slice_to (list_ascii_of_string (basename rel_path)) byte_limit)).
  pose proof (slice_to_length (list_ascii_of_string (basename rel_path))
                byte_limit H).
  cbn [List.length] in *. lia.
Qed.

Lemma fix_byte_limit_bound_witness :
  basename (fix_byte_limit "music/song.flac" 4)
  = fixed_filename (basename "music/song.flac") 4 /\
  (String.length (basename (fix_byte_limit "music/song.flac" 4))
   <= Z.to_nat 4)%nat.
Proof. apply (fix_byte_limit_bound "music/song.flac" 4). lia. Defined.

(** X29.  A file name of ASCII characters is cut to its first
    [byte_limit] characters, and left whole when it has no more than that:
    the result is then the directory, a slash and the name. *)
Theorem fix_byte_limit_ascii rel_path byte_limit :
  0 <= byte_limit ->
  Forall (fun b => is_ascii b = true) (list_ascii_of_string (basename rel_path)) ->
  fix_byte_limit rel_path byte_limit
  = dirname rel_path +:+ "/"
    +:+ string_of_list_ascii
          (take (Z.to_nat byte_limit) (list_ascii_of_string (basename rel_path)))
  /\
  ((String.length (basename rel_path) <= Z.to_nat byte_limit)%nat ->
   fix_byte_limit rel_path byte_limit
   = dirname rel_path +:+ "/" +:+ basename rel_path).
Proof.
  intros H Ha.
  assert (E : fixed_filename (basename rel_path) byte_limit
              = string_of_list_ascii
                  (take (Z.to_nat byte_limit)
                     (list_ascii_of_string (basename rel_path)))).
  { unfold fixed_filename, slice_to. rewrite (proj2 (Z.leb_le _ _) H).
    rewrite decode_ignore_ascii; [reflexivity | apply Forall_take, Ha]. }
  unfold fix_byte_limit. rewrite E. split; [reflexivity|].
  intros Hl. rewrite take_ge.
  - rewrite string_of_list_ascii_of_string. reflexivity.
  - rewrite <- string_length_list. exact Hl.
Qed.

Lemma fix_byte_limit_ascii_witness :
  fix_byte_limit "music/song.flac" 4
  = dirname "music/song.flac" +:+ "/"
    +:+ string_of_list_ascii
          (take (Z.to_nat 4) (list_ascii_of_string (basename "music/song.flac")))
  /\
  ((String.length (basename "music/song.flac") <= Z.to_nat 4)%nat ->
   fix_byte_limit "music/song.flac" 4
   = dirname "music/song.flac" +:+ "/" +:+ basename "music/song.flac").
Proof.
  apply (fix_byte_limit_ascii "music/song.flac" 4).
  - lia.
  - vm_compute. repeat constructor.
Defined.
